(** * quiz_GUI: a shallow embedding of [不定项选择自测.py]

    The development follows the source file top-down:
    - Python values, strings and exceptions as far as the program uses them;
    - [load_questions], over the value that [json.load] hands back;
    - [random.shuffle], over an explicit sequence of random draws;
    - the [QuizWindow] state and its slots ([reset_quiz], [show_question],
      [switch_question], [save_answer], [try_submit], [submit], ...);
    - theorems about loading, shuffling, navigation and grading. *)

From Stdlib Require Import ZArith NArith List String Ascii Lia.
From Stdlib Require Import Sorting.Sorted Sorting.Permutation.
From stdpp Require Import base option list sets gmap.

Set Warnings "-register-all,-clear-no-such-hyp".

Local Open Scope Z_scope.
Local Open Scope nat_scope.

(** ** Python strings

    A Python [str] is a sequence of Unicode code points; a character is a
    [str] of length one.  Comparison of strings is lexicographic on the code
    points. *)

Abbreviation pychar := N (only parsing).
Abbreviation pystr := (list N) (only parsing).

(** [py "A.x"] is the Python literal ['A.x'] (for ASCII literals). *)
Definition py (s : string) : pystr :=
  List.map N_of_ascii (list_ascii_of_string s).
Arguments py : simpl never.

(** [prefix_of k s]: [s.startswith(k)]. *)
Fixpoint prefix_of (k s : pystr) : bool :=
  match k, s with
  | [], _ => true
  | _ :: _, [] => false
  | a :: k', b :: s' => (a =? b)%N && prefix_of k' s'
  end.

(** [substring_of k s]: [k in s] on two strings. *)
Fixpoint substring_of (k s : pystr) : bool :=
  prefix_of k s ||
  match s with
  | [] => false
  | _ :: s' => substring_of k s'
  end.

(** [str_lt s t]: [s < t] on strings. *)
Fixpoint str_lt (s t : pystr) : bool :=
  match s, t with
  | _, [] => false
  | [], _ :: _ => true
  | a :: s', b :: t' => (a <? b)%N || ((a =? b)%N && str_lt s' t')
  end.

(** ** Exceptions and the error monad

    A function that can raise returns [Ok a] or [Raise e]; a slot that
    raises does not finish, and what it had written so far is not kept. *)

Inductive error_msg :=
| MsgNoQuestionsField                       (* '题库文件格式错误：缺少 questions 字段' *)
| MsgMissingField (n : nat) (field : pystr) (* f'第{i+1}题缺少必要字段：{field}' *)
| MsgBadFormat                              (* f'题库文件格式错误：{str(e)}' *)
| MsgNotInList.                             (* list.index: 'x is not in list' *)

Inductive exn :=
| FileNotFoundError
| OSError
| JSONDecodeError
| ValueError (m : error_msg)
| TypeError
| KeyError
| IndexError
| RuntimeError (cause : exn).               (* f'加载题库失败：{str(e)}' *)

Inductive result (A : Type) :=
| Ok (a : A)
| Raise (e : exn).
Arguments Ok {A} a.
Arguments Raise {A} e.

#[export] Instance result_ret : MRet result := fun _ a => Ok a.
#[export] Instance result_bind : MBind result := fun _ _ f m =>
  match m with
  | Ok a => f a
  | Raise e => Raise e
  end.
#[export] Instance result_fmap : FMap result := fun _ _ f m =>
  match m with
  | Ok a => Ok (f a)
  | Raise e => Raise e
  end.

Definition is_Ok {A} (m : result A) : Prop := ∃ a, m = Ok a.
Definition raises {A} (m : result A) : Prop := ∃ e, m = Raise e.

(** [l[i]] for a non-negative index: [IndexError] out of range. *)
Definition getitem {A} (l : list A) (i : nat) : result A :=
  match l !! i with
  | Some a => Ok a
  | None => Raise IndexError
  end.

(** ** Values produced by [json.load] *)

Inductive pyval :=
| PNone
| PBool (b : bool)
| PInt (n : Z)
| PFloat (repr : pystr)
| PStr (s : pystr)
| PList (l : list pyval)
| PDict (kvs : list (pystr * pyval)).   (* insertion order, keys distinct *)

Definition str_eqb (s t : pystr) : bool := bool_decide (s = t).

(** [key in container], for a string [key]. *)
Definition py_contains (container : pyval) (key : pystr) : result bool :=
  match container with
  | PDict kvs => Ok (existsb (fun kv => str_eqb kv.1 key) kvs)
  | PList l =>
      Ok (existsb (fun e => match e with PStr s => str_eqb s key | _ => false end) l)
  | PStr s => Ok (substring_of key s)
  | _ => Raise TypeError
  end.

Fixpoint assoc (kvs : list (pystr * pyval)) (key : pystr) : option pyval :=
  match kvs with
  | [] => None
  | (k, v) :: kvs' => if str_eqb k key then Some v else assoc kvs' key
  end.

(** [container[key]], for a string [key]. *)
Definition py_getitem (container : pyval) (key : pystr) : result pyval :=
  match container with
  | PDict kvs =>
      match assoc kvs key with
      | Some v => Ok v
      | None => Raise KeyError
      end
  | _ => Raise TypeError
  end.

(** The items a [for] loop (or [enumerate]) visits. *)
Definition py_iter (v : pyval) : result (list pyval) :=
  match v with
  | PList l => Ok l
  | PDict kvs => Ok (List.map (fun kv => PStr kv.1) kvs)
  | PStr s => Ok (List.map (fun c => PStr [c]) s)
  | _ => Raise TypeError
  end.

(** ** [load_questions] *)

(** What the file system and [json.load] give for '题库.json'. *)
Inductive bank_file :=
| Absent                    (* [os.path.exists] is false *)
| Unreadable                (* [open] or the decoding of the bytes fails *)
| Malformed                 (* [json.load] raises [JSONDecodeError] *)
| Parsed (data : pyval).

Definition required_fields : list pystr :=
  [py "id"; py "question"; py "options"; py "answer"].

(** The inner loop [for field in required_fields] for question number [i]. *)
Fixpoint check_fields (i : nat) (q : pyval) (fields : list pystr) : result unit :=
  match fields with
  | [] => Ok tt
  | field :: rest =>
      b ← py_contains q field;
      if negb b then Raise (ValueError (MsgMissingField (i + 1) field))
      else check_fields i q rest
  end.

(** The outer loop [for i, q in enumerate(questions)]. *)
Fixpoint check_questions (i : nat) (qs : list pyval) : result unit :=
  match qs with
  | [] => Ok tt
  | q :: rest =>
      _ ← check_fields i q required_fields;
      check_questions (S i) rest
  end.

(** The body of the [try] block.  The [print] of the number of questions
    only writes to the console. *)
Definition load_questions_try (f : bank_file) : result pyval :=
  match f with
  | Absent => Raise FileNotFoundError
  | Unreadable => Raise OSError
  | Malformed => Raise JSONDecodeError
  | Parsed data =>
      b ← py_contains data (py "questions");
      if negb b then Raise (ValueError MsgNoQuestionsField)
      else
        questions ← py_getitem data (py "questions");
        items ← py_iter questions;
        _ ← check_questions 0 items;
        Ok questions
  end.

(** The two [except] clauses. *)
Definition load_questions (f : bank_file) : result pyval :=
  match load_questions_try f with
  | Ok questions => Ok questions
  | Raise JSONDecodeError => Raise (ValueError MsgBadFormat)
  | Raise e => Raise (RuntimeError e)
  end.

(** ** Questions

    The window reads four keys of every question: [q['id']] (an integer or a
    string), [q['question']] (a string), [q['options']] (a list of strings,
    each with its original label in front, as in ['A.x']) and [q['answer']]
    (the labels [set(q['answer'])] iterates over: a list of strings, or one
    string, whose characters are then the labels).

    [load_questions] checks none of these types, and the window runs on
    whatever the loader returned.  The window is modelled on banks of the
    types above only: [Question] is the typed view of a question and
    [decode_bank l = Some qs] says that the Python list [l] has these types
    and that [qs] is its view.  What the window does on any other list
    (where [len], indexing or [str.join] raise [TypeError]) is outside the
    model, and every statement about the window is a statement about lists
    that decode. *)

Inductive pyid :=
| IdInt (n : Z)
| IdStr (s : pystr).

Record Question := {
  qid : pyid;
  question : pystr;
  options : list pystr;
  answer : list pystr;
}.

Fixpoint decode_strs (l : list pyval) : option (list pystr) :=
  match l with
  | [] => Some []
  | PStr s :: l' => cons s <$> decode_strs l'
  | _ :: _ => None
  end.

(** The typed view of one element of the loaded bank. *)
Definition decode_question (v : pyval) : option Question :=
  match v with
  | PDict kvs =>
      i ← match assoc kvs (py "id") with
          | Some (PInt n) => Some (IdInt n)
          | Some (PStr s) => Some (IdStr s)
          | _ => None
          end;
      t ← match assoc kvs (py "question") with
          | Some (PStr s) => Some s
          | _ => None
          end;
      o ← match assoc kvs (py "options") with
          | Some (PList l) => decode_strs l
          | _ => None
          end;
      a ← match assoc kvs (py "answer") with
          | Some (PList l) => decode_strs l
          | Some (PStr s) => Some (List.map (fun c => [c]) s)
          | _ => None
          end;
      Some {| qid := i; question := t; options := o; answer := a |}
  | _ => None
  end.

Fixpoint decode_bank (l : list pyval) : option (list Question) :=
  match l with
  | [] => Some []
  | v :: l' => q ← decode_question v; cons q <$> decode_bank l'
  end.

(** ** [random.shuffle]

    The generator is a sequence of draws and a cursor into it;
    [randbelow n] reduces the next draw into [range(n)]. *)

Record rng := { draws : nat → nat; cursor : nat }.

Definition randbelow (n : nat) (g : rng) : nat * rng :=
  (draws g (cursor g) mod n, {| draws := draws g; cursor := S (cursor g) |}).

(** [x[i], x[j] = x[j], x[i]] *)
Definition swap {A} (x : list A) (i j : nat) : list A :=
  match x !! i, x !! j with
  | Some a, Some b => <[j := a]> (<[i := b]> x)
  | _, _ => x
  end.

(** [for i in reversed(range(1, k + 1)): j = randbelow(i + 1); swap]:
    the argument [k] is the loop index [i], counting down to 1. *)
Fixpoint shuffle_from {A} (k : nat) (x : list A) (g : rng) : list A * rng :=
  match k with
  | 0 => (x, g)
  | S k' =>
      let '(j, g') := randbelow (k + 1) g in
      shuffle_from k' (swap x k j) g'
  end.

(** [random.shuffle(x)] *)
Definition shuffle {A} (x : list A) (g : rng) : list A * rng :=
  shuffle_from (length x - 1) x g.

(** [for q in self.quiz: indices = list(range(len(q['options']))); shuffle] *)
Fixpoint shuffle_options (qs : list Question) (g : rng) : list (list nat) * rng :=
  match qs with
  | [] => ([], g)
  | q :: qs' =>
      let '(indices, g1) := shuffle (seq 0 (length (options q))) g in
      let '(rest, g2) := shuffle_options qs' g1 in
      (indices :: rest, g2)
  end.

(** ** The window state *)

Record Checkbox := { cb_text : pystr; cb_checked : bool }.

Inductive button_text := NextPage | SubmitText.   (* '下一页' | '提交' *)

(** The fields of [QuizWindow] that the slots read or write.  [start_time]
    is the reading of [time.time()] as the clock gave it; it is stored and
    never computed with here.  [elapsed_seconds] is an integer.  The timer
    label is kept as its three numbers [h], [m], [s] and a navigation item
    as [true] when it is highlighted. *)
Record QuizWindow := {
  bank : list Question;             (* the module-level [questions] *)
  quiz : list Question;
  user_answers : list (gset pystr);
  current_index : nat;
  start_time : Z;
  elapsed_seconds : Z;
  timer_active : bool;
  option_shuffle_map : list (list nat);
  timer_label : Z * Z * Z;
  question_label : pystr;
  checkboxes : list Checkbox;
  option_labels : list pystr;
  next_btn : button_text;
  nav_list : list bool;
}.

Definition abcd : list pystr :=
  [py "A"; py "B"; py "C"; py "D"; py "E"; py "F"; py "G"; py "H"].

(** [s[0]] on a string. *)
Definition str_head (s : pystr) : result pystr :=
  match s with
  | [] => Raise IndexError
  | c :: _ => Ok [c]
  end.

(** [update_nav_status]: one colour per navigation item. *)
Fixpoint nav_colours (answers : list (gset pystr)) (items : list nat) : result (list bool) :=
  match items with
  | [] => Ok []
  | i :: rest =>
      ans ← getitem answers i;
      colours ← nav_colours answers rest;
      Ok (negb (bool_decide (ans = ∅)) :: colours)
  end.

Definition update_nav_status (s : QuizWindow) : result QuizWindow :=
  colours ← nav_colours (user_answers s) (seq 0 (length (nav_list s)));
  Ok {| bank := bank s; quiz := quiz s; user_answers := user_answers s;
        current_index := current_index s; start_time := start_time s;
        elapsed_seconds := elapsed_seconds s; timer_active := timer_active s;
        option_shuffle_map := option_shuffle_map s; timer_label := timer_label s;
        question_label := question_label s; checkboxes := checkboxes s;
        option_labels := option_labels s; next_btn := next_btn s;
        nav_list := colours |}.

(** [update_timer].  [elapsed] is the integer that
    [int(time.time() - self.start_time)] evaluates to: the clock, the
    subtraction of two floating-point readings and its truncation belong to
    the environment, the slot stores their result and splits it with [//]
    and [%], which round toward minus infinity as [/] and [mod] do on [Z]. *)
Definition update_timer (elapsed : Z) (s : QuizWindow) : QuizWindow :=
  let e := elapsed in
  let h := (e / 3600)%Z in
  let m := ((e mod 3600) / 60)%Z in
  let sec := (e mod 60)%Z in
  {| bank := bank s; quiz := quiz s; user_answers := user_answers s;
     current_index := current_index s; start_time := start_time s;
     elapsed_seconds := e; timer_active := timer_active s;
     option_shuffle_map := option_shuffle_map s; timer_label := (h, m, sec);
     question_label := question_label s; checkboxes := checkboxes s;
     option_labels := option_labels s; next_btn := next_btn s;
     nav_list := nav_list s |}.

(** The loop of [show_question] over [enumerate(abcd[:len(q['options'])])],
    started at position [i]: one checkbox and one content label per
    displayed position. *)
Fixpoint option_rows (q : Question) (indices : list nat) (saved : gset pystr)
    (i : nat) (labels : list pystr) : result (list (Checkbox * pystr)) :=
  match labels with
  | [] => Ok []
  | ab :: rest =>
      opt_idx ← getitem indices i;
      opt ← getitem (options q) opt_idx;
      let content := drop 2 opt in
      let cb := {| cb_text := ab ++ py "."; cb_checked := bool_decide (ab ∈ saved) |} in
      rows ← option_rows q indices saved (S i) rest;
      Ok ((cb, content) :: rows)
  end.

Definition show_question (idx : nat) (s : QuizWindow) : result QuizWindow :=
  q ← getitem (quiz s) idx;
  indices ← getitem (option_shuffle_map s) idx;
  saved ← getitem (user_answers s) idx;
  rows ← option_rows q indices saved 0 (take (length (options q)) abcd);
  update_nav_status
    {| bank := bank s; quiz := quiz s; user_answers := user_answers s;
       current_index := idx; start_time := start_time s;
       elapsed_seconds := elapsed_seconds s; timer_active := timer_active s;
       option_shuffle_map := option_shuffle_map s; timer_label := timer_label s;
       question_label := question q; checkboxes := rows.*1;
       option_labels := rows.*2;
       next_btn := if bool_decide (Z.of_nat idx = Z.of_nat (length (quiz s)) - 1)%Z
                   then SubmitText else NextPage;
       nav_list := nav_list s |}.

Definition switch_question (idx : Z) (s : QuizWindow) : result QuizWindow :=
  if (0 <=? idx)%Z then show_question (Z.to_nat idx) s else Ok s.

(** The loop of [save_answer] over [self.checkboxes], with the set
    [selected] built so far. *)
Fixpoint checked_labels (cbs : list Checkbox) (selected : gset pystr) : result (gset pystr) :=
  match cbs with
  | [] => Ok selected
  | cb :: rest =>
      if cb_checked cb then
        c ← str_head (cb_text cb);
        checked_labels rest ({[c]} ∪ selected)
      else checked_labels rest selected
  end.

(** [l[i] = x] for a non-negative index. *)
Definition setitem {A} (l : list A) (i : nat) (x : A) : result (list A) :=
  if bool_decide (i < length l) then Ok (<[i := x]> l) else Raise IndexError.

Definition save_answer (s : QuizWindow) : result QuizWindow :=
  let idx := current_index s in
  selected ← checked_labels (checkboxes s) ∅;
  answers ← setitem (user_answers s) idx
              (if bool_decide (selected = ∅) then ∅ else selected);
  update_nav_status
    {| bank := bank s; quiz := quiz s; user_answers := answers;
       current_index := current_index s; start_time := start_time s;
       elapsed_seconds := elapsed_seconds s; timer_active := timer_active s;
       option_shuffle_map := option_shuffle_map s; timer_label := timer_label s;
       question_label := question_label s; checkboxes := checkboxes s;
       option_labels := option_labels s; next_btn := next_btn s;
       nav_list := nav_list s |}.

(** The user clicks the checkbox (or the label) at displayed position [i]:
    Qt flips the box and [stateChanged] runs [save_answer]. *)
Definition flip (cb : Checkbox) : Checkbox :=
  {| cb_text := cb_text cb; cb_checked := negb (cb_checked cb) |}.

Definition click_option (i : nat) (s : QuizWindow) : result QuizWindow :=
  if bool_decide (i < length (checkboxes s)) then
    save_answer
      {| bank := bank s; quiz := quiz s; user_answers := user_answers s;
         current_index := current_index s; start_time := start_time s;
         elapsed_seconds := elapsed_seconds s; timer_active := timer_active s;
         option_shuffle_map := option_shuffle_map s; timer_label := timer_label s;
         question_label := question_label s;
         checkboxes := alter flip i (checkboxes s);
         option_labels := option_labels s; next_btn := next_btn s;
         nav_list := nav_list s |}
  else Ok s.

(** ** Grading *)

(** One line of the [wrong] list: the tuple
    [(q['id'], q['question'], q['options'], right, user)]. *)
Record entry := {
  e_id : pyid;
  e_question : pystr;
  e_options : list pystr;
  e_right : pystr;
  e_user : pystr;
}.

(** [a == b] and [a < b] on ids: an integer and a string are never equal
    and cannot be ordered. *)
Definition id_eqb (a b : pyid) : bool :=
  match a, b with
  | IdInt n, IdInt m => (n =? m)%Z
  | IdStr s, IdStr t => str_eqb s t
  | _, _ => false
  end.

Definition id_lt (a b : pyid) : result bool :=
  match a, b with
  | IdInt n, IdInt m => Ok (n <? m)%Z
  | IdStr s, IdStr t => Ok (str_lt s t)
  | _, _ => Raise TypeError
  end.

(** [l1 < l2] on lists of strings: the first differing items decide,
    otherwise the shorter list is smaller. *)
Fixpoint strs_lt (l1 l2 : list pystr) : bool :=
  match l1, l2 with
  | _, [] => false
  | [], _ :: _ => true
  | a :: l1', b :: l2' => if str_eqb a b then strs_lt l1' l2' else str_lt a b
  end.

(** [a < b] on the tuples of [wrong]. *)
Definition entry_lt (a b : entry) : result bool :=
  if negb (id_eqb (e_id a) (e_id b)) then id_lt (e_id a) (e_id b)
  else if negb (str_eqb (e_question a) (e_question b))
    then Ok (str_lt (e_question a) (e_question b))
  else if negb (bool_decide (e_options a = e_options b))
    then Ok (strs_lt (e_options a) (e_options b))
  else if negb (str_eqb (e_right a) (e_right b))
    then Ok (str_lt (e_right a) (e_right b))
  else Ok (str_lt (e_user a) (e_user b)).

(** [sorted(l)]: a stable sort that only asks [y < x]; it raises as soon as
    a comparison does. *)
Fixpoint insert_sorted {A} (lt : A → A → result bool) (x : A) (l : list A)
    : result (list A) :=
  match l with
  | [] => Ok [x]
  | y :: l' =>
      b ← lt y x;
      if b : bool then cons y <$> insert_sorted lt x l'
      else Ok (x :: y :: l')
  end.

Fixpoint py_sorted {A} (lt : A → A → result bool) (l : list A) : result (list A) :=
  match l with
  | [] => Ok []
  | x :: l' => r ← py_sorted lt l'; insert_sorted lt x r
  end.

Definition sorted_strs (X : gset pystr) : result (list pystr) :=
  py_sorted (λ a b, Ok (str_lt a b)) (elements X).

(** [l.index(x)] *)
Fixpoint index_of (x : pystr) (l : list pystr) : result nat :=
  match l with
  | [] => Raise (ValueError MsgNotInList)
  | y :: l' => if str_eqb y x then Ok 0 else S <$> index_of x l'
  end.

(** Lines 301-303: the displayed label [ab] back to the index of the
    original option; [None] when the guard [idx_ab < len(indices)] fails. *)
Definition original_index (indices : list nat) (ab : pystr) : result (option nat) :=
  idx_ab ← index_of ab abcd;
  if bool_decide (idx_ab < length indices) then
    orig_idx ← getitem indices idx_ab;
    Ok (Some orig_idx)
  else Ok None.

(** The body of [for ab in self.user_answers[i]]. *)
Definition add_mapped (q : Question) (indices : list nat) (user : gset pystr)
    (ab : pystr) : result (gset pystr) :=
  o ← original_index indices ab;
  match o with
  | Some orig_idx =>
      opt ← getitem (options q) orig_idx;
      c ← str_head opt;
      Ok ({[c]} ∪ user)
  | None => Ok user
  end.

Fixpoint map_answers (q : Question) (indices : list nat) (labels : list pystr)
    (user : gset pystr) : result (gset pystr) :=
  match labels with
  | [] => Ok user
  | ab :: rest =>
      user' ← add_mapped q indices user ab;
      map_answers q indices rest user'
  end.

(** The body of [for i, q in enumerate(self.quiz)]: [None] when the
    question is right, the tuple appended to [wrong] otherwise. *)
Definition grade_question (s : QuizWindow) (i : nat) (q : Question)
    : result (option entry) :=
  let right : gset pystr := list_to_set (answer q) in
  indices ← getitem (option_shuffle_map s) i;
  answers ← getitem (user_answers s) i;
  user ← map_answers q indices (elements answers) ∅;
  if bool_decide (user ≠ right) then
    sr ← sorted_strs right;
    su ← sorted_strs user;
    Ok (Some {| e_id := qid q; e_question := question q; e_options := options q;
                e_right := concat sr; e_user := concat su |})
  else Ok None.

Fixpoint grade_from (s : QuizWindow) (i : nat) (qs : list Question)
    (wrong : list entry) : result (list entry) :=
  match qs with
  | [] => Ok wrong
  | q :: rest =>
      r ← grade_question s i q;
      grade_from s (S i) rest
        (match r with Some e => wrong ++ [e] | None => wrong end)
  end.

(** What the result dialog shows: the timer text, [len(wrong)],
    [len(self.quiz)] and the lines of [sorted(wrong)]. *)
Record report := {
  rep_time : Z * Z * Z;
  rep_wrong : nat;
  rep_total : nat;
  rep_entries : list entry;
}.

Definition set_timer (b : bool) (s : QuizWindow) : QuizWindow :=
  {| bank := bank s; quiz := quiz s; user_answers := user_answers s;
     current_index := current_index s; start_time := start_time s;
     elapsed_seconds := elapsed_seconds s; timer_active := b;
     option_shuffle_map := option_shuffle_map s; timer_label := timer_label s;
     question_label := question_label s; checkboxes := checkboxes s;
     option_labels := option_labels s; next_btn := next_btn s;
     nav_list := nav_list s |}.

Definition submit (s : QuizWindow) : result (QuizWindow * report) :=
  let s' := set_timer false s in
  wrong ← grade_from s' 0 (quiz s') [];
  entries ← py_sorted entry_lt wrong;
  Ok (s', {| rep_time := timer_label s'; rep_wrong := length wrong;
             rep_total := length (quiz s'); rep_entries := entries |}).

(** What the user gets to see besides the main window. *)
Inductive dialog :=
| ConfirmSubmit (unanswered : nat)   (* f'您有{unanswered}题未答，是否提交？' *)
| ResultDialog (r : report).

Definition unanswered (s : QuizWindow) : nat :=
  sum_list ((λ _, 1) <$> filter (λ ans : gset pystr, ans = ∅) (user_answers s)).

(** [try_submit]; [yes] is the button the user would press in the
    confirmation box. *)
Definition try_submit (yes : bool) (s : QuizWindow) : result (QuizWindow * list dialog) :=
  let n := unanswered s in
  if bool_decide (0 < n) then
    if negb yes then Ok (s, [ConfirmSubmit n])
    else '(s', r) ← submit s; Ok (s', [ConfirmSubmit n; ResultDialog r])
  else '(s', r) ← submit s; Ok (s', [ResultDialog r]).

Definition next_or_submit (yes : bool) (s : QuizWindow) : result (QuizWindow * list dialog) :=
  if (Z.of_nat (current_index s) <? Z.of_nat (length (quiz s)) - 1)%Z then
    s' ← switch_question (Z.of_nat (current_index s) + 1) s; Ok (s', [])
  else try_submit yes s.

(** ** Session start and retry *)

Definition reset_quiz (now : Z) (g : rng) (s : QuizWindow) : result (QuizWindow * rng) :=
  let '(qz, g1) := shuffle (quiz s) g in
  let '(maps, g2) := shuffle_options qz g1 in
  s1 ← show_question 0
         {| bank := bank s; quiz := qz;
            user_answers := replicate (length qz) ∅;
            current_index := 0; start_time := now; elapsed_seconds := 0;
            timer_active := false; option_shuffle_map := maps;
            timer_label := (0, 0, 0)%Z; question_label := [];
            checkboxes := []; option_labels := []; next_btn := NextPage;
            nav_list := replicate (length qz) false |};
  s2 ← update_nav_status s1;
  Ok (set_timer true s2, g2).

(** [QuizWindow(questions)] *)
Definition new_window (questions : list Question) (now : Z) (g : rng)
    : result (QuizWindow * rng) :=
  reset_quiz now g
    {| bank := questions; quiz := questions; user_answers := [];
       current_index := 0; start_time := 0; elapsed_seconds := 0;
       timer_active := false; option_shuffle_map := [];
       timer_label := (0, 0, 0)%Z; question_label := []; checkboxes := [];
       option_labels := []; next_btn := NextPage; nav_list := [] |}.

(** The retry button: [self.quiz.__init__(questions)], then [reset_quiz]. *)
Definition retry (now : Z) (g : rng) (s : QuizWindow) : result (QuizWindow * rng) :=
  reset_quiz now g
    {| bank := bank s; quiz := bank s; user_answers := user_answers s;
       current_index := current_index s; start_time := start_time s;
       elapsed_seconds := elapsed_seconds s; timer_active := timer_active s;
       option_shuffle_map := option_shuffle_map s; timer_label := timer_label s;
       question_label := question_label s; checkboxes := checkboxes s;
       option_labels := option_labels s; next_btn := next_btn s;
       nav_list := nav_list s |}.

(** ** The events of a session *)

Inductive event :=
| RowChanged (idx : Z)        (* [nav_list.currentRowChanged] *)
| Clicked (i : nat)           (* a checkbox changes state *)
| Timeout (elapsed : Z)       (* [timer.timeout]; the value of
                                 [int(time.time() - self.start_time)] *)
| NextClicked (yes : bool)    (* [next_btn.clicked] *)
| SubmitClicked (yes : bool). (* [submit_btn_top.clicked] *)

Definition step (ev : event) (s : QuizWindow) : result (QuizWindow * list dialog) :=
  match ev with
  | RowChanged idx => s' ← switch_question idx s; Ok (s', [])
  | Clicked i => s' ← click_option i s; Ok (s', [])
  | Timeout elapsed =>
      Ok (if timer_active s then update_timer elapsed s else s, [])
  | NextClicked yes => next_or_submit yes s
  | SubmitClicked yes => try_submit yes s
  end.

Fixpoint run (evs : list event) (s : QuizWindow) : result (QuizWindow * list dialog) :=
  match evs with
  | [] => Ok (s, [])
  | ev :: rest =>
      '(s1, d1) ← step ev s;
      '(s2, d2) ← run rest s1;
      Ok (s2, d1 ++ d2)
  end.

(** * Specification-side definitions and sample data *)

(** ** The loader's contract *)

Definition has_key (v : pyval) (key : pystr) : bool :=
  match v with
  | PDict kvs => bool_decide (is_Some (assoc kvs key))
  | _ => false
  end.

Definition is_object (v : pyval) : bool :=
  match v with PDict _ => true | _ => false end.

(** The questions of a bank: the items of the list under 'questions'. *)
Definition questions_of (data : pyval) : list pyval :=
  match data with
  | PDict kvs =>
      match assoc kvs (py "questions") with
      | Some (PList l) => l
      | _ => []
      end
  | _ => []
  end.

Definition lacks_field (q : pyval) : bool :=
  existsb (λ field, negb (has_key q field)) required_fields.

(** The four failure causes the loader's contract names. *)
Definition spec_load_fails (f : bank_file) : Prop :=
  match f with
  | Absent => True
  | Malformed => True
  | Unreadable => False
  | Parsed data =>
      has_key data (py "questions") = false ∨
      existsb lacks_field (questions_of data) = true
  end.

(** A readable file in which 'questions', when present, is bound to a list
    of objects. *)
Definition bank_shaped (f : bank_file) : bool :=
  match f with
  | Unreadable => false
  | Parsed (PDict kvs) =>
      match assoc kvs (py "questions") with
      | Some (PList l) => forallb is_object l
      | Some _ => false
      | None => true
      end
  | _ => true
  end.


Definition fields_of (i : Z) (text : string) (opts answers : list string)
    : list (pystr * pyval) :=
  [(py "id", PInt i); (py "question", PStr (py text));
   (py "options", PList (PStr ∘ py <$> opts));
   (py "answer", PList (PStr ∘ py <$> answers))].

Definition obj (i : Z) (text : string) (opts answers : list string) : pyval :=
  PDict (fields_of i text opts answers).

Local Open Scope string_scope.

Definition file_of (qs : list pyval) : bank_file :=
  Parsed (PDict [(py "questions", PList qs)]).

(** Sample files: the two-question bank of the end-to-end scenario, a bank
    whose 'questions' is a number, and banks with an empty answer list and
    with an answer label that no option has. *)
Definition bank_two : bank_file :=
  file_of [obj 1 "Q1" ["A.x"; "B.y"] ["A"];
           obj 2 "Q2" ["A.p"; "B.q"; "C.r"] ["B"; "C"]].

Definition bank_number : bank_file :=
  Parsed (PDict [(py "questions", PInt 5)]).



Definition fields_no_answer : list (pystr * pyval) :=
  fields_of 1 "Q1" ["A.x"; "B.y"] [].

Local Close Scope string_scope.

(** ** Well-formed sessions *)

(** [indices] is a bijection on [range(len(q['options']))]. *)
Definition covers (q : Question) (indices : list nat) : Prop :=
  indices ≡ₚ seq 0 (length (options q)).

(** The labels [show_question] puts on the checkboxes of [q]. *)
Definition displayed (q : Question) : list pystr :=
  take (length (options q)) abcd.

(** A session whose permutations cover the questions' option lists. *)
Definition perms_cover (s : QuizWindow) : Prop :=
  length (user_answers s) = length (quiz s) ∧
  Forall2 covers (quiz s) (option_shuffle_map s).

(** What holds of the window between two events: besides [perms_cover],
    there is one navigation item per question, the checkboxes are those of
    the current question, and the stored answers are labels of displayed
    checkboxes. *)
Definition session_ok (s : QuizWindow) : Prop :=
  perms_cover s ∧
  length (nav_list s) = length (quiz s) ∧
  match quiz s !! current_index s with
  | Some q => cb_text <$> checkboxes s = (λ ab, ab ++ py ".") <$> displayed q
  | None => False
  end ∧
  Forall2 (λ q (ans : gset pystr), ans ⊆ list_to_set (displayed q))
    (quiz s) (user_answers s).

#[export] Instance covers_dec q indices : Decision (covers q indices).
Proof. unfold covers. apply _. Defined.

#[export] Instance perms_cover_dec s : Decision (perms_cover s).
Proof. unfold perms_cover. apply _. Defined.

#[export] Instance session_ok_dec s : Decision (session_ok s).
Proof.
  unfold session_ok. destruct (quiz s !! current_index s); apply _.
Defined.

(** The stored answers are among the labels A to H. *)
Definition answers_known (s : QuizWindow) : Prop :=
  Forall (λ ans : gset pystr, ans ⊆ list_to_set abcd) (user_answers s).

#[export] Instance answers_known_dec s : Decision (answers_known s).
Proof. unfold answers_known. apply _. Defined.

(** Every option string starts with its label, and the ids are all
    integers or all strings. *)
Definition options_labelled (qs : list Question) : Prop :=
  Forall (λ q, Forall (λ opt, opt ≠ []) (options q)) qs.

Definition is_int (i : pyid) : bool :=
  match i with IdInt _ => true | IdStr _ => false end.

Definition ids_comparable (qs : list Question) : Prop :=
  Forall (λ q, is_int (qid q) = true) qs ∨ Forall (λ q, is_int (qid q) = false) qs.

#[export] Instance options_labelled_dec qs : Decision (options_labelled qs).
Proof. unfold options_labelled. apply _. Defined.

#[export] Instance ids_comparable_dec qs : Decision (ids_comparable qs).
Proof. unfold ids_comparable. apply _. Defined.

(** The parts of the window that stay as they are for a whole session. *)
Definition same_model (s s' : QuizWindow) : Prop :=
  bank s' = bank s ∧ quiz s' = quiz s ∧
  option_shuffle_map s' = option_shuffle_map s.

(** The checkbox [show_question] builds for the label [ab]. *)
Definition box (saved : gset pystr) (ab : pystr) : Checkbox :=
  {| cb_text := ab ++ py "."; cb_checked := bool_decide (ab ∈ saved) |}.

(** A checkbox whose text is one of the eight labels and a dot. *)
Definition labelled (cb : Checkbox) : Prop :=
  ∃ ab, ab ∈ abcd ∧ cb_text cb = ab ++ py ".".

(** ** Grading, in the words of the specification *)

(** The displayed position of a label: A is 0, B is 1, ... *)
Definition position_of (ab : pystr) : option nat :=
  fst <$> list_find (λ x, x = ab) abcd.

(** The original label that the displayed label [ab] stands for: the
    label in front of the option at [indices[position]]. *)
Definition original_label (q : Question) (indices : list nat) (ab : pystr)
    : option pystr :=
  pos ← position_of ab;
  o ← indices !! pos;
  opt ← options q !! o;
  c ← head opt;
  Some [c].

(** The user's selections mapped through the permutation, as a set. *)
Definition mapped_labels (q : Question) (indices : list nat)
    (answers : gset pystr) : gset pystr :=
  set_omap (original_label q indices) answers.

(** Ascending order of ids. *)
Definition id_le (a b : pyid) : Prop :=
  match a, b with
  | IdInt n, IdInt m => (n ≤ m)%Z
  | IdStr s, IdStr t => str_lt t s = false
  | _, _ => False
  end.

(** [l] lists the labels of the set [X] in ascending order. *)
Definition sorted_labels (l : list pystr) (X : gset pystr) : Prop :=
  StronglySorted (λ a b, str_lt a b = true) l ∧ ∀ x, x ∈ l ↔ x ∈ X.

(** Report lines in ascending order of question id. *)
Definition by_id (a b : entry) : Prop := id_le (e_id a) (e_id b).

(** [rs] holds, question by question in session order, what the grading
    loop appends to [wrong]. *)
Definition graded (s : QuizWindow) (rs : list (option entry)) : Prop :=
  length rs = length (quiz s) ∧
  ∀ i q, quiz s !! i = Some q →
    ∃ r, rs !! i = Some r ∧ grade_question s i q = Ok r.

(** ** Sample sessions *)

Definition rng0 : rng := {| draws := λ k, k * 7 + 3; cursor := 0 |}.

Definition q_one : Question :=
  {| qid := IdInt 1; question := py "Q1";
     options := [py "A.x"; py "B.y"]; answer := [py "A"] |}.

Definition q_two : Question :=
  {| qid := IdInt 2; question := py "Q2";
     options := [py "A.p"; py "B.q"; py "C.r"]; answer := [py "B"; py "C"] |}.

Definition empty_window : QuizWindow :=
  {| bank := []; quiz := []; user_answers := []; current_index := 0;
     start_time := 0; elapsed_seconds := 0; timer_active := false;
     option_shuffle_map := []; timer_label := (0, 0, 0)%Z;
     question_label := []; checkboxes := []; option_labels := [];
     next_btn := NextPage; nav_list := [] |}.

Definition window_of (r : result (QuizWindow * rng)) : QuizWindow :=
  match r with Ok (s, _) => s | Raise _ => empty_window end.

Definition after (evs : list event) (s : QuizWindow) : QuizWindow :=
  match run evs s with Ok (s', _) => s' | Raise _ => empty_window end.

(** The two-question bank, question 2 first: with these draws the boxes
    A, B, C of question 2 show its original options A, C, B and the boxes
    A, B of question 1 show its original options B, A. *)
Definition before_two : QuizWindow :=
  {| bank := [q_one; q_two]; quiz := [q_two; q_one]; user_answers := [];
     current_index := 0; start_time := 0; elapsed_seconds := 0;
     timer_active := false; option_shuffle_map := [];
     timer_label := (0, 0, 0)%Z; question_label := []; checkboxes := [];
     option_labels := []; next_btn := NextPage; nav_list := [] |}.

Definition session_two : QuizWindow := window_of (reset_quiz 0 rng0 before_two).

Definition rng4 : rng := {| draws := draws rng0; cursor := 4 |}.

(** Question 2 answered with the displayed B and C (the original C and B),
    question 1 left open. *)
Definition session_half : QuizWindow :=
  after [Clicked 1; Clicked 2] session_two.

(** Both questions answered wrongly: displayed A (original A) for
    question 2, displayed A (original B) for question 1. *)
Definition session_wrong : QuizWindow :=
  after [Clicked 0; RowChanged 1; Clicked 0] session_two.

(** A question whose only option is the empty string, its box ticked. *)
Definition q_blank : Question :=
  {| qid := IdInt 1; question := py "Q"; options := [[]]; answer := [py "A"] |}.

Definition session_blank : QuizWindow :=
  {| bank := [q_blank]; quiz := [q_blank]; user_answers := [{[py "A"]}];
     current_index := 0; start_time := 0; elapsed_seconds := 0;
     timer_active := true; option_shuffle_map := [[0]];
     timer_label := (0, 0, 0)%Z; question_label := py "Q";
     checkboxes := [{| cb_text := py "A."; cb_checked := true |}];
     option_labels := [[]]; next_btn := SubmitText; nav_list := [true] |}.

(** Nine options, shown in the order 8, 0, 1, ..., 7. *)
Definition q_nine : Question :=
  {| qid := IdInt 9; question := py "Q9";
     options := [py "A.a"; py "B.b"; py "C.c"; py "D.d"; py "E.e"; py "F.f";
                 py "G.g"; py "H.h"; py "I.i"];
     answer := [py "I"] |}.

Definition session_nine : QuizWindow :=
  {| bank := [q_nine]; quiz := [q_nine]; user_answers := [∅];
     current_index := 0; start_time := 0; elapsed_seconds := 0;
     timer_active := true; option_shuffle_map := [[8; 0; 1; 2; 3; 4; 5; 6; 7]];
     timer_label := (0, 0, 0)%Z; question_label := py "Q9";
     checkboxes := box ∅ <$> abcd;
     option_labels := [py "i"; py "a"; py "b"; py "c"; py "d"; py "e";
                       py "f"; py "g"];
     next_btn := SubmitText; nav_list := [false] |}.

(** An event the widgets can deliver: the navigation list has no row
    beyond its last. *)
Definition in_range (s : QuizWindow) (ev : event) : Prop :=
  match ev with
  | RowChanged idx => (idx < Z.of_nat (length (quiz s)))%Z
  | _ => True
  end.

(** More sample data: the bank behind [session_blank], a session with an
    integer and a string id, and one with a stored label that is no
    checkbox label. *)
Definition bank_blank : bank_file :=
  file_of [obj 1 "Q" [""%string] ["A"%string]].

Definition q_str : Question :=
  {| qid := IdStr (py "2"); question := py "Q2";
     options := [py "A.p"; py "B.q"]; answer := [py "B"] |}.

Definition session_mixed : QuizWindow :=
  window_of (new_window [q_one; q_str] 0 rng0).

Definition session_stray : QuizWindow :=
  {| bank := [q_one]; quiz := [q_one]; user_answers := [{[py "Z"]}];
     current_index := 0; start_time := 0; elapsed_seconds := 0;
     timer_active := true; option_shuffle_map := [[1; 0]];
     timer_label := (0, 0, 0)%Z; question_label := py "Q1";
     checkboxes := box ∅ <$> take 2 abcd;
     option_labels := [py "y"; py "x"]; next_btn := SubmitText;
     nav_list := [true] |}.

(** ** Further predicates on sessions *)

(** Ticking or unticking the box of [ab]. *)
Definition toggle (ab : pystr) (saved : gset pystr) : gset pystr :=
  if bool_decide (ab ∈ saved) then saved ∖ {[ab]} else {[ab]} ∪ saved.

(** The checkboxes are those of the current question, ticked for the
    stored answer. *)
Definition boxes_synced (s : QuizWindow) : Prop :=
  match quiz s !! current_index s, user_answers s !! current_index s with
  | Some q, Some saved => checkboxes s = box saved <$> displayed q
  | _, _ => False
  end.

(** A navigation item is highlighted when its question has an answer. *)
Definition nav_synced (s : QuizWindow) : Prop :=
  nav_list s = (λ ans : gset pystr, negb (bool_decide (ans = ∅))) <$> user_answers s.

(** The lower button reads '提交' on the last question, '下一页' before. *)
Definition button_synced (s : QuizWindow) : Prop :=
  next_btn s = if bool_decide (S (current_index s) = length (quiz s))
               then SubmitText else NextPage.

Definition widgets_synced (s : QuizWindow) : Prop :=
  session_ok s ∧ boxes_synced s ∧ nav_synced s ∧ button_synced s.

#[export] Instance button_text_eq_dec : EqDecision button_text.
Proof. solve_decision. Defined.

#[export] Instance Checkbox_eq_dec : EqDecision Checkbox.
Proof. solve_decision. Defined.

#[export] Instance boxes_synced_dec s : Decision (boxes_synced s).
Proof.
  unfold boxes_synced.
  destruct (quiz s !! current_index s), (user_answers s !! current_index s);
    apply _.
Defined.

#[export] Instance nav_synced_dec s : Decision (nav_synced s).
Proof. unfold nav_synced. apply _. Defined.

#[export] Instance button_synced_dec s : Decision (button_synced s).
Proof. unfold button_synced. apply _. Defined.

#[export] Instance widgets_synced_dec s : Decision (widgets_synced s).
Proof. unfold widgets_synced. apply _. Defined.

(** The report lines hold an integer id and a string id. *)
Definition mixed_ids (l : list entry) : Prop :=
  ∃ a b, a ∈ l ∧ b ∈ l ∧ is_int (e_id a) = true ∧ is_int (e_id b) = false.

(** The field test [field not in q] finds nothing missing in [q]. *)
Definition passes (q : pyval) : Prop :=
  ∀ field, field ∈ required_fields → py_contains q field = Ok true.

(** The first of the four field names that the object [q] lacks. *)
Definition first_missing (q : pyval) : option pystr :=
  List.find (λ field, negb (has_key q field)) required_fields.

(** The option at index [o] carries the label [x] in front. *)
Definition carries (q : Question) (o : nat) (x : pystr) : Prop :=
  ∃ c rest, options q !! o = Some (c :: rest) ∧ x = [c].

(** The boxes to tick for a right answer: those whose option carries one of
    the answer labels. *)
Definition right_boxes (q : Question) (indices : list nat) : gset pystr :=
  list_to_set
    (omap (λ ab, x ← original_label q indices ab;
                 if bool_decide (x ∈ answer q) then Some ab else None)
       (displayed q)).

(** The JSON object of a question: the list [encode_question <$> qs]
    decodes to [qs]. *)
Definition encode_id (i : pyid) : pyval :=
  match i with IdInt n => PInt n | IdStr s => PStr s end.

Definition encode_question (q : Question) : pyval :=
  PDict [(py "id", encode_id (qid q)); (py "question", PStr (question q));
         (py "options", PList (PStr <$> options q));
         (py "answer", PList (PStr <$> answer q))].

(** A bank whose one question has the number 1 as its answer label: the
    loader accepts it, and it is no bank of the documented types. *)
Definition question_int_answer : pyval :=
  PDict [(py "id", PInt 1); (py "question", PStr (py "Q1"));
         (py "options", PList [PStr (py "A.x"); PStr (py "B.y")]);
         (py "answer", PList [PInt 1])].

Definition bank_int_answer : bank_file := file_of [question_int_answer].

(** More sample data: nine options in file order (the ninth hidden), and
    questions that are no objects. *)
Definition q_hidden : Question :=
  {| qid := IdInt 9; question := py "Q9";
     options := [py "A.a"; py "B.b"; py "C.c"; py "D.d"; py "E.e"; py "F.f";
                 py "G.g"; py "H.h"; py "I.i"];
     answer := [py "I"] |}.

Definition session_hidden : QuizWindow :=
  {| bank := [q_hidden]; quiz := [q_hidden]; user_answers := [∅];
     current_index := 0; start_time := 0; elapsed_seconds := 0;
     timer_active := true; option_shuffle_map := [[0; 1; 2; 3; 4; 5; 6; 7; 8]];
     timer_label := (0, 0, 0)%Z; question_label := py "Q9";
     checkboxes := box ∅ <$> abcd;
     option_labels := [py "a"; py "b"; py "c"; py "d"; py "e"; py "f";
                       py "g"; py "h"];
     next_btn := SubmitText; nav_list := [false] |}.

Definition question_as_text : pyval := PStr (py "id question options answer").

Definition question_as_list : pyval :=
  PList [PStr (py "id"); PStr (py "question"); PStr (py "options");
         PStr (py "answer")].

Definition bank_no_options : bank_file :=
  Parsed (PDict [(py "questions",
    PList [PDict fields_no_answer;
           PDict [(py "id", PInt 2); (py "answer", PList [])]])]).

(** Two questions graded wrong, one with an integer id and one with a
    string id. *)
Definition wrong_kinds (s : QuizWindow) : Prop :=
  ∃ i j qi qj ei ej,
    quiz s !! i = Some qi ∧ quiz s !! j = Some qj ∧
    grade_question s i qi = Ok (Some ei) ∧
    grade_question s j qj = Ok (Some ej) ∧
    is_int (qid qi) = true ∧ is_int (qid qj) = false.

(** A question with no answer label at all, its one box ticked or not. *)
Definition q_open : Question :=
  {| qid := IdInt 1; question := py "Q1";
     options := [py "A.x"; py "B.y"]; answer := [] |}.

Definition session_open : QuizWindow :=
  window_of (new_window [q_open] 0 rng0).

(** * Properties *)

(** ** The error monad *)

Lemma bind_Ok {A B} (m : result A) (k : A → result B) (b : B) :
  m ≫= k = Ok b ↔ ∃ a, m = Ok a ∧ k a = Ok b.
Proof.
  destruct m as [a|e]; simpl.
  - split; [eauto | intros (a' & [= <-] & H); exact H].
  - split; [discriminate | intros (a' & [=] & _)].
Qed.

Lemma bind_Ok_l {A B} (a : A) (k : A → result B) : Ok a ≫= k = k a.
Proof. reflexivity. Qed.

Lemma bind_Raise_l {A B} (e : exn) (k : A → result B) : Raise e ≫= k = Raise e.
Proof. reflexivity. Qed.

Lemma fmap_Ok {A B} (f : A → B) (m : result A) (b : B) :
  f <$> m = Ok b ↔ ∃ a, m = Ok a ∧ b = f a.
Proof.
  destruct m as [a|e]; simpl.
  - split; [intros [= <-]; eauto | intros (a' & [= <-] & ->); reflexivity].
  - split; [discriminate | intros (a' & [=] & _)].
Qed.

Lemma getitem_Ok {A} (l : list A) (i : nat) (a : A) :
  getitem l i = Ok a ↔ l !! i = Some a.
Proof.
  unfold getitem. destruct (l !! i); split; congruence.
Qed.

Lemma getitem_lt {A} (l : list A) (i : nat) :
  i < length l → ∃ a, getitem l i = Ok a ∧ l !! i = Some a.
Proof.
  intros H. destruct (lookup_lt_is_Some_2 l i H) as [a Ha].
  exists a. split; [by apply getitem_Ok | done].
Qed.


(** Invert the successful run of a sequence of binds. *)
Ltac inv_result :=
  repeat match goal with
  | H : _ ≫= _ = Ok _ |- _ => apply bind_Ok in H; destruct H as (? & ? & H)
  | H : _ <$> _ = Ok _ |- _ => apply fmap_Ok in H; destruct H as (? & ? & ->)
  | H : Ok _ = Ok _ |- _ => injection H as H; try subst
  | H : Raise _ = Ok _ |- _ => discriminate H
  | H : getitem _ _ = Ok _ |- _ => apply getitem_Ok in H
  end.

(** Settle a decidable proposition about sample data by evaluation. *)
Ltac by_computation := apply (bool_decide_unpack _); vm_compute; exact I.

(** ** [load_questions] *)

Lemma contains_dict kvs key :
  py_contains (PDict kvs) key = Ok (has_key (PDict kvs) key).
Proof.
  simpl. f_equal. induction kvs as [|[k v] kvs IH]; simpl; [done|].
  destruct (str_eqb k key); simpl; [done|]. rewrite IH.
  destruct (assoc kvs key); done.
Qed.


Lemma check_fields_Ok i kvs fields :
  check_fields i (PDict kvs) fields = Ok tt ↔
  forallb (has_key (PDict kvs)) fields = true.
Proof.
  induction fields as [|f fields IH]; [done|].
  cbn [check_fields forallb]. rewrite contains_dict.
  destruct (has_key (PDict kvs) f); cbn; [exact IH | split; discriminate].
Qed.

Lemma lacks_field_forallb q :
  lacks_field q = negb (forallb (has_key q) required_fields).
Proof.
  unfold lacks_field. induction required_fields as [|f l IH]; [done|].
  cbn. rewrite IH. by destruct (has_key q f).
Qed.

Lemma check_questions_Ok i qs :
  forallb is_object qs = true →
  check_questions i qs = Ok tt ↔ existsb lacks_field qs = false.
Proof.
  revert i. induction qs as [|q qs IH]; intros i Hobj; [done|].
  cbn in Hobj. apply andb_prop in Hobj as [Hq Hqs].
  destruct q as [| | | | | |kvs]; try discriminate Hq.
  cbn [check_questions existsb]. rewrite lacks_field_forallb.
  destruct (forallb (has_key (PDict kvs)) required_fields) eqn:E.
  - apply check_fields_Ok with (i := i) in E. rewrite E.
    rewrite bind_Ok_l. cbn [negb orb]. by apply IH.
  - cbn [negb orb]. split; [|discriminate].
    intros H. apply bind_Ok in H as ([] & H & _).
    apply check_fields_Ok in H. congruence.
Qed.


Lemma load_questions_Ok f qs :
  load_questions f = Ok qs ↔ load_questions_try f = Ok qs.
Proof.
  unfold load_questions. destruct (load_questions_try f) as [a|e]; [done|].
  split; [|discriminate]. by destruct e.
Qed.

Lemma load_questions_raises f :
  raises (load_questions f) ↔ raises (load_questions_try f).
Proof.
  unfold load_questions, raises.
  destruct (load_questions_try f) as [a|e].
  - split; intros [? [=]].
  - split; intros _; [eauto|]. destruct e; eauto.
Qed.

(** On success the value under 'questions' comes back as it is. *)
Lemma load_questions_stored f qs :
  load_questions f = Ok qs →
  ∃ kvs, f = Parsed (PDict kvs) ∧ assoc kvs (py "questions") = Some qs.
Proof.
  rewrite load_questions_Ok. destruct f as [| | |data]; try discriminate.
  cbn [load_questions_try]. intros H.
  apply bind_Ok in H as (b & Hb & H). destruct b; [|discriminate].
  cbn [negb] in H.
  apply bind_Ok in H as (v & Hv & H).
  apply bind_Ok in H as (items & _ & H).
  apply bind_Ok in H as (u & _ & [= ->]).
  destruct data; try discriminate. exists kvs. split; [done|].
  cbn in Hv. destruct (assoc kvs (py "questions")); congruence.
Qed.



(** C4 as stated fails: a well-formed JSON file that has the key
    'questions' and no question without its fields is still refused when
    'questions' is bound to a number. *)
Lemma load_questions_refuses_number :
  load_questions bank_number = Raise (RuntimeError TypeError) ∧
  ¬ spec_load_fails bank_number.
Proof.
  split; [reflexivity|]. intros [H|H]; vm_compute in H; discriminate.
Qed.

(** C4 (amended): for a readable bank file in which 'questions', when
    present, is bound to a list of objects, [load_questions] raises exactly
    when the file is missing, is not well-formed JSON, has no top-level
    'questions' key, or has a question without one of 'id', 'question',
    'options', 'answer'; when it succeeds it returns the list under
    'questions' as stored, in file order. *)
Theorem load_questions_contract f :
  bank_shaped f = true →
  (raises (load_questions f) ↔ spec_load_fails f) ∧
  (∀ qs, load_questions f = Ok qs →
     ∃ data, f = Parsed data ∧ qs = PList (questions_of data)).
Proof.
  intros Hshape. split.
  - rewrite load_questions_raises.
    destruct f as [| | |data]; try discriminate Hshape.
    + split; [done | intros _; by eexists].
    + split; [done | intros _; by eexists].
    + cbn [load_questions_try spec_load_fails].
      destruct data as [| | | |s|l|kvs];
        try (split; [by left | intros _; by eexists]).
      * split; [by left|]. intros _. cbn [py_contains].
        rewrite bind_Ok_l. destruct (negb _); by eexists.
      * split; [by left|]. intros _. cbn [py_contains].
        rewrite bind_Ok_l. destruct (negb _); by eexists.
      * rewrite contains_dict. rewrite bind_Ok_l.
        cbn [bank_shaped questions_of has_key py_getitem] in *.
        destruct (assoc kvs (py "questions")) as [v|] eqn:E.
        -- rewrite bool_decide_eq_true_2 by eauto. cbn [negb].
           destruct v as [| | | | |l|]; try discriminate Hshape.
           rewrite bind_Ok_l. cbn [py_iter]. rewrite bind_Ok_l.
           pose proof (check_questions_Ok 0 l Hshape) as Hc.
           destruct (check_questions 0 l) as [[]|e] eqn:Ec.
           ++ rewrite bind_Ok_l. split.
              ** intros [e [=]].
              ** intros [[=]|H]. apply proj1 in Hc.
                 rewrite Hc in H by done. discriminate.
           ++ rewrite bind_Raise_l. split; [|intros _; by eexists].
              intros _. right.
              destruct (existsb lacks_field l); [done|].
              apply proj2 in Hc. discriminate Hc. done.
        -- rewrite bool_decide_eq_false_2 by (by intros [? [=]]). cbn [negb].
           split; [by left | intros _; by eexists].
  - intros qs H. apply load_questions_stored in H as (kvs & -> & Hq).
    eexists; split; [done|].
    cbn [bank_shaped questions_of] in *. rewrite Hq in *.
    by destruct qs.
Qed.

Lemma load_questions_contract_witness :
  (raises (load_questions bank_two) ↔ spec_load_fails bank_two) ∧
  (∀ qs, load_questions bank_two = Ok qs →
     ∃ data, bank_two = Parsed data ∧ qs = PList (questions_of data)).
Proof. apply (load_questions_contract bank_two). reflexivity. Defined.




(** ** [random.shuffle] permutes *)

Lemma insert_swap_perm {A} (l : list A) (i : nat) (a b : A) :
  l !! i = Some a → a :: <[i := b]> l ≡ₚ b :: l.
Proof.
  revert i. induction l as [|x l IH]; intros [|i] Hi; try discriminate.
  - injection Hi as ->. apply perm_swap.
  - cbn in Hi. cbn [insert list_insert].
    change (a :: x :: <[i := b]> l ≡ₚ b :: x :: l).
    rewrite (perm_swap x a), (perm_swap x b). by rewrite (IH i Hi).
Qed.

Lemma swap_perm {A} (x : list A) (i j : nat) : swap x i j ≡ₚ x.
Proof.
  unfold swap. destruct (x !! i) as [a|] eqn:Hi; [|done].
  destruct (x !! j) as [b|] eqn:Hj; [|done].
  assert (Hj' : <[i := b]> x !! j = Some b).
  { destruct (decide (i = j)) as [->|Hne].
    - apply list_lookup_insert_eq. by eapply lookup_lt_Some.
    - by rewrite list_lookup_insert_ne. }
  apply (Permutation_cons_inv (a := b)).
  rewrite (insert_swap_perm _ j b a Hj').
  by rewrite (insert_swap_perm x i a b Hi).
Qed.

Lemma shuffle_from_perm {A} (k : nat) (x : list A) (g : rng) :
  (shuffle_from k x g).1 ≡ₚ x.
Proof.
  revert x g. induction k as [|k IH]; intros x g; [done|].
  cbn [shuffle_from]. destruct (randbelow (S k + 1) g) as [j g'].
  rewrite IH. apply swap_perm.
Qed.

Lemma shuffle_perm {A} (x : list A) (g : rng) : (shuffle x g).1 ≡ₚ x.
Proof. apply shuffle_from_perm. Qed.

Lemma shuffle_options_covers qs g : Forall2 covers qs (shuffle_options qs g).1.
Proof.
  revert g. induction qs as [|q qs IH]; intros g; cbn [shuffle_options].
  - constructor.
  - pose proof (shuffle_perm (seq 0 (length (options q))) g) as Hp.
    destruct (shuffle (seq 0 (length (options q))) g) as [indices g1].
    specialize (IH g1). destruct (shuffle_options qs g1) as [rest g2].
    by constructor.
Qed.

(** What a bijection on the range gives: as many entries as options, no
    index twice, and exactly the indices below the option count. *)
Lemma covers_bijection q indices :
  covers q indices →
  length indices = length (options q) ∧
  NoDup indices ∧
  ∀ j, j ∈ indices ↔ j < length (options q).
Proof.
  unfold covers. intros Hp. split; [|split].
  - rewrite Hp. apply length_seq.
  - rewrite Hp. apply NoDup_seq.
  - intros j. rewrite Hp, elem_of_seq. lia.
Qed.

(** ** The order on strings *)

Lemma str_lt_irrefl s : str_lt s s = false.
Proof.
  induction s as [|a s IH]; [done|]. cbn.
  rewrite N.ltb_irrefl, N.eqb_refl. exact IH.
Qed.

Lemma str_lt_asym s t : str_lt s t = true → str_lt t s = false.
Proof.
  revert t. induction s as [|a s IH]; intros [|b t]; cbn; try done.
  intros H. apply orb_true_iff in H as [H|H].
  - apply N.ltb_lt in H.
    rewrite (proj2 (N.ltb_ge b a)) by lia.
    rewrite (proj2 (N.eqb_neq b a)) by lia. done.
  - apply andb_true_iff in H as [Hab H]. apply N.eqb_eq in Hab as ->.
    rewrite N.ltb_irrefl, N.eqb_refl. cbn. by apply IH.
Qed.

Lemma str_lt_total s t : str_lt s t = false → str_lt t s = false → s = t.
Proof.
  revert t. induction s as [|a s IH]; intros [|b t]; cbn; try done.
  intros H1 H2.
  apply orb_false_iff in H1 as [H1 H1'], H2 as [H2 H2'].
  apply N.ltb_ge in H1, H2. assert (a = b) as -> by lia.
  rewrite N.eqb_refl in H1', H2'. cbn in H1', H2'. f_equal. by apply IH.
Qed.

Lemma str_lt_trans s t u :
  str_lt s t = true → str_lt t u = true → str_lt s u = true.
Proof.
  revert t u. induction s as [|a s IH]; intros [|b t] [|c u]; cbn; try done.
  intros H1 H2.
  apply orb_true_iff in H1, H2. apply orb_true_iff.
  destruct H1 as [H1|H1], H2 as [H2|H2];
    rewrite ?andb_true_iff, ?N.ltb_lt, ?N.eqb_eq in *.
  - left. lia.
  - left. destruct H2 as [-> _]. done.
  - left. destruct H1 as [-> _]. done.
  - right. destruct H1 as [-> H1], H2 as [-> H2]. eauto.
Qed.

(** ** [sorted] *)

Section sorting.
Context {A : Type} (lt : A → A → result bool).

Lemma insert_sorted_perm x l r : insert_sorted lt x l = Ok r → r ≡ₚ x :: l.
Proof.
  revert r. induction l as [|y l IH]; intros r H; cbn in H.
  - by injection H as <-.
  - apply bind_Ok in H as (b & Hb & H). destruct b.
    + apply fmap_Ok in H as (r' & Hr' & ->).
      rewrite (IH _ Hr'). apply perm_swap.
    + by injection H as <-.
Qed.

Lemma py_sorted_perm l r : py_sorted lt l = Ok r → r ≡ₚ l.
Proof.
  revert r. induction l as [|x l IH]; intros r H; cbn in H.
  - by injection H as <-.
  - apply bind_Ok in H as (r' & Hr' & H).
    rewrite (insert_sorted_perm _ _ _ H). by rewrite (IH _ Hr').
Qed.

(** Sortedness for any relation [R] that the answers of [lt] justify. *)
Context (R : A → A → Prop).
Context (lt_true : ∀ y x, lt y x = Ok true → R y x).
Context (lt_false : ∀ y x, lt y x = Ok false → R x y).

Lemma insert_sorted_Sorted x l r :
  Sorted R l → insert_sorted lt x l = Ok r →
  Sorted R r ∧ (∀ z, HdRel R z l → R z x → HdRel R z r).
Proof.
  revert r. induction l as [|y l IH]; intros r Hs H; cbn in H.
  - injection H as <-. split; [by repeat constructor|].
    intros z _ Hz. by constructor.
  - apply bind_Ok in H as (b & Hb & H). destruct b.
    + apply fmap_Ok in H as (r' & Hr' & ->).
      apply Sorted_inv in Hs as [Hs Hhd].
      destruct (IH _ Hs Hr') as [Hs' Hhd']. split.
      * constructor; [done|]. apply Hhd'; [done|]. by apply lt_true.
      * intros z Hz _. apply HdRel_inv in Hz. by constructor.
    + injection H as <-. split.
      * constructor; [done|]. constructor. by apply lt_false.
      * intros z _ Hz. by constructor.
Qed.

Lemma py_sorted_Sorted l r : py_sorted lt l = Ok r → Sorted R r.
Proof.
  revert r. induction l as [|x l IH]; intros r H; cbn in H.
  - injection H as <-. constructor.
  - apply bind_Ok in H as (r' & Hr' & H).
    by destruct (insert_sorted_Sorted x r' r (IH _ Hr') H).
Qed.

(** [sorted] returns when all the items it compares are comparable. *)
Context (P : A → Prop).
Context (lt_defined : ∀ y x, P y → P x → is_Ok (lt y x)).

Lemma insert_sorted_total x l :
  P x → Forall P l → is_Ok (insert_sorted lt x l).
Proof.
  intros Hx. induction 1 as [|y l Hy Hl IH]; cbn.
  - by eexists.
  - destruct (lt_defined y x Hy Hx) as [b ->]. rewrite bind_Ok_l.
    destruct b; [|by eexists]. destruct IH as [r ->]. by eexists.
Qed.

Lemma py_sorted_total l : Forall P l → is_Ok (py_sorted lt l).
Proof.
  induction 1 as [|x l Hx Hl IH]; cbn; [by eexists|].
  destruct IH as [r Hr]. rewrite Hr, bind_Ok_l.
  apply insert_sorted_total; [done|].
  apply py_sorted_perm in Hr. by rewrite Hr.
Qed.
End sorting.

(** ** The navigation list *)

Lemma nav_colours_length answers items colours :
  nav_colours answers items = Ok colours → length colours = length items.
Proof.
  revert colours. induction items as [|i items IH]; intros colours H; cbn in H.
  - by injection H as <-.
  - inv_result. cbn. f_equal. eauto.
Qed.

Lemma nav_colours_total (answers : list (gset pystr)) items :
  Forall (λ i, i < length answers) items → is_Ok (nav_colours answers items).
Proof.
  induction 1 as [|i items Hi _ [colours IH]]; cbn; [by eexists|].
  destruct (getitem_lt answers i Hi) as (ans & -> & _).
  rewrite bind_Ok_l, IH, bind_Ok_l. by eexists.
Qed.

Lemma update_nav_status_Ok s s' :
  update_nav_status s = Ok s' →
  same_model s s' ∧ user_answers s' = user_answers s ∧
  current_index s' = current_index s ∧ checkboxes s' = checkboxes s ∧
  option_labels s' = option_labels s ∧
  length (nav_list s') = length (nav_list s) ∧
  timer_active s' = timer_active s ∧ timer_label s' = timer_label s ∧
  start_time s' = start_time s ∧ elapsed_seconds s' = elapsed_seconds s ∧
  question_label s' = question_label s ∧ next_btn s' = next_btn s.
Proof.
  unfold update_nav_status. intros H. inv_result. unfold same_model. cbn.
  repeat split; try done.
  match goal with H : nav_colours _ _ = _ |- _ =>
    apply nav_colours_length in H; rewrite H end.
  apply length_seq.
Qed.

Lemma update_nav_status_total s :
  length (nav_list s) ≤ length (user_answers s) → is_Ok (update_nav_status s).
Proof.
  intros Hlen. unfold update_nav_status.
  destruct (nav_colours_total (user_answers s) (seq 0 (length (nav_list s))))
    as [colours ->]; [|by eexists].
  apply Forall_forall. intros i Hi. apply elem_of_seq in Hi. lia.
Qed.

(** ** [show_question] *)

Lemma option_rows_Ok q indices saved i labels rows :
  option_rows q indices saved i labels = Ok rows →
  rows.*1 = box saved <$> labels ∧
  length rows = length labels ∧
  ∀ k, k < length labels →
    ∃ o opt, indices !! (i + k) = Some o ∧ options q !! o = Some opt ∧
             rows.*2 !! k = Some (drop 2 opt).
Proof.
  revert i rows. induction labels as [|ab labels IH]; intros i rows H; cbn in H.
  - injection H as <-. repeat split; try done. cbn. lia.
  - inv_result.
    match goal with H : option_rows _ _ _ _ _ = _ |- _ =>
      destruct (IH _ _ H) as (IH1 & IH2 & IH3) end.
    cbn. rewrite IH1, IH2. repeat split; try done.
    intros [|k] Hk.
    + rewrite Nat.add_0_r. eauto.
    + replace (i + S k) with (S i + k) by lia. apply IH3. lia.
Qed.

Lemma displayed_length q : length (displayed q) = length (options q) `min` 8.
Proof. unfold displayed. by rewrite length_take. Qed.

Lemma option_rows_total q indices saved i labels :
  covers q indices → i + length labels ≤ length (options q) →
  is_Ok (option_rows q indices saved i labels).
Proof.
  intros Hc. destruct (covers_bijection _ _ Hc) as (Hlen & _ & Hin).
  revert i. induction labels as [|ab labels IH]; intros i Hi; cbn in *.
  - by eexists.
  - destruct (getitem_lt indices i) as (o & -> & Ho); [lia|].
    rewrite bind_Ok_l.
    destruct (getitem_lt (options q) o) as (opt & -> & _).
    { apply Hin. by eapply list_elem_of_lookup_2. }
    rewrite bind_Ok_l. destruct (IH (S i)) as [rows ->]; [lia|].
    by eexists.
Qed.

Lemma show_question_Ok idx s s' :
  show_question idx s = Ok s' →
  (∃ q indices saved rows,
     quiz s !! idx = Some q ∧ option_shuffle_map s !! idx = Some indices ∧
     user_answers s !! idx = Some saved ∧
     option_rows q indices saved 0 (displayed q) = Ok rows ∧
     checkboxes s' = rows.*1 ∧ option_labels s' = rows.*2 ∧
     question_label s' = question q) ∧
  current_index s' = idx ∧ same_model s s' ∧
  user_answers s' = user_answers s ∧
  length (nav_list s') = length (nav_list s) ∧
  timer_active s' = timer_active s ∧ timer_label s' = timer_label s ∧
  start_time s' = start_time s ∧ elapsed_seconds s' = elapsed_seconds s.
Proof.
  unfold show_question. intros H. inv_result.
  apply update_nav_status_Ok in H.
  destruct H as ((Hm1 & Hm2 & Hm3) & Hu & Hc & Hb & Hl & Hn & Ht & Htl & Hst
                  & Hel & Hql & _).
  cbn in *. unfold same_model. repeat split; try done.
  eexists _, _, _, _. repeat split; eauto.
Qed.

Lemma show_question_total idx s :
  perms_cover s → length (nav_list s) = length (quiz s) →
  idx < length (quiz s) → is_Ok (show_question idx s).
Proof.
  intros [Hans Hmaps] Hnav Hidx. unfold show_question.
  destruct (getitem_lt (quiz s) idx Hidx) as (q & -> & Hq).
  rewrite bind_Ok_l.
  destruct (Forall2_lookup_l _ _ _ _ _ Hmaps Hq) as (indices & Hi & Hc).
  rewrite (proj2 (getitem_Ok _ _ _) Hi), bind_Ok_l.
  destruct (getitem_lt (user_answers s) idx) as (saved & -> & _); [lia|].
  rewrite bind_Ok_l.
  destruct (option_rows_total q indices saved 0 (displayed q) Hc) as [rows Hr].
  { rewrite displayed_length. lia. }
  unfold displayed in Hr. rewrite Hr, bind_Ok_l. apply update_nav_status_total. cbn. lia.
Qed.

(** ** Labels and positions *)

Lemma abcd_head ab : ab ∈ abcd → str_head (ab ++ py ".") = Ok ab.
Proof.
  unfold abcd. intros H.
  repeat (apply elem_of_cons in H as [->|H]; [reflexivity|]).
  by apply elem_of_nil in H.
Qed.

Lemma displayed_abcd q ab : ab ∈ displayed q → ab ∈ abcd.
Proof. unfold displayed. apply subseteq_take. Qed.

Lemma index_of_find ab l pos :
  index_of ab l = Ok pos ↔ fst <$> list_find (λ x, x = ab) l = Some pos.
Proof.
  revert pos. induction l as [|y l IH]; intros pos; cbn; [done|].
  unfold str_eqb. destruct (decide (y = ab)) as [->|Hne].
  - rewrite bool_decide_eq_true_2 by done. cbn. split; congruence.
  - rewrite bool_decide_eq_false_2 by done.
    rewrite fmap_Ok. rewrite <- option_fmap_compose.
    split.
    + intros (n & Hn & ->). apply IH in Hn.
      destruct (list_find _ l) as [[m z]|]; cbn in *; congruence.
    + intros H. destruct (list_find _ l) as [[m z]|] eqn:E; cbn in *; [|done].
      injection H as <-. exists m. split; [|done]. by apply IH.
Qed.

Lemma index_of_position ab pos :
  index_of ab abcd = Ok pos ↔ position_of ab = Some pos.
Proof. apply index_of_find. Qed.

Lemma abcd_NoDup : NoDup abcd.
Proof. apply (bool_decide_unpack _). by vm_compute. Qed.

Lemma position_of_lookup ab pos :
  position_of ab = Some pos ↔ abcd !! pos = Some ab.
Proof.
  unfold position_of. split.
  - intros H. destruct (list_find _ abcd) as [[n x]|] eqn:E; [|done].
    injection H as ->. apply list_find_Some in E as (E & -> & _). done.
  - intros H. destruct (list_find (λ x, x = ab) abcd) as [[n x]|] eqn:E.
    + apply list_find_Some in E as (E & -> & _). cbn. f_equal.
      by eapply NoDup_lookup; [apply abcd_NoDup|..].
    + apply list_find_None in E. rewrite Forall_forall in E.
      destruct (E ab); [by eapply list_elem_of_lookup_2 | done].
Qed.

(** ** [save_answer] *)

Lemma checked_labels_spec cbs acc :
  Forall labelled cbs →
  ∃ X, checked_labels cbs acc = Ok X ∧
       ∀ x, x ∈ X ↔
         x ∈ acc ∨ ∃ cb, cb ∈ cbs ∧ cb_checked cb = true ∧ cb_text cb = x ++ py ".".
Proof.
  intros Hl. revert acc. induction Hl as [|cb cbs (ab & Hab & Htext) _ IH];
    intros acc; cbn [checked_labels].
  - eexists; split; [done|]. intros x. split; [by left|].
    intros [?|(cb & Hcb & _)]; [done|]. by apply elem_of_nil in Hcb.
  - destruct (cb_checked cb) eqn:Hc.
    + rewrite Htext, (abcd_head _ Hab), bind_Ok_l.
      destruct (IH ({[ab]} ∪ acc)) as (X & -> & HX).
      eexists; split; [done|]. intros x. rewrite HX, elem_of_union, elem_of_singleton.
      split.
      * intros [[->|?]|(cb' & ? & ? & ?)]; eauto.
        -- right. exists cb. by rewrite elem_of_cons; eauto.
        -- right. exists cb'. rewrite elem_of_cons; eauto.
      * intros [?|(cb' & Hin & Hc' & Ht')]; eauto.
        apply elem_of_cons in Hin as [->|Hin]; [|by eauto 6].
        left. left. rewrite Htext in Ht'. by apply app_inv_tail in Ht'.
    + destruct (IH acc) as (X & -> & HX).
      eexists; split; [done|]. intros x. rewrite HX. split.
      * intros [?|(cb' & ? & ? & ?)]; eauto.
        right. exists cb'. rewrite elem_of_cons; eauto.
      * intros [?|(cb' & Hin & Hc' & Ht')]; eauto.
        apply elem_of_cons in Hin as [->|Hin]; [congruence | by eauto 6].
Qed.

Lemma setitem_Ok {A} (l : list A) i x l' :
  setitem l i x = Ok l' ↔ i < length l ∧ l' = <[i := x]> l.
Proof.
  unfold setitem. case_bool_decide; split.
  - by intros [= <-].
  - by intros [_ ->].
  - done.
  - by intros [? _].
Qed.

Lemma save_answer_Ok s s' :
  save_answer s = Ok s' →
  (∃ selected, checked_labels (checkboxes s) ∅ = Ok selected ∧
     current_index s < length (user_answers s) ∧
     user_answers s' = <[current_index s := selected]> (user_answers s)) ∧
  same_model s s' ∧ current_index s' = current_index s ∧
  checkboxes s' = checkboxes s ∧ option_labels s' = option_labels s ∧
  length (nav_list s') = length (nav_list s) ∧
  timer_active s' = timer_active s ∧ timer_label s' = timer_label s ∧
  start_time s' = start_time s ∧ elapsed_seconds s' = elapsed_seconds s.
Proof.
  unfold save_answer. intros H.
  apply bind_Ok in H as (selected & Hsel & H).
  apply bind_Ok in H as (answers & Hans & H).
  apply setitem_Ok in Hans as [Hlt ->].
  apply update_nav_status_Ok in H.
  destruct H as ((Hm1 & Hm2 & Hm3) & Hu & Hc & Hb & Hl & Hn & Ht & Htl & Hst
                  & Hel & _).
  cbn in *. unfold same_model. repeat split; try done.
  exists selected. repeat split; try done.
  rewrite Hu. by case_bool_decide; subst.
Qed.

Lemma save_answer_total s :
  Forall labelled (checkboxes s) →
  current_index s < length (user_answers s) →
  length (nav_list s) ≤ length (user_answers s) →
  is_Ok (save_answer s).
Proof.
  intros Hl Hidx Hnav. unfold save_answer.
  destruct (checked_labels_spec _ ∅ Hl) as (X & -> & _). rewrite bind_Ok_l.
  unfold setitem. rewrite bool_decide_eq_true_2 by done. rewrite bind_Ok_l.
  apply update_nav_status_total. cbn. by rewrite length_insert.
Qed.

Lemma flip_texts (i : nat) (cbs : list Checkbox) :
  cb_text <$> alter flip i cbs = cb_text <$> cbs.
Proof.
  revert i. induction cbs as [|cb cbs IH]; intros [|i]; cbn; try done.
  f_equal. apply IH.
Qed.

Lemma click_option_Ok i s s' :
  click_option i s = Ok s' →
  same_model s s' ∧ current_index s' = current_index s ∧
  cb_text <$> checkboxes s' = cb_text <$> checkboxes s ∧
  option_labels s' = option_labels s ∧
  length (nav_list s') = length (nav_list s) ∧
  length (user_answers s') = length (user_answers s) ∧
  timer_active s' = timer_active s ∧ timer_label s' = timer_label s ∧
  (∀ j, j ≠ current_index s → user_answers s' !! j = user_answers s !! j).
Proof.
  unfold click_option. case_bool_decide.
  - intros H'. apply save_answer_Ok in H'.
    destruct H' as ((sel & _ & Hlt & Hu) & Hm & Hc & Hb & Hl & Hn & Ht & Htl & _).
    cbn in *. rewrite Hb, Hu, flip_texts, length_insert.
    do 8 (split; [done|]). intros j Hj. by rewrite list_lookup_insert_ne.
  - intros [= <-]. unfold same_model. by do 8 (split; [done|]).
Qed.

(** ** The grading loop *)

Lemma original_index_Ok indices ab o :
  original_index indices ab = Ok o →
  o = (pos ← position_of ab; indices !! pos).
Proof.
  unfold original_index. intros H.
  apply bind_Ok in H as (pos & Hpos & H).
  apply index_of_position in Hpos. rewrite Hpos. cbn.
  case_bool_decide as Hlt.
  - apply bind_Ok in H as (orig & Ho & [= <-]).
    by apply getitem_Ok in Ho.
  - injection H as <-. symmetry. apply lookup_ge_None. lia.
Qed.

Lemma add_mapped_Ok q indices user ab u :
  add_mapped q indices user ab = Ok u →
  u = match original_label q indices ab with
      | Some x => {[x]} ∪ user
      | None => user
      end.
Proof.
  unfold add_mapped, original_label. intros H.
  apply bind_Ok in H as (o & Ho & H).
  apply original_index_Ok in Ho.
  destruct (position_of ab) as [pos|]; cbn in *; [|by subst; injection H].
  destruct (indices !! pos) as [orig|]; cbn in *; subst; [|by injection H].
  apply bind_Ok in H as (opt & Hopt & H). apply getitem_Ok in Hopt.
  rewrite Hopt. cbn.
  destruct opt as [|c opt]; cbn in *; [done|]. by injection H.
Qed.

Lemma map_answers_Ok q indices labels user u :
  map_answers q indices labels user = Ok u →
  u = list_to_set (omap (original_label q indices) labels) ∪ user.
Proof.
  revert user. induction labels as [|ab labels IH]; intros user H; cbn in H.
  - injection H as <-. cbn. set_solver.
  - apply bind_Ok in H as (user' & Hadd & H).
    apply add_mapped_Ok in Hadd. apply IH in H. subst u user'.
    cbn [omap list_omap]. destruct (original_label q indices ab); cbn; set_solver.
Qed.

Lemma add_mapped_total q indices user ab :
  covers q indices → Forall (λ opt, opt ≠ []) (options q) →
  ab ∈ abcd → is_Ok (add_mapped q indices user ab).
Proof.
  intros Hc Hopts Hab. destruct (covers_bijection _ _ Hc) as (Hlen & _ & Hin).
  apply list_elem_of_lookup_1 in Hab as (pos & Hpos).
  unfold add_mapped, original_index.
  rewrite (proj2 (index_of_position ab pos)) by (by apply position_of_lookup).
  rewrite bind_Ok_l. case_bool_decide as Hlt; [|by eexists].
  destruct (getitem_lt indices pos) as (o & -> & Ho); [lia|].
  rewrite !bind_Ok_l.
  destruct (getitem_lt (options q) o) as (opt & -> & Hopt).
  { apply Hin. by eapply list_elem_of_lookup_2. }
  rewrite bind_Ok_l.
  rewrite Forall_forall in Hopts.
  destruct opt as [|c opt]; [|by eexists].
  destruct (Hopts [] (list_elem_of_lookup_2 _ _ _ Hopt)). done.
Qed.

Lemma map_answers_total q indices labels user :
  covers q indices → Forall (λ opt, opt ≠ []) (options q) →
  Forall (λ ab, ab ∈ abcd) labels →
  is_Ok (map_answers q indices labels user).
Proof.
  intros Hc Hopts Hl. revert user.
  induction Hl as [|ab labels Hab _ IH]; intros user; cbn [map_answers];
    [by eexists|].
  destruct (add_mapped_total q indices user ab Hc Hopts Hab) as [u ->].
  rewrite bind_Ok_l. apply IH.
Qed.

(** Sorting the elements of a set of strings. *)
Lemma Sorted_le_lt (l : list pystr) :
  NoDup l → Sorted (λ a b, str_lt b a = false) l →
  StronglySorted (λ a b, str_lt a b = true) l.
Proof.
  intros Hnd Hs. apply Sorted_StronglySorted.
  { intros a b c. apply str_lt_trans. }
  induction Hs as [|a l Hs IH Hhd]; [constructor|].
  apply NoDup_cons in Hnd as [Ha Hnd]. constructor; [by apply IH|].
  destruct Hhd as [|b l Hab]; constructor.
  destruct (str_lt a b) eqn:E; [done|].
  destruct Ha. rewrite (str_lt_total a b E Hab). apply list_elem_of_here.
Qed.

Lemma sorted_strs_Ok X :
  ∃ l, sorted_strs X = Ok l ∧ sorted_labels l X.
Proof.
  unfold sorted_strs.
  destruct (py_sorted_total (λ a b, Ok (str_lt a b)) (λ _, True)
              (λ y x _ _, ex_intro _ _ eq_refl) (elements X)) as [l Hl].
  { by apply Forall_forall. }
  exists l. split; [done|]. pose proof (py_sorted_perm _ _ _ Hl) as Hp. split.
  - apply Sorted_le_lt.
    + rewrite Hp. apply NoDup_elements.
    + eapply py_sorted_Sorted; [| |exact Hl]; cbn.
      * intros y x [= H]. by apply str_lt_asym.
      * by intros y x [= H].
  - intros x. by rewrite Hp, elem_of_elements.
Qed.

Lemma grade_question_Ok s i q r :
  grade_question s i q = Ok r →
  ∃ indices answers,
    option_shuffle_map s !! i = Some indices ∧
    user_answers s !! i = Some answers ∧
    (r = None ↔ mapped_labels q indices answers = list_to_set (answer q)) ∧
    ∀ e, r = Some e →
      e_id e = qid q ∧ e_question e = question q ∧ e_options e = options q ∧
      ∃ sr su, e_right e = concat sr ∧ e_user e = concat su ∧
               sorted_labels sr (list_to_set (answer q)) ∧
               sorted_labels su (mapped_labels q indices answers).
Proof.
  unfold grade_question. intros H.
  apply bind_Ok in H as (indices & Hi & H). apply getitem_Ok in Hi.
  apply bind_Ok in H as (answers & Ha & H). apply getitem_Ok in Ha.
  apply bind_Ok in H as (user & Hu & H).
  apply map_answers_Ok in Hu. rewrite union_empty_r_L in Hu.
  change (list_to_set (omap (original_label q indices) (elements answers)))
    with (mapped_labels q indices answers) in Hu. subst user.
  exists indices, answers. split; [done|]. split; [done|].
  case_bool_decide as Hne.
  - destruct (sorted_strs_Ok (list_to_set (answer q))) as (sr & Hsr & Hsr').
    destruct (sorted_strs_Ok (mapped_labels q indices answers)) as (su & Hsu & Hsu').
    rewrite Hsr, Hsu, !bind_Ok_l in H. injection H as <-. split.
    + split; [done | intros E; by destruct Hne].
    + intros e [= <-]. cbn. repeat split; try done. by exists sr, su.
  - injection H as <-. split; [|done].
    split; [intros _ | done]. by destruct (decide (mapped_labels q indices answers
                                          = list_to_set (answer q))).
Qed.

Lemma grade_question_total s i q :
  perms_cover s → quiz s !! i = Some q →
  Forall (λ opt, opt ≠ []) (options q) →
  (∀ ans, user_answers s !! i = Some ans → ans ⊆ list_to_set abcd) →
  is_Ok (grade_question s i q).
Proof.
  intros [Hlen Hmaps] Hq Hopts Hans. unfold grade_question.
  destruct (Forall2_lookup_l _ _ _ _ _ Hmaps Hq) as (indices & Hi & Hc).
  rewrite (proj2 (getitem_Ok _ _ _) Hi), bind_Ok_l.
  destruct (getitem_lt (user_answers s) i) as (answers & -> & Ha).
  { rewrite Hlen. by eapply lookup_lt_Some. }
  rewrite bind_Ok_l.
  destruct (map_answers_total q indices (elements answers) ∅ Hc Hopts) as [user ->].
  { apply Forall_forall. intros ab Hab. apply elem_of_elements in Hab.
    specialize (Hans _ Ha ab Hab). by apply elem_of_list_to_set in Hans. }
  rewrite bind_Ok_l. case_bool_decide; [|by eexists].
  destruct (sorted_strs_Ok (list_to_set (answer q))) as (sr & -> & _).
  destruct (sorted_strs_Ok user) as (su & -> & _).
  by eexists.
Qed.

Lemma grade_from_Ok s i qs wrong w :
  grade_from s i qs wrong = Ok w →
  ∃ rs, length rs = length qs ∧
        (∀ k q, qs !! k = Some q →
           ∃ r, rs !! k = Some r ∧ grade_question s (i + k) q = Ok r) ∧
        w = wrong ++ omap id rs.
Proof.
  revert i wrong. induction qs as [|q qs IH]; intros i wrong H; cbn in H.
  - injection H as <-. exists []. repeat split; try done.
    by rewrite app_nil_r.
  - apply bind_Ok in H as (r & Hr & H).
    apply IH in H as (rs & Hlen & Hrs & ->).
    exists (r :: rs). split; [cbn; by rewrite Hlen|]. split.
    + intros [|k] q' Hq'.
      * injection Hq' as <-. rewrite Nat.add_0_r. eauto.
      * replace (i + S k) with (S i + k) by lia. by apply Hrs.
    + cbn. destruct r; cbn; [by rewrite <- app_assoc | done].
Qed.

Lemma grade_from_total s i qs wrong :
  (∀ k q, qs !! k = Some q → is_Ok (grade_question s (i + k) q)) →
  is_Ok (grade_from s i qs wrong).
Proof.
  revert i wrong. induction qs as [|q qs IH]; intros i wrong H; cbn.
  - by eexists.
  - destruct (H 0 q eq_refl) as [r Hr]. rewrite Nat.add_0_r in Hr.
    rewrite Hr, bind_Ok_l. apply IH. intros k q' Hq'.
    replace (S i + k) with (i + S k) by lia. by apply H.
Qed.

(** ** The order of the report *)

Lemma id_eqb_true a b : id_eqb a b = true → a = b.
Proof.
  destruct a, b; cbn; try done.
  - intros H. apply Z.eqb_eq in H. by subst.
  - intros H. apply bool_decide_eq_true in H. by subst.
Qed.

Lemma id_le_refl a : id_le a a.
Proof. destruct a; cbn; [lia | apply str_lt_irrefl]. Qed.

Lemma id_lt_true a b : id_lt a b = Ok true → id_le a b.
Proof.
  destruct a, b; cbn; try done; intros [= H].
  - apply Z.ltb_lt in H. lia.
  - by apply str_lt_asym.
Qed.

Lemma id_lt_false a b : id_lt a b = Ok false → id_le b a.
Proof.
  destruct a, b; cbn; try done; intros [= H]; [|done].
  apply Z.ltb_ge in H. lia.
Qed.

Lemma entry_lt_true y x : entry_lt y x = Ok true → by_id y x.
Proof.
  unfold entry_lt, by_id. destruct (id_eqb (e_id y) (e_id x)) eqn:E; cbn.
  - intros _. apply id_eqb_true in E. rewrite E. apply id_le_refl.
  - apply id_lt_true.
Qed.

Lemma entry_lt_false y x : entry_lt y x = Ok false → by_id x y.
Proof.
  unfold entry_lt, by_id. destruct (id_eqb (e_id y) (e_id x)) eqn:E; cbn.
  - intros _. apply id_eqb_true in E. rewrite E. apply id_le_refl.
  - apply id_lt_false.
Qed.

Lemma entry_lt_defined b y x :
  is_int (e_id y) = b → is_int (e_id x) = b → is_Ok (entry_lt y x).
Proof.
  unfold entry_lt. intros Hy Hx.
  destruct (negb (id_eqb (e_id y) (e_id x))).
  - destruct (e_id y), (e_id x); cbn in *; try congruence; by eexists.
  - repeat (destruct (negb _); [by eexists|]). by eexists.
Qed.

Lemma id_le_trans a b c : id_le a b → id_le b c → id_le a c.
Proof.
  destruct a as [n|s], b as [m|t], c as [k|u]; cbn; try done; [lia|].
  intros H1 H2. destruct (str_lt u s) eqn:E; [|done].
  destruct (str_lt s t) eqn:E1.
  - by rewrite (str_lt_trans u s t E E1) in H2.
  - rewrite (str_lt_total s t E1 H1) in E. congruence.
Qed.

(** ** [submit] *)

Lemma submit_Ok s s' rep :
  submit s = Ok (s', rep) →
  s' = set_timer false s ∧
  ∃ rs, graded s rs ∧
        rep_wrong rep = length (omap id rs) ∧
        rep_total rep = length (quiz s) ∧
        rep_time rep = timer_label s ∧
        rep_entries rep ≡ₚ omap id rs ∧
        StronglySorted by_id (rep_entries rep).
Proof.
  unfold submit. intros H.
  apply bind_Ok in H as (wrong & Hw & H).
  apply bind_Ok in H as (entries & He & [= <- <-]).
  split; [done|].
  apply grade_from_Ok in Hw as (rs & Hlen & Hrs & ->).
  exists rs. cbn. repeat split; try done.
  - by eapply py_sorted_perm.
  - apply Sorted_StronglySorted.
    { intros a b c. apply id_le_trans. }
    eapply py_sorted_Sorted; [| |exact He].
    + apply entry_lt_true.
    + apply entry_lt_false.
Qed.

Lemma graded_ids s rs e :
  graded s rs → e ∈ omap id rs → ∃ q, q ∈ quiz s ∧ e_id e = qid q.
Proof.
  intros [Hlen Hrs] He. apply list_elem_of_omap in He as (r & Hr & Hre).
  cbn in Hre. subst r. apply list_elem_of_lookup in Hr as [i Hi].
  destruct (lookup_lt_is_Some_2 (quiz s) i) as [q Hq].
  { rewrite <- Hlen. by eapply lookup_lt_Some. }
  destruct (Hrs i q Hq) as (r & Hr & Hg). rewrite Hi in Hr. injection Hr as <-.
  apply grade_question_Ok in Hg as (? & ? & _ & _ & _ & Hg).
  destruct (Hg e eq_refl) as (Hid & _).
  exists q. split; [by eapply list_elem_of_lookup_2 | done].
Qed.

Lemma submit_total s :
  perms_cover s →
  answers_known s →
  options_labelled (quiz s) →
  ids_comparable (quiz s) →
  is_Ok (submit s).
Proof.
  intros Hcover Hans Hopts Hids. unfold submit.
  destruct (grade_from_total (set_timer false s) 0 (quiz (set_timer false s)) [])
    as [wrong Hw].
  { intros k q Hq. apply grade_question_total; try done.
    - unfold options_labelled in Hopts. rewrite Forall_forall in Hopts.
      apply Hopts. by eapply list_elem_of_lookup_2.
    - intros ans Ha. unfold answers_known in Hans.
      rewrite Forall_forall in Hans. apply Hans.
      by eapply list_elem_of_lookup_2. }
  rewrite Hw, bind_Ok_l.
  pose proof Hw as Hw'. apply grade_from_Ok in Hw' as (rs & Hlen & Hrs & ->).
  assert (Hg : graded s rs) by done.
  assert (∃ b, Forall (λ e, is_int (e_id e) = b) (omap id rs)) as [b Hb].
  { destruct Hids as [Hi|Hi]; [exists true | exists false];
      apply Forall_forall; intros e He;
      destruct (graded_ids s rs e Hg He) as (q & Hq & ->);
      rewrite Forall_forall in Hi; by apply Hi. }
  destruct (py_sorted_total entry_lt (λ e, is_int (e_id e) = b)
              (entry_lt_defined b) ([] ++ omap id rs)) as [entries ->]; [done|].
  by eexists.
Qed.

(** ** The session invariant *)

Lemma session_ok_known s : session_ok s → answers_known s.
Proof.
  intros (_ & _ & _ & Ha). unfold answers_known.
  apply Forall_forall. intros ans Hans.
  apply list_elem_of_lookup_1 in Hans as (i & Hi).
  destruct (Forall2_lookup_r _ _ _ _ _ Ha Hi) as (q & _ & Hsub).
  intros x Hx. apply Hsub in Hx. rewrite elem_of_list_to_set in *.
  by eapply displayed_abcd.
Qed.

Lemma same_model_refl s : same_model s s.
Proof. by unfold same_model. Qed.

Lemma same_model_trans s1 s2 s3 :
  same_model s1 s2 → same_model s2 s3 → same_model s1 s3.
Proof. unfold same_model. intros (-> & -> & ->) (-> & -> & ->). done. Qed.

Lemma texts_labelled q (cbs : list Checkbox) :
  cb_text <$> cbs = (λ ab, ab ++ py ".") <$> displayed q →
  Forall (λ cb, ∃ ab, ab ∈ displayed q ∧ cb_text cb = ab ++ py ".") cbs.
Proof.
  intros Ht. apply Forall_forall. intros cb Hcb.
  assert (Hin : cb_text cb ∈ cb_text <$> cbs) by (by apply list_elem_of_fmap_2).
  rewrite Ht in Hin. apply list_elem_of_fmap in Hin as (ab & -> & Hab). eauto.
Qed.

Lemma show_question_ok idx s s' :
  perms_cover s → length (nav_list s) = length (quiz s) →
  Forall2 (λ q (ans : gset pystr), ans ⊆ list_to_set (displayed q))
    (quiz s) (user_answers s) →
  show_question idx s = Ok s' → session_ok s'.
Proof.
  intros Hc Hn Ha H. apply show_question_Ok in H.
  destruct H as ((q & ind & saved & rows & Hq & _ & _ & Hrows & Hcb & _) & Hidx
                  & (_ & Hquiz & Hmaps) & Hu & Hnav & _).
  apply option_rows_Ok in Hrows as (Hrows & _).
  unfold session_ok, perms_cover in *. rewrite Hquiz, Hmaps, Hu, Hnav, Hidx, Hq.
  repeat split; try done; try apply Hc.
  rewrite Hcb, Hrows. rewrite <- list_fmap_compose. done.
Qed.

Lemma save_answer_ok s s' : session_ok s → save_answer s = Ok s' → session_ok s'.
Proof.
  intros (Hc & Hn & Hcur & Ha) H. apply save_answer_Ok in H.
  destruct H as ((sel & Hsel & Hlt & Hu) & (_ & Hquiz & Hmaps) & Hidx & Hcb
                  & _ & Hnav & _).
  destruct (quiz s !! current_index s) as [q|] eqn:Hq; [|done].
  unfold session_ok, perms_cover in *.
  rewrite Hquiz, Hmaps, Hu, Hnav, Hidx, Hq, Hcb, length_insert.
  repeat split; try done; try apply Hc.
  rewrite <- (list_insert_id (quiz s) (current_index s) q Hq).
  apply Forall2_insert; [done|].
  pose proof (texts_labelled q _ Hcur) as Hl.
  destruct (checked_labels_spec (checkboxes s) ∅) as (X & HX & Hspec).
  { eapply Forall_impl; [exact Hl|]. intros cb (ab & Hab & Ht).
    exists ab. split; [by eapply displayed_abcd | done]. }
  rewrite HX in Hsel. injection Hsel as <-.
  intros x Hx. apply Hspec in Hx as [Hx|(cb & Hcb' & _ & Ht)]; [done|].
  rewrite Forall_forall in Hl. destruct (Hl cb Hcb') as (ab & Hab & Ht').
  rewrite Ht' in Ht. apply app_inv_tail in Ht as ->.
  by apply elem_of_list_to_set.
Qed.

Lemma click_option_ok i s s' :
  session_ok s → click_option i s = Ok s' → session_ok s'.
Proof.
  unfold click_option. intros Hok. case_bool_decide as Hi; [|by intros [= <-]].
  apply save_answer_ok. unfold session_ok, perms_cover in *. cbn.
  destruct (quiz s !! current_index s); [|by destruct Hok as (_ & _ & [] & _)].
  by rewrite flip_texts.
Qed.

Lemma switch_question_ok idx s s' :
  session_ok s → switch_question idx s = Ok s' → session_ok s'.
Proof.
  unfold switch_question. intros Hok. destruct (0 <=? idx)%Z; [|by intros [= <-]].
  destruct Hok as (Hc & Hn & _ & Ha). by apply show_question_ok.
Qed.

Lemma set_timer_ok b s : session_ok s → session_ok (set_timer b s).
Proof. done. Qed.

Lemma update_timer_ok now s : session_ok s → session_ok (update_timer now s).
Proof. done. Qed.

Lemma try_submit_Ok yes s s' ds :
  try_submit yes s = Ok (s', ds) → s' = s ∨ s' = set_timer false s.
Proof.
  unfold try_submit. case_bool_decide as Hn; [destruct yes; cbn [negb]|].
  - intros H. apply bind_Ok in H as ([s1 r] & Hs & [= <- _]).
    apply submit_Ok in Hs as [-> _]. by right.
  - intros [= <- _]. by left.
  - intros H. apply bind_Ok in H as ([s1 r] & Hs & [= <- _]).
    apply submit_Ok in Hs as [-> _]. by right.
Qed.

Lemma step_ok ev s s' ds : session_ok s → step ev s = Ok (s', ds) → session_ok s'.
Proof.
  intros Hok. destruct ev as [idx|i|now|yes|yes]; cbn [step]; intros H.
  - apply bind_Ok in H as (s1 & Hs & [= <- _]). by eapply switch_question_ok.
  - apply bind_Ok in H as (s1 & Hs & [= <- _]). by eapply click_option_ok.
  - injection H as <- _. destruct (timer_active s); [|done].
    by apply update_timer_ok.
  - unfold next_or_submit in H. destruct (_ <? _)%Z.
    + apply bind_Ok in H as (s1 & Hs & [= <- _]). by eapply switch_question_ok.
    + apply try_submit_Ok in H as [->| ->]; [done | by apply set_timer_ok].
  - apply try_submit_Ok in H as [->| ->]; [done | by apply set_timer_ok].
Qed.

Lemma step_same_model ev s s' ds : step ev s = Ok (s', ds) → same_model s s'.
Proof.
  assert (Hsw : ∀ idx s1, switch_question idx s = Ok s1 → same_model s s1).
  { unfold switch_question. intros idx s1. destruct (0 <=? idx)%Z.
    - intros H. by apply show_question_Ok in H as (_ & _ & Hm & _).
    - intros [= <-]. apply same_model_refl. }
  assert (Hts : ∀ yes, try_submit yes s = Ok (s', ds) → same_model s s').
  { intros yes H. by apply try_submit_Ok in H as [->| ->]. }
  destruct ev as [idx|i|now|yes|yes]; cbn [step]; intros H.
  - apply bind_Ok in H as (s1 & Hs & [= <- _]). eauto.
  - apply bind_Ok in H as (s1 & Hs & [= <- _]).
    by apply click_option_Ok in Hs as (Hm & _).
  - injection H as <- _. by destruct (timer_active s).
  - unfold next_or_submit in H. destruct (_ <? _)%Z; [|eauto].
    apply bind_Ok in H as (s1 & Hs & [= <- _]). eauto.
  - eauto.
Qed.

Lemma run_ok evs s s' ds :
  session_ok s → run evs s = Ok (s', ds) → session_ok s' ∧ same_model s s'.
Proof.
  revert s ds. induction evs as [|ev evs IH]; intros s ds Hok H; cbn in H.
  - injection H as <- _. split; [done | apply same_model_refl].
  - apply bind_Ok in H as ([s1 d1] & H1 & H).
    apply bind_Ok in H as ([s2 d2] & H2 & [= <- _]).
    pose proof (step_ok _ _ _ _ Hok H1) as Hok1.
    destruct (IH _ _ Hok1 H2) as [Hok2 Hm]. split; [done|].
    eapply same_model_trans; [|exact Hm]. by eapply step_same_model.
Qed.

(** ** [reset_quiz] *)

Lemma reset_quiz_Ok now g s0 s g' :
  reset_quiz now g s0 = Ok (s, g') →
  session_ok s ∧ bank s = bank s0 ∧ quiz s ≡ₚ quiz s0 ∧
  option_shuffle_map s = (shuffle_options (quiz s) (shuffle (quiz s0) g).2).1 ∧
  user_answers s = replicate (length (quiz s)) ∅ ∧
  current_index s = 0 ∧ timer_active s = true ∧ start_time s = now.
Proof.
  unfold reset_quiz.
  pose proof (shuffle_perm (quiz s0) g) as Hp.
  destruct (shuffle (quiz s0) g) as [qz g1]. cbn [fst snd] in *.
  pose proof (shuffle_options_covers qz g1) as Hc.
  destruct (shuffle_options qz g1) as [maps g2] eqn:Eo. cbn [fst] in *.
  intros H. apply bind_Ok in H as (s1 & H1 & H).
  apply bind_Ok in H as (s2 & H2 & [= <- <-]).
  pose proof H1 as Hok. apply show_question_ok in Hok; cbn.
  - apply show_question_Ok in H1.
    destruct H1 as (_ & Hidx & (Hb & Hquiz & Hmaps) & Hu & Hnav & _ & _ & Hst & _).
    apply update_nav_status_Ok in H2.
    destruct H2 as ((Hb2 & Hquiz2 & Hmaps2) & Hu2 & Hc2 & Hcb2 & _ & Hnav2 & _
                     & _ & Hst2 & _).
    cbn in *. split.
    + unfold session_ok, perms_cover in *. cbn.
      rewrite Hquiz2, Hmaps2, Hu2, Hc2, Hcb2, Hnav2. exact Hok.
    + rewrite Hb2, Hb, Hquiz2, Hquiz, Hmaps2, Hmaps, Hu2, Hu, Hc2, Hidx, Hst2, Hst.
      by rewrite Eo.
  - split; cbn; [by rewrite length_replicate | done].
  - by rewrite length_replicate.
  - apply Forall2_replicate_r; [done|]. apply Forall_forall. intros q _.
    cbn. set_solver.
Qed.

(** Every state of a session satisfies the invariant. *)
Lemma session_ok_reachable now g s0 s g' evs s' ds :
  reset_quiz now g s0 = Ok (s, g') → run evs s = Ok (s', ds) → session_ok s'.
Proof.
  intros Hreset Hrun. apply reset_quiz_Ok in Hreset as (Hok & _).
  by destruct (run_ok _ _ _ _ Hok Hrun).
Qed.

Lemma new_window_covers questions now g s g' :
  new_window questions now g = Ok (s, g') →
  quiz s ≡ₚ questions ∧ Forall2 covers (quiz s) (option_shuffle_map s).
Proof.
  intros H. apply reset_quiz_Ok in H as (((_ & Hc) & _) & _ & Hp & _). done.
Qed.

Lemma retry_covers now g s0 s g' :
  retry now g s0 = Ok (s, g') →
  quiz s ≡ₚ bank s0 ∧ Forall2 covers (quiz s) (option_shuffle_map s).
Proof.
  intros H. apply reset_quiz_Ok in H as (((_ & Hc) & _) & _ & Hp & _). done.
Qed.

(** ** The handlers return on the events the widgets deliver *)

Lemma switch_question_total idx s :
  session_ok s → (idx < Z.of_nat (length (quiz s)))%Z →
  is_Ok (switch_question idx s).
Proof.
  intros (Hc & Hn & _) Hidx. unfold switch_question.
  destruct (0 <=? idx)%Z eqn:E; [|by eexists].
  apply Z.leb_le in E. apply show_question_total; try done. lia.
Qed.

Lemma click_option_total i s : session_ok s → is_Ok (click_option i s).
Proof.
  intros ((Hlen & Hc) & Hn & Hcur & _). unfold click_option.
  case_bool_decide as Hi; [|by eexists].
  destruct (quiz s !! current_index s) as [q|] eqn:Hq; [|done].
  apply save_answer_total; cbn.
  - rewrite <- (flip_texts i) in Hcur.
    eapply Forall_impl; [exact (texts_labelled q _ Hcur)|].
    intros cb (ab & Hab & Ht). exists ab. split; [by eapply displayed_abcd | done].
  - rewrite Hlen. by eapply lookup_lt_Some.
  - lia.
Qed.

Lemma try_submit_total yes s :
  session_ok s → options_labelled (quiz s) → ids_comparable (quiz s) →
  is_Ok (try_submit yes s).
Proof.
  intros Hok Hopts Hids. pose proof (session_ok_known s Hok) as Ha.
  destruct Hok as (Hc & _).
  destruct (submit_total s Hc Ha Hopts Hids) as [[s' r] Hs].
  unfold try_submit. case_bool_decide as Hn; [destruct yes; cbn [negb]|].
  - rewrite Hs. by eexists.
  - by eexists.
  - rewrite Hs. by eexists.
Qed.

Lemma step_total ev s :
  session_ok s → options_labelled (quiz s) → ids_comparable (quiz s) →
  in_range s ev → is_Ok (step ev s).
Proof.
  intros Hok Hopts Hids Hev. destruct ev as [idx|i|now|yes|yes]; cbn [step].
  - destruct (switch_question_total idx s Hok Hev) as [s' ->]. by eexists.
  - destruct (click_option_total i s Hok) as [s' ->]. by eexists.
  - by eexists.
  - unfold next_or_submit. destruct (_ <? _)%Z eqn:E.
    + apply Z.ltb_lt in E.
      destruct (switch_question_total (Z.of_nat (current_index s) + 1) s Hok)
        as [s' ->]; [lia|]. by eexists.
    + by apply try_submit_total.
  - by apply try_submit_total.
Qed.

Lemma run_total evs s :
  session_ok s → options_labelled (quiz s) → ids_comparable (quiz s) →
  Forall (in_range s) evs → is_Ok (run evs s).
Proof.
  intros Hok Hopts Hids Hevs. revert s Hok Hopts Hids Hevs.
  induction evs as [|ev evs IH]; intros s Hok Hopts Hids Hevs; cbn [run].
  - by eexists.
  - apply Forall_cons in Hevs as [Hev Hevs].
    destruct (step_total ev s Hok Hopts Hids Hev) as [[s1 d1] H1].
    rewrite H1, bind_Ok_l.
    pose proof (step_ok _ _ _ _ Hok H1) as Hok1.
    pose proof (step_same_model _ _ _ _ H1) as (_ & Hquiz & _).
    destruct (IH s1) as [[s2 d2] ->]; try done; try (by rewrite Hquiz).
    + eapply Forall_impl; [exact Hevs|]. intros [] ?; cbn in *; by rewrite ?Hquiz.
    + by eexists.
Qed.

(** ** The typed view of a bank *)

Lemma decode_strs_encode (l : list pystr) : decode_strs (PStr <$> l) = Some l.
Proof. induction l as [|x l IH]; cbn; [done|]. by rewrite IH. Qed.

(** Every list of typed questions is the view of a Python list. *)
Lemma decode_encode q : decode_question (encode_question q) = Some q.
Proof.
  destruct q as [i t o a]. unfold decode_question, encode_question.
  cbn [qid question options answer].
  change (assoc _ (py "id")) with (Some (encode_id i)).
  change (assoc _ (py "question")) with (Some (PStr t)).
  change (assoc _ (py "options")) with (Some (PList (PStr <$> o))).
  change (assoc _ (py "answer")) with (Some (PList (PStr <$> a))).
  cbv beta iota. rewrite !decode_strs_encode. by destruct i.
Qed.

Lemma decode_encode_bank qs : decode_bank (encode_question <$> qs) = Some qs.
Proof.
  induction qs as [|q qs IH]; [done|]. cbn [fmap list_fmap decode_bank].
  change (list_fmap _ _ encode_question qs) with (encode_question <$> qs).
  rewrite decode_encode, IH. done.
Qed.

(** The loader does not look at the types: it accepts a bank whose answer
    label is a number, which is no bank of the documented types.  On the
    Python side [submit] stops there with [TypeError], at
    [''.join(sorted(right))]. *)
Lemma loader_accepts_int_answer :
  bank_shaped bank_int_answer = true ∧
  load_questions bank_int_answer = Ok (PList [question_int_answer]) ∧
  decode_bank [question_int_answer] = None.
Proof. split; [reflexivity|]. split; vm_compute; reflexivity. Qed.

(** ** Sample runs *)

(** The end-to-end scenario: both questions answered with the boxes that
    stand for their answers, whatever the display order: nothing wrong. *)
Lemma two_right :
  ∃ s r, run [Clicked 1; Clicked 2; NextClicked true; Clicked 1;
              NextClicked true] session_two = Ok (s, [ResultDialog r]) ∧
         rep_wrong r = 0 ∧ rep_total r = 2 ∧ rep_entries r = [].
Proof. eexists _, _. split; [vm_compute; reflexivity|]. done. Qed.

(** The mismatch scenario: question 1 left open.  The confirmation box
    appears, and the report has the one line of question 1, with answer
    label A and no user label. *)
Lemma one_open :
  ∃ s r, try_submit true session_half
           = Ok (s, [ConfirmSubmit 1; ResultDialog r]) ∧
         rep_wrong r = 1 ∧ rep_total r = 2 ∧
         rep_entries r = [{| e_id := IdInt 1; e_question := py "Q1";
                             e_options := [py "A.x"; py "B.y"];
                             e_right := py "A"; e_user := [] |}].
Proof. eexists _, _. split; [vm_compute; reflexivity|]. done. Qed.

(** The session of the empty option string is reached from its bank file:
    the loader accepts the file, the window shows the question, the user
    ticks box A. *)
Lemma session_blank_reached :
  ∃ v s0 g,
    load_questions bank_blank = Ok (PList [v]) ∧
    decode_bank [v] = Some [q_blank] ∧
    new_window [q_blank] 0 rng0 = Ok (s0, g) ∧
    run [Clicked 0] s0 = Ok (session_blank, []).
Proof.
  eexists _, _, _. split; [reflexivity|]. split; [vm_compute; reflexivity|].
  split; vm_compute; reflexivity.
Qed.

(** An integer id beside a string id: [sorted(wrong)] raises when both
    questions are wrong. *)
Lemma submit_raises_on_mixed_ids :
  session_ok session_mixed ∧ options_labelled (quiz session_mixed) ∧
  submit session_mixed = Raise TypeError.
Proof. split; [by_computation|]. split; [by_computation|]. by vm_compute. Qed.

(** A stored label outside A to H: [abcd.index] raises.  No event stores
    such a label. *)
Lemma submit_raises_on_stray_label :
  perms_cover session_stray ∧ ¬ answers_known session_stray ∧
  submit session_stray = Raise (ValueError MsgNotInList).
Proof.
  split; [by_computation|]. split; [|by vm_compute].
  apply (bool_decide_eq_false_1 (answers_known session_stray)). by vm_compute.
Qed.

(** * The claims *)

(** C3: after [reset_quiz] (run by the constructor and by the retry button)
    every entry of [option_shuffle_map] is a bijection on the indices of its
    question's options; no event of the session (navigation, ticking a box,
    a timer tick, the next and submit buttons with either answer to the
    confirmation) changes an entry or the question order; displaying and
    grading in the later state both read the permutation made at reset. *)
Theorem option_permutation_fixed now g s0 s g' evs s' ds :
  reset_quiz now g s0 = Ok (s, g') →
  run evs s = Ok (s', ds) →
  Forall2 covers (quiz s) (option_shuffle_map s) ∧
  (∀ i q indices, quiz s !! i = Some q → option_shuffle_map s !! i = Some indices →
     length indices = length (options q) ∧ NoDup indices ∧
     ∀ j, j ∈ indices ↔ j < length (options q)) ∧
  option_shuffle_map s' = option_shuffle_map s ∧ quiz s' = quiz s ∧
  (∀ idx s2, show_question idx s' = Ok s2 →
     ∃ q indices saved rows,
       quiz s !! idx = Some q ∧ option_shuffle_map s !! idx = Some indices ∧
       option_rows q indices saved 0 (displayed q) = Ok rows ∧
       option_labels s2 = rows.*2) ∧
  (∀ idx q r, grade_question s' idx q = Ok r →
     ∃ indices answers,
       option_shuffle_map s !! idx = Some indices ∧
       user_answers s' !! idx = Some answers ∧
       (r = None ↔ mapped_labels q indices answers = list_to_set (answer q))).
Proof.
  intros Hreset Hrun.
  apply reset_quiz_Ok in Hreset as (Hok & _).
  destruct (run_ok _ _ _ _ Hok Hrun) as (Hok' & _ & Hquiz & Hmaps).
  pose proof Hok as ((_ & Hc) & _).
  split; [done|]. split; [|split; [done|split; [done|split]]].
  - intros i q indices Hq Hi. apply covers_bijection.
    by eapply (Forall2_lookup_lr _ _ _ _ _ _ Hc).
  - intros idx s2 H. apply show_question_Ok in H.
    destruct H as ((q & ind & saved & rows & Hq & Hi & _ & Hrows & _ & Hl & _) & _).
    rewrite Hquiz in Hq. rewrite Hmaps in Hi. by exists q, ind, saved, rows.
  - intros idx q r H. apply grade_question_Ok in H.
    destruct H as (ind & ans & Hi & Ha & Hr & _). rewrite Hmaps in Hi.
    by exists ind, ans.
Qed.

(** C9: going to a question in range changes the current index and the
    displayed widgets only; the stored answers, the permutations, the
    question order and the clock stay as they are, and coming back to the
    question left shows its boxes ticked for the answers stored. *)
Theorem goto_keeps_answers s idx :
  session_ok s →
  (0 ≤ idx < Z.of_nat (length (quiz s)))%Z →
  ∃ s',
    switch_question idx s = Ok s' ∧
    current_index s' = Z.to_nat idx ∧
    user_answers s' = user_answers s ∧
    option_shuffle_map s' = option_shuffle_map s ∧
    quiz s' = quiz s ∧ bank s' = bank s ∧
    start_time s' = start_time s ∧ elapsed_seconds s' = elapsed_seconds s ∧
    timer_active s' = timer_active s ∧ timer_label s' = timer_label s ∧
    ∃ s'' q saved,
      switch_question (Z.of_nat (current_index s)) s' = Ok s'' ∧
      current_index s'' = current_index s ∧
      user_answers s'' = user_answers s ∧
      option_shuffle_map s'' = option_shuffle_map s ∧
      quiz s'' = quiz s ∧
      quiz s !! current_index s = Some q ∧
      user_answers s !! current_index s = Some saved ∧
      checkboxes s'' = box saved <$> displayed q.
Proof.
  intros Hok Hidx. pose proof Hok as (Hc & Hn & Hcur & Ha).
  unfold switch_question at 1. rewrite (proj2 (Z.leb_le 0 idx)) by lia.
  destruct (show_question_total (Z.to_nat idx) s Hc Hn) as [s' Hs']; [lia|].
  exists s'. split; [done|].
  pose proof (show_question_ok _ _ _ Hc Hn Ha Hs') as Hok'.
  apply show_question_Ok in Hs'.
  destruct Hs' as (_ & Hi & (Hb & Hquiz & Hmaps) & Hu & Hnav & Ht & Htl & Hst & Hel).
  do 9 (split; [done|]).
  destruct (quiz s !! current_index s) as [q|] eqn:Hq; [|done].
  pose proof (lookup_lt_Some _ _ _ Hq) as Hlt.
  unfold switch_question. rewrite (proj2 (Z.leb_le 0 _)) by lia.
  rewrite Nat2Z.id.
  destruct Hok' as (Hc' & Hn' & _ & Ha').
  destruct (show_question_total (current_index s) s' Hc' Hn') as [s'' Hs''].
  { by rewrite Hquiz. }
  destruct (show_question_Ok _ _ _ Hs'')
    as ((q' & ind & saved & rows & Hq' & _ & Hsaved & Hrows & Hcb & _)
        & Hi' & (_ & Hquiz' & Hmaps') & Hu' & _).
  rewrite Hquiz, Hq in Hq'. injection Hq' as <-. rewrite Hu in Hsaved.
  apply option_rows_Ok in Hrows as (Hrows & _).
  exists s'', q, saved. rewrite Hi', Hu', Hu, Hmaps', Hmaps, Hquiz', Hquiz, Hcb.
  done.
Qed.

(** C6: [try_submit] counts the questions whose answer set is empty; with
    a positive count it asks for confirmation, leaves the window as it is
    on refusal and grades on consent; with a count of zero it grades
    without asking. *)
Theorem try_submit_confirms yes s :
  unanswered s = length (filter (λ ans : gset pystr, ans = ∅) (user_answers s)) ∧
  (0 < unanswered s → yes = false →
     try_submit yes s = Ok (s, [ConfirmSubmit (unanswered s)])) ∧
  (0 < unanswered s → yes = true →
     try_submit yes s =
       '(s', r) ← submit s; Ok (s', [ConfirmSubmit (unanswered s); ResultDialog r])) ∧
  (unanswered s = 0 →
     try_submit yes s = '(s', r) ← submit s; Ok (s', [ResultDialog r])).
Proof.
  split; [|split; [|split]].
  - unfold unanswered. rewrite sum_list_fmap_const. lia.
  - intros Hn ->. unfold try_submit. by rewrite bool_decide_eq_true_2.
  - intros Hn ->. unfold try_submit. by rewrite bool_decide_eq_true_2.
  - intros Hn. unfold try_submit. rewrite bool_decide_eq_false_2 by lia. done.
Qed.

Lemma mapped_labels_empty q indices : mapped_labels q indices ∅ = ∅.
Proof. unfold mapped_labels, set_omap. by rewrite elements_empty. Qed.

(** C1 as stated fails: in this session, reached from a bank the loader
    accepts, the ticked box A stands for an option that is the empty
    string; the selection does not match the answer, and the grading loop
    gives no verdict: it raises [IndexError] at
    [q['options'][orig_idx][0]]. *)
Lemma grading_gives_no_verdict :
  session_ok session_blank ∧
  quiz session_blank !! 0 = Some q_blank ∧
  option_shuffle_map session_blank !! 0 = Some [0] ∧
  user_answers session_blank !! 0 = Some {[py "A"]} ∧
  mapped_labels q_blank [0] {[py "A"]} ≠ list_to_set (answer q_blank) ∧
  grade_question session_blank 0 q_blank = Raise IndexError.
Proof.
  split; [by_computation|]. do 3 (split; [reflexivity|]).
  split; [by_computation | by vm_compute].
Qed.

(** C1 (amended): in a session over questions of the documented types
    ([l], the Python list [self.quiz], decodes to the session's questions)
    whose option strings are all non-empty, with permutations that cover
    the options and stored labels among A to H, the grading loop gives a
    verdict for every question: it puts the question on the [wrong] list
    unless the set of original labels that the user's displayed labels
    stand for under the question's permutation equals the set of the
    question's answer labels; in particular an empty selection against a
    non-empty answer is wrong.  The loop's verdicts are the ones [submit]
    counts. *)
Theorem grading_exact l s i q :
  decode_bank l = Some (quiz s) →
  perms_cover s →
  answers_known s →
  options_labelled (quiz s) →
  quiz s !! i = Some q →
  ∃ indices answers r,
    option_shuffle_map s !! i = Some indices ∧
    user_answers s !! i = Some answers ∧
    grade_question s i q = Ok r ∧
    (r = None ↔ mapped_labels q indices answers = list_to_set (answer q)) ∧
    (answers = ∅ → answer q ≠ [] → r ≠ None) ∧
    ∀ s' rep, submit s = Ok (s', rep) →
      ∃ rs, graded s rs ∧ rs !! i = Some r ∧
            rep_wrong rep = length (omap id rs).
Proof.
  intros _ Hc Ha Hopts Hq.
  destruct (grade_question_total s i q Hc Hq) as [r Hr].
  { unfold options_labelled in Hopts. rewrite Forall_forall in Hopts.
    apply Hopts. by eapply list_elem_of_lookup_2. }
  { intros ans Hans. unfold answers_known in Ha. rewrite Forall_forall in Ha.
    apply Ha. by eapply list_elem_of_lookup_2. }
  destruct (grade_question_Ok _ _ _ _ Hr) as (indices & answers & Hi & Hans & Hiff & _).
  exists indices, answers, r. do 4 (split; [done|]). split.
  - intros -> Hne. rewrite Hiff, mapped_labels_empty.
    destruct (answer q) as [|x l']; [done|]. cbn. set_solver.
  - intros s' rep Hs. apply submit_Ok in Hs as (_ & rs & Hg & Hw & _).
    exists rs. split; [done|]. split; [|done].
    destruct Hg as [_ Hg]. destruct (Hg i q Hq) as (r' & Hr' & Hgr).
    rewrite Hr in Hgr. by injection Hgr as <-.
Qed.

Lemma displayed_lookup q i ab :
  displayed q !! i = Some ab →
  abcd !! i = Some ab ∧ i < length (options q) ∧ i < 8.
Proof.
  unfold displayed. intros H. apply lookup_take_Some in H as [H Hlt].
  split; [done|]. split; [done|]. by apply lookup_lt_Some in H.
Qed.


Lemma take_min_abcd n : take (n `min` 8) abcd = take n abcd.
Proof.
  destruct (decide (n ≤ 8)).
  - by rewrite Nat.min_l.
  - rewrite Nat.min_r by lia. by rewrite !take_ge by (cbn; lia).
Qed.


(** C7: the report of [submit] gives the number of mismatches, the number
    of questions, and one line per mismatch in ascending order of question
    id; a line carries the id, the text and the option list of its
    question, the answer labels in ascending order and the user's mapped
    labels in ascending order. *)
Theorem report_contents s s' rep :
  submit s = Ok (s', rep) →
  ∃ rs,
    graded s rs ∧
    rep_wrong rep = length (omap id rs) ∧
    rep_wrong rep = length (rep_entries rep) ∧
    rep_total rep = length (quiz s) ∧
    rep_entries rep ≡ₚ omap id rs ∧
    StronglySorted by_id (rep_entries rep) ∧
    ∀ e, e ∈ rep_entries rep →
      ∃ i q indices answers,
        quiz s !! i = Some q ∧ option_shuffle_map s !! i = Some indices ∧
        user_answers s !! i = Some answers ∧
        mapped_labels q indices answers ≠ list_to_set (answer q) ∧
        e_id e = qid q ∧ e_question e = question q ∧ e_options e = options q ∧
        ∃ sr su, e_right e = concat sr ∧ e_user e = concat su ∧
                 sorted_labels sr (list_to_set (answer q)) ∧
                 sorted_labels su (mapped_labels q indices answers).
Proof.
  intros H. apply submit_Ok in H as (_ & rs & Hg & Hw & Ht & _ & Hp & Hs).
  exists rs. do 2 (split; [done|]). split; [by rewrite Hp|].
  do 3 (split; [done|]).
  intros e He. rewrite Hp in He. apply list_elem_of_omap in He as (r & Hr & Hre).
  cbn in Hre. subst r. apply list_elem_of_lookup in Hr as [i Hi].
  destruct Hg as [Hlen Hg].
  destruct (lookup_lt_is_Some_2 (quiz s) i) as [q Hq].
  { rewrite <- Hlen. by eapply lookup_lt_Some. }
  destruct (Hg i q Hq) as (r & Hr & Hgr). rewrite Hi in Hr. injection Hr as <-.
  apply grade_question_Ok in Hgr as (ind & ans & Hind & Hans & Hiff & Hfields).
  exists i, q, ind, ans. do 3 (split; [done|]). split.
  - intros E. apply Hiff in E. done.
  - by apply Hfields.
Qed.

(** C8 as stated fails: in this session the permutation covers the one
    option, the ticked label is a displayed one, and [submit] raises
    [IndexError] at [q['options'][orig_idx][0]], the option being the empty
    string. *)
Lemma submit_raises_on_empty_option :
  perms_cover session_blank ∧ session_ok session_blank ∧
  ids_comparable (quiz session_blank) ∧
  submit session_blank = Raise IndexError.
Proof.
  split; [by_computation|]. split; [by_computation|].
  split; [by_computation|]. by vm_compute.
Qed.

(** C8 (amended): in a session over questions of the documented types
    ([l], the Python list [self.quiz], decodes to the session's questions:
    ids that are integers or strings, texts and options that are strings,
    answer labels that are strings) whose permutations cover the questions'
    option lists, in which every option string is non-empty and the ids are
    all integers or all strings, [submit] returns a report for any stored
    answers made of the labels A to H; it leaves the questions, the
    permutations and the stored answers as they are and only stops the
    timer. *)
Theorem grading_total l s :
  decode_bank l = Some (quiz s) →
  perms_cover s →
  answers_known s →
  options_labelled (quiz s) →
  ids_comparable (quiz s) →
  ∃ s' rep,
    submit s = Ok (s', rep) ∧
    s' = set_timer false s ∧
    bank s' = bank s ∧ quiz s' = quiz s ∧
    option_shuffle_map s' = option_shuffle_map s ∧
    user_answers s' = user_answers s ∧
    current_index s' = current_index s.
Proof.
  intros _ Hc Ha Hopts Hids.
  destruct (submit_total s Hc Ha Hopts Hids) as [[s' rep] H].
  exists s', rep. split; [done|].
  apply submit_Ok in H as (-> & _). done.
Qed.

(** * The theorems at the sample sessions *)





Lemma grading_exact_witness :
  decode_bank (encode_question <$> [q_two; q_one]) = Some (quiz session_half) ∧
  perms_cover session_half ∧ answers_known session_half ∧
  options_labelled (quiz session_half) ∧
  quiz session_half !! 0 = Some q_two ∧
  option_shuffle_map session_half !! 0 = Some [0; 2; 1] ∧
  user_answers session_half !! 0 = Some {[py "B"; py "C"]} ∧
  mapped_labels q_two [0; 2; 1] {[py "B"; py "C"]} = list_to_set (answer q_two) ∧
  grade_question session_half 0 q_two = Ok None.
Proof.
  assert (Hd : decode_bank (encode_question <$> [q_two; q_one])
               = Some (quiz session_half)) by (vm_compute; reflexivity).
  assert (H0 : perms_cover session_half) by by_computation.
  assert (H1 : answers_known session_half) by by_computation.
  assert (H2 : options_labelled (quiz session_half)) by by_computation.
  assert (H3 : quiz session_half !! 0 = Some q_two) by reflexivity.
  assert (H4 : option_shuffle_map session_half !! 0 = Some [0; 2; 1])
    by reflexivity.
  assert (H5 : user_answers session_half !! 0 = Some {[py "B"; py "C"]})
    by (vm_compute; reflexivity).
  do 7 (split; [assumption|]).
  destruct (grading_exact _ session_half 0 q_two Hd H0 H1 H2 H3)
    as (indices & answers & r & Hi & Ha & Hr & Hiff & _).
  rewrite H4 in Hi. injection Hi as <-.
  rewrite H5 in Ha. injection Ha as <-.
  assert (Hm : mapped_labels q_two [0; 2; 1] {[py "B"; py "C"]}
               = list_to_set (answer q_two)) by (vm_compute; reflexivity).
  split; [exact Hm|]. rewrite Hr. f_equal. apply Hiff. exact Hm.
Defined.


Lemma option_permutation_fixed_witness :
  reset_quiz 0 rng0 before_two = Ok (session_two, rng4) ∧
  run [Clicked 0; RowChanged 1; Clicked 0] session_two = Ok (session_wrong, []) ∧
  Forall2 covers (quiz session_two) (option_shuffle_map session_two) ∧
  option_shuffle_map session_wrong = option_shuffle_map session_two ∧
  quiz session_wrong = quiz session_two.
Proof.
  assert (H1 : reset_quiz 0 rng0 before_two = Ok (session_two, rng4))
    by (vm_compute; reflexivity).
  assert (H2 : run [Clicked 0; RowChanged 1; Clicked 0] session_two
               = Ok (session_wrong, [])) by (vm_compute; reflexivity).
  do 2 (split; [assumption|]).
  destruct (option_permutation_fixed _ _ _ _ _ _ _ _ H1 H2)
    as (Hc & _ & Hm & Hq & _).
  repeat split; assumption.
Defined.

Lemma try_submit_confirms_witness :
  0 < unanswered session_half ∧
  try_submit false session_half
    = Ok (session_half, [ConfirmSubmit (unanswered session_half)]).
Proof.
  assert (H : 0 < unanswered session_half) by (vm_compute; lia).
  split; [assumption|].
  exact (proj1 (proj2 (try_submit_confirms false session_half)) H eq_refl).
Defined.

Lemma report_contents_witness :
  submit session_wrong
    = Ok (set_timer false session_wrong,
          {| rep_time := (0, 0, 0)%Z; rep_wrong := 2; rep_total := 2;
             rep_entries :=
               [{| e_id := IdInt 1; e_question := py "Q1";
                   e_options := [py "A.x"; py "B.y"];
                   e_right := py "A"; e_user := py "B" |};
                {| e_id := IdInt 2; e_question := py "Q2";
                   e_options := [py "A.p"; py "B.q"; py "C.r"];
                   e_right := py "BC"; e_user := py "A" |}] |}) ∧
  qid <$> quiz session_wrong = [IdInt 2; IdInt 1] ∧
  StronglySorted by_id
    [{| e_id := IdInt 1; e_question := py "Q1";
        e_options := [py "A.x"; py "B.y"];
        e_right := py "A"; e_user := py "B" |};
     {| e_id := IdInt 2; e_question := py "Q2";
        e_options := [py "A.p"; py "B.q"; py "C.r"];
        e_right := py "BC"; e_user := py "A" |}].
Proof.
  assert (H : submit session_wrong
    = Ok (set_timer false session_wrong,
          {| rep_time := (0, 0, 0)%Z; rep_wrong := 2; rep_total := 2;
             rep_entries :=
               [{| e_id := IdInt 1; e_question := py "Q1";
                   e_options := [py "A.x"; py "B.y"];
                   e_right := py "A"; e_user := py "B" |};
                {| e_id := IdInt 2; e_question := py "Q2";
                   e_options := [py "A.p"; py "B.q"; py "C.r"];
                   e_right := py "BC"; e_user := py "A" |}] |}))
    by (vm_compute; reflexivity).
  split; [assumption|]. split; [reflexivity|].
  destruct (report_contents _ _ _ H) as (rs & _ & _ & _ & _ & _ & Hs & _).
  exact Hs.
Defined.

Lemma grading_total_witness :
  decode_bank (encode_question <$> [q_two; q_one]) = Some (quiz session_wrong) ∧
  perms_cover session_wrong ∧ answers_known session_wrong ∧
  options_labelled (quiz session_wrong) ∧
  ids_comparable (quiz session_wrong) ∧
  ∃ s' rep,
    submit session_wrong = Ok (s', rep) ∧
    s' = set_timer false session_wrong ∧
    bank s' = bank session_wrong ∧ quiz s' = quiz session_wrong ∧
    option_shuffle_map s' = option_shuffle_map session_wrong ∧
    user_answers s' = user_answers session_wrong ∧
    current_index s' = current_index session_wrong.
Proof.
  assert (Hd : decode_bank (encode_question <$> [q_two; q_one])
               = Some (quiz session_wrong)) by (vm_compute; reflexivity).
  assert (H0 : perms_cover session_wrong) by by_computation.
  assert (H1 : answers_known session_wrong) by by_computation.
  assert (H2 : options_labelled (quiz session_wrong)) by by_computation.
  assert (H3 : ids_comparable (quiz session_wrong)) by by_computation.
  do 5 (split; [assumption|]).
  exact (grading_total _ session_wrong Hd H0 H1 H2 H3).
Defined.

Lemma goto_keeps_answers_witness :
  session_ok session_half ∧
  ∃ s',
    switch_question 1 session_half = Ok s' ∧
    current_index s' = 1 ∧
    user_answers s' = user_answers session_half ∧
    ∃ s'', switch_question 0 s' = Ok s'' ∧
           user_answers s'' = user_answers session_half ∧
           checkboxes s'' = checkboxes session_half.
Proof.
  assert (H1 : session_ok session_half) by by_computation.
  split; [assumption|].
  destruct (goto_keeps_answers session_half 1 H1)
    as (s' & Hs' & Hi & Hu & _ & _ & _ & _ & _ & _ & _
        & s'' & q & saved & Hs'' & _ & Hu'' & _ & _ & Hq & Hsaved & Hcb).
  { vm_compute. split; [discriminate | reflexivity]. }
  exists s'. do 3 (split; [assumption|]).
  exists s''. do 2 (split; [assumption|]).
  rewrite Hcb. vm_compute in Hq. injection Hq as <-.
  vm_compute in Hsaved. injection Hsaved as <-.
  vm_compute. reflexivity.
Defined.


(** * Further properties of the code *)

(** ** [update_timer] *)

(** X1: a timer tick stores the number of whole seconds it is given (the
    value of [int(time.time() - self.start_time)]) and shows it as hours,
    minutes and seconds that add up to exactly that number, with minutes
    and seconds between 0 and 59 and hours negative exactly when the
    number is; it writes nothing else. *)
Theorem update_timer_splits elapsed s :
  let s' := update_timer elapsed s in
  let '(h, m, sec) := timer_label s' in
  elapsed_seconds s' = elapsed ∧
  (h * 3600 + m * 60 + sec = elapsed)%Z ∧
  (0 ≤ m < 60)%Z ∧ (0 ≤ sec < 60)%Z ∧
  ((0 ≤ h)%Z ↔ (0 ≤ elapsed)%Z) ∧
  user_answers s' = user_answers s ∧ quiz s' = quiz s ∧
  option_shuffle_map s' = option_shuffle_map s ∧
  current_index s' = current_index s ∧ checkboxes s' = checkboxes s ∧
  nav_list s' = nav_list s ∧ start_time s' = start_time s ∧
  timer_active s' = timer_active s.
Proof.
  cbn. set (e := elapsed).
  split; [done|].
  pose proof (Z.div_mod e 3600 ltac:(lia)) as H1.
  pose proof (Z.mod_pos_bound e 3600 ltac:(lia)) as H2.
  pose proof (Z.div_mod (e mod 3600) 60 ltac:(lia)) as H3.
  pose proof (Z.mod_pos_bound (e mod 3600) 60 ltac:(lia)) as H4.
  pose proof (Z.mod_pos_bound e 60 ltac:(lia)) as H5.
  assert (H6 : ((e mod 3600) mod 60 = e mod 60)%Z).
  { apply Z.mod_mod_divide. exists 60%Z. lia. }
  split; [lia|]. split.
  { split; [apply Z.div_pos; lia | apply Z.div_lt_upper_bound; lia]. }
  split; [lia|]. split; [|done].
  split; intros Hle; [lia | apply Z.div_pos; lia].
Qed.

Lemma update_timer_splits_witness :
  timer_label (update_timer 3725 session_two) = (1, 2, 5)%Z ∧
  timer_label (update_timer 59 session_two) = (0, 0, 59)%Z ∧
  timer_label (update_timer (-1) session_two) = (-1, 59, 59)%Z ∧
  elapsed_seconds (update_timer 3725 session_two) = 3725%Z ∧
  (1 * 3600 + 2 * 60 + 5 = 3725)%Z ∧
  user_answers (update_timer 3725 session_two) = user_answers session_two.
Proof.
  do 3 (split; [reflexivity|]).
  pose proof (update_timer_splits 3725 session_two) as H. cbv zeta in H.
  change (timer_label (update_timer 3725 session_two)) with (1, 2, 5)%Z in H.
  destruct H as (He & Hsum & _ & _ & _ & Hu & _).
  split; [exact He|]. split; [exact Hsum | exact Hu].
Defined.

(** ** [switch_question] and [show_question] out of range *)

(** X2: a negative row (Qt's "no row") is ignored and leaves the window as
    it is; a row at or beyond the number of questions raises [IndexError]
    at [self.quiz[idx]]. *)
Theorem switch_question_bounds idx s :
  ((idx < 0)%Z → switch_question idx s = Ok s) ∧
  ((Z.of_nat (length (quiz s)) ≤ idx)%Z →
     switch_question idx s = Raise IndexError).
Proof.
  unfold switch_question. split; intros H.
  - by rewrite (proj2 (Z.leb_gt 0 idx)) by lia.
  - rewrite (proj2 (Z.leb_le 0 idx)) by lia.
    unfold show_question, getitem.
    rewrite (proj2 (lookup_ge_None (quiz s) (Z.to_nat idx))) by lia. done.
Qed.

Lemma switch_question_bounds_witness :
  switch_question (-1) session_two = Ok session_two ∧
  switch_question 2 session_two = Raise IndexError.
Proof.
  split.
  - apply (proj1 (switch_question_bounds (-1) session_two)). reflexivity.
  - apply (proj2 (switch_question_bounds 2 session_two)). vm_compute. discriminate.
Defined.

(** ** More on [load_questions] *)

Lemma check_fields_raise i q fields e :
  check_fields i q fields = Raise e →
  e = TypeError ∨ ∃ field, field ∈ fields ∧ e = ValueError (MsgMissingField (i + 1) field).
Proof.
  induction fields as [|f fields IH]; cbn [check_fields]; [done|].
  destruct (py_contains q f) as [b|e'] eqn:E.
  - rewrite bind_Ok_l. destruct b; cbn [negb].
    + intros H. destruct (IH H) as [->|(field & Hin & ->)]; [by left|].
      right. exists field. split; [by apply list_elem_of_further | done].
    + intros [= <-]. right. exists f. split; [apply list_elem_of_here | done].
  - rewrite bind_Raise_l. intros [= <-]. left.
    destruct q; cbn in E; congruence.
Qed.

Lemma check_questions_raise i qs e :
  check_questions i qs = Raise e →
  e = TypeError ∨
  ∃ n field, i < n ∧ field ∈ required_fields ∧ e = ValueError (MsgMissingField n field).
Proof.
  revert i. induction qs as [|q qs IH]; intros i; cbn [check_questions]; [done|].
  destruct (check_fields i q required_fields) as [[]|e'] eqn:E.
  - rewrite bind_Ok_l. intros H.
    destruct (IH _ H) as [->|(n & field & Hn & Hin & ->)]; [by left|].
    right. exists n, field. split; [lia | done].
  - rewrite bind_Raise_l. intros [= <-].
    destruct (check_fields_raise _ _ _ _ E) as [->|(field & Hin & ->)]; [by left|].
    right. exists (i + 1), field. split; [lia | done].
Qed.

(** X3: of all the ways loading can fail, only a file that is not
    well-formed JSON is reported as [ValueError]; a missing or unreadable
    file, a missing 'questions' key and a missing field (with the number of
    the question, counted from 1, and the name of the field) all come out
    as [RuntimeError] around the original error, the loader's own
    [ValueError]s included; a value of the wrong kind comes out as
    [RuntimeError] around [TypeError]. *)
Theorem load_questions_errors f e :
  load_questions f = Raise e →
  match f with
  | Absent => e = RuntimeError FileNotFoundError
  | Unreadable => e = RuntimeError OSError
  | Malformed => e = ValueError MsgBadFormat
  | Parsed data =>
      e = RuntimeError TypeError ∨
      e = RuntimeError (ValueError MsgNoQuestionsField) ∨
      ∃ n field, 1 ≤ n ∧ field ∈ required_fields ∧
                 e = RuntimeError (ValueError (MsgMissingField n field))
  end.
Proof.
  unfold load_questions. destruct f as [| | |data]; cbn [load_questions_try].
  - by intros [= <-].
  - by intros [= <-].
  - by intros [= <-].
  - destruct (py_contains data (py "questions")) as [b|e'] eqn:Ec.
    2:{ rewrite bind_Raise_l. destruct data; cbn in Ec; try discriminate Ec;
        injection Ec as <-; intros [= <-]; by left. }
    rewrite bind_Ok_l. destruct b; cbn [negb].
    2:{ intros [= <-]. right. by left. }
    destruct (py_getitem data (py "questions")) as [qs|e'] eqn:Eg.
    2:{ rewrite bind_Raise_l.
        destruct data as [| | | | | |kvs]; cbn in Eg; try discriminate Ec;
          try (injection Eg as <-; intros [= <-]; by left).
        rewrite contains_dict in Ec. injection Ec as Ec. cbn [has_key] in Ec.
        apply bool_decide_eq_true in Ec as [v Hv]. rewrite Hv in Eg. done. }
    rewrite bind_Ok_l.
    destruct (py_iter qs) as [items|e'] eqn:Ei.
    2:{ rewrite bind_Raise_l. destruct qs; cbn in Ei; try discriminate Ei;
        injection Ei as <-; intros [= <-]; by left. }
    rewrite bind_Ok_l.
    destruct (check_questions 0 items) as [[]|e'] eqn:Eq.
    { rewrite bind_Ok_l. discriminate. }
    rewrite bind_Raise_l.
    destruct (check_questions_raise _ _ _ Eq) as [->|(n & field & Hn & Hin & ->)].
    + intros [= <-]. by left.
    + intros [= <-]. right. right. exists n, field. split; [lia | done].
Qed.

Lemma load_questions_errors_witness :
  load_questions bank_no_options
    = Raise (RuntimeError (ValueError (MsgMissingField 2 (py "question")))) ∧
  (RuntimeError (ValueError (MsgMissingField 2 (py "question")))
     = RuntimeError TypeError ∨
   RuntimeError (ValueError (MsgMissingField 2 (py "question")))
     = RuntimeError (ValueError MsgNoQuestionsField) ∨
   ∃ n field, 1 ≤ n ∧ field ∈ required_fields ∧
     RuntimeError (ValueError (MsgMissingField 2 (py "question")))
       = RuntimeError (ValueError (MsgMissingField n field))).
Proof.
  assert (H : load_questions bank_no_options
    = Raise (RuntimeError (ValueError (MsgMissingField 2 (py "question")))))
    by reflexivity.
  split; [assumption|].
  exact (load_questions_errors bank_no_options _ H).
Defined.

Lemma check_fields_first i kvs fields field :
  List.find (λ f, negb (has_key (PDict kvs) f)) fields = Some field →
  check_fields i (PDict kvs) fields
    = Raise (ValueError (MsgMissingField (i + 1) field)).
Proof.
  induction fields as [|f fields IH]; cbn [List.find check_fields]; [done|].
  rewrite contains_dict, bind_Ok_l.
  destruct (has_key (PDict kvs) f); cbn [negb]; [exact IH | by intros [= ->]].
Qed.

Lemma check_questions_first j l i q field :
  Forall (λ q', is_object q' = true ∧ lacks_field q' = false) (take i l) →
  l !! i = Some q → is_object q = true → first_missing q = Some field →
  check_questions j l = Raise (ValueError (MsgMissingField (j + i + 1) field)).
Proof.
  revert j i. induction l as [|q' l IH]; intros j [|i] Hbefore Hq Hobj Hfirst;
    try discriminate Hq; cbn [check_questions].
  - injection Hq as ->. destruct q as [| | | | | |kvs]; try discriminate Hobj.
    rewrite (check_fields_first j kvs _ field Hfirst), bind_Raise_l.
    by rewrite Nat.add_0_r.
  - change (take (S i) (q' :: l)) with (q' :: take i l) in Hbefore.
    change (l !! i = Some q) in Hq.
    apply Forall_cons in Hbefore as [[Ho Hl] Hbefore].
    destruct q' as [| | | | | |kvs']; try discriminate Ho.
    rewrite lacks_field_forallb in Hl. apply negb_false_iff in Hl.
    rewrite (proj2 (check_fields_Ok j kvs' required_fields) Hl), bind_Ok_l.
    rewrite (IH (S j) i Hbefore Hq Hobj Hfirst). do 3 f_equal. lia.
Qed.

(** X4: when the questions before number [i + 1] are complete objects and
    question [i + 1] is an object without some field, the error names that
    question by its number counted from 1 and the first field it lacks in
    the order 'id', 'question', 'options', 'answer'; later questions are
    not looked at. *)
Theorem load_reports_first_gap kvs l i q field :
  assoc kvs (py "questions") = Some (PList l) →
  Forall (λ q', is_object q' = true ∧ lacks_field q' = false) (take i l) →
  l !! i = Some q →
  is_object q = true →
  first_missing q = Some field →
  load_questions (Parsed (PDict kvs))
    = Raise (RuntimeError (ValueError (MsgMissingField (i + 1) field))).
Proof.
  intros Hq Hbefore Hi Hobj Hfirst.
  unfold load_questions. cbn [load_questions_try].
  rewrite contains_dict, bind_Ok_l. cbn [has_key py_getitem]. rewrite Hq.
  rewrite bool_decide_eq_true_2 by eauto. cbn [negb].
  rewrite bind_Ok_l. cbn [py_iter]. rewrite bind_Ok_l.
  by rewrite (check_questions_first 0 l i q field Hbefore Hi Hobj Hfirst).
Qed.

Lemma load_reports_first_gap_witness :
  load_questions bank_no_options
    = Raise (RuntimeError (ValueError (MsgMissingField (1 + 1) (py "question")))).
Proof.
  apply (load_reports_first_gap
           [(py "questions",
             PList [PDict fields_no_answer;
                    PDict [(py "id", PInt 2); (py "answer", PList [])]])]
           [PDict fields_no_answer;
            PDict [(py "id", PInt 2); (py "answer", PList [])]]
           1 (PDict [(py "id", PInt 2); (py "answer", PList [])])).
  - reflexivity.
  - repeat constructor.
  - reflexivity.
  - reflexivity.
  - reflexivity.
Defined.

Lemma check_fields_passes i q fields :
  check_fields i q fields = Ok tt ↔
  ∀ field, field ∈ fields → py_contains q field = Ok true.
Proof.
  induction fields as [|f fields IH]; cbn [check_fields].
  - split; [intros _ field Hin; by apply elem_of_nil in Hin | done].
  - split.
    + intros H. apply bind_Ok in H as (b & Hb & H).
      destruct b; [|discriminate]. cbn [negb] in H.
      intros field Hin. apply elem_of_cons in Hin as [->|Hin]; [done|].
      by apply IH.
    + intros H. rewrite (H f) by apply list_elem_of_here.
      rewrite bind_Ok_l. cbn [negb]. apply IH. intros field Hin.
      apply H. by apply list_elem_of_further.
Qed.

Lemma check_questions_passes i l :
  check_questions i l = Ok tt ↔ Forall passes l.
Proof.
  revert i. induction l as [|q l IH]; intros i; cbn [check_questions].
  - split; [constructor | done].
  - rewrite Forall_cons. split.
    + intros H. apply bind_Ok in H as ([] & Hq & H).
      split; [exact (proj1 (check_fields_passes i q _) Hq) | by apply (IH (S i))].
    + intros [Hq Hl]. rewrite (proj2 (check_fields_passes i q _) Hq), bind_Ok_l.
      by apply IH.
Qed.

Lemma substring_of_passes s :
  forallb (λ field, substring_of field s) required_fields = true →
  passes (PStr s).
Proof.
  intros H field Hin. cbn. f_equal.
  rewrite forallb_forall in H. apply H. by apply list_elem_of_In.
Qed.

Lemma list_of_names_passes items :
  (∀ field, field ∈ required_fields → PStr field ∈ items) →
  passes (PList items).
Proof.
  intros H field Hin. cbn. f_equal. apply existsb_exists.
  exists (PStr field). split; [by apply list_elem_of_In, H|].
  by apply bool_decide_eq_true_2.
Qed.

(** X5: the field test is Python's [in], so for a list under 'questions'
    the loader succeeds exactly when [field in q] holds for every question
    and field; a question need not be an object: a string that contains the
    four names, or a list that has them as items, passes and is returned
    although it has no fields to read. *)
Theorem load_accepts_by_membership kvs l :
  assoc kvs (py "questions") = Some (PList l) →
  (load_questions (Parsed (PDict kvs)) = Ok (PList l) ↔ Forall passes l) ∧
  (∀ s, forallb (λ field, substring_of field s) required_fields = true →
     passes (PStr s) ∧ decode_question (PStr s) = None) ∧
  (∀ items, (∀ field, field ∈ required_fields → PStr field ∈ items) →
     passes (PList items) ∧ decode_question (PList items) = None).
Proof.
  intros Hq. split; [|split].
  - rewrite load_questions_Ok. cbn [load_questions_try].
    rewrite contains_dict, bind_Ok_l. cbn [has_key py_getitem]. rewrite Hq.
    rewrite bool_decide_eq_true_2 by eauto. cbn [negb].
    rewrite bind_Ok_l. cbn [py_iter]. rewrite bind_Ok_l.
    rewrite <- (check_questions_passes 0).
    destruct (check_questions 0 l) as [[]|e]; [by rewrite bind_Ok_l|].
    rewrite bind_Raise_l. split; discriminate.
  - intros s Hs. split; [by apply substring_of_passes | done].
  - intros items Hi. split; [by apply list_of_names_passes | done].
Qed.

Lemma load_accepts_by_membership_witness :
  load_questions (file_of [question_as_text; question_as_list])
    = Ok (PList [question_as_text; question_as_list]).
Proof.
  destruct (load_accepts_by_membership
              [(py "questions", PList [question_as_text; question_as_list])]
              [question_as_text; question_as_list] eq_refl)
    as (Hiff & Htext & Hlist).
  apply Hiff. constructor; [|constructor; [|constructor]].
  - apply Htext. reflexivity.
  - apply Hlist. intros field Hin. unfold required_fields in Hin.
    unfold question_as_list.
    repeat (apply elem_of_cons in Hin as [->|Hin];
            [repeat first [apply list_elem_of_here | apply list_elem_of_further]|]).
    by apply elem_of_nil in Hin.
Defined.

(** ** The widgets follow the stored answers *)

Lemma nav_colours_spec answers i n c :
  nav_colours answers (seq i n) = Ok c →
  c = (λ ans : gset pystr, negb (bool_decide (ans = ∅))) <$> take n (drop i answers).
Proof.
  revert i c. induction n as [|n IH]; intros i c H; cbn [seq nav_colours] in H.
  - by injection H as <-.
  - apply bind_Ok in H as (ans & Hans & H). apply getitem_Ok in Hans.
    apply bind_Ok in H as (colours & Hc & [= <-]).
    rewrite (drop_S _ _ _ Hans). cbn. f_equal. rewrite (IH _ _ Hc).
    done.
Qed.

Lemma update_nav_status_nav s s' :
  update_nav_status s = Ok s' →
  length (nav_list s) = length (user_answers s) →
  nav_synced s' ∧ next_btn s' = next_btn s.
Proof.
  unfold update_nav_status, nav_synced. intros H Hlen.
  apply bind_Ok in H as (colours & Hc & [= <-]). cbn.
  apply nav_colours_spec in Hc. rewrite Hc, Hlen. by rewrite drop_0, firstn_all.
Qed.

Lemma displayed_NoDup q : NoDup (displayed q).
Proof.
  unfold displayed. eapply sublist_NoDup; [apply abcd_NoDup | apply sublist_take].
Qed.

Lemma show_question_synced idx s s' :
  perms_cover s → length (nav_list s) = length (quiz s) →
  Forall2 (λ q (ans : gset pystr), ans ⊆ list_to_set (displayed q))
    (quiz s) (user_answers s) →
  show_question idx s = Ok s' → widgets_synced s'.
Proof.
  intros Hc Hn Ha H. pose proof (show_question_ok _ _ _ Hc Hn Ha H) as Hok.
  split; [done|].
  destruct (show_question_Ok _ _ _ H)
    as ((q & ind & saved & rows & Hq & _ & Hsaved & Hrows & Hcb & _) & Hidx
        & (_ & Hquiz & _) & Hu & _).
  apply option_rows_Ok in Hrows as (Hrows & _).
  split; [|].
  { unfold boxes_synced. by rewrite Hidx, Hquiz, Hu, Hq, Hsaved, Hcb. }
  unfold show_question in H.
  apply bind_Ok in H as (q' & _ & H). apply bind_Ok in H as (ind' & _ & H).
  apply bind_Ok in H as (saved' & _ & H). apply bind_Ok in H as (rows' & _ & H).
  apply update_nav_status_nav in H as [Hnav Hbtn].
  2:{ cbn. rewrite Hn. symmetry. apply Hc. }
  split; [done|]. unfold button_synced. rewrite Hbtn, Hidx, Hquiz. cbn.
  repeat case_bool_decide; try done; lia.
Qed.

(** What [save_answer] collects from boxes that carry distinct labels. *)
Lemma checked_labels_boxes (cbs : list Checkbox) (labels : list pystr) :
  cb_text <$> cbs = (λ ab, ab ++ py ".") <$> labels →
  NoDup labels → (∀ ab, ab ∈ labels → ab ∈ abcd) →
  ∃ X, checked_labels cbs ∅ = Ok X ∧
       (∀ k ab cb, labels !! k = Some ab → cbs !! k = Some cb →
          (ab ∈ X ↔ cb_checked cb = true)) ∧
       (∀ x, x ∈ X → x ∈ labels) ∧
       cbs = box X <$> labels.
Proof.
  intros Ht Hnd Hsub.
  assert (Hk : ∀ k cb, cbs !! k = Some cb →
                 ∃ ab, labels !! k = Some ab ∧ cb_text cb = ab ++ py ".").
  { intros k cb Hcb.
    assert (E : (cb_text <$> cbs) !! k = Some (cb_text cb))
      by (by rewrite list_lookup_fmap, Hcb).
    rewrite Ht, list_lookup_fmap in E.
    destruct (labels !! k) as [ab|]; [|done]. injection E as E. eauto. }
  destruct (checked_labels_spec cbs ∅) as (X & HX & Hspec).
  { apply Forall_forall. intros cb Hcb.
    apply list_elem_of_lookup_1 in Hcb as (k & Hcb).
    destruct (Hk k cb Hcb) as (ab & Hab & Htext).
    exists ab. split; [|done]. apply Hsub. by eapply list_elem_of_lookup_2. }
  assert (H1 : ∀ k ab cb, labels !! k = Some ab → cbs !! k = Some cb →
                 (ab ∈ X ↔ cb_checked cb = true)).
  { intros k ab cb Hab Hcb. rewrite Hspec. split.
    - intros [?|(cb' & Hin & Hc & Htext)]; [done|].
      apply list_elem_of_lookup_1 in Hin as (j & Hj).
      destruct (Hk j cb' Hj) as (ab' & Hab' & Htext').
      rewrite Htext' in Htext. apply app_inv_tail in Htext as ->.
      pose proof (NoDup_lookup _ _ _ _ Hnd Hab Hab') as ->.
      rewrite Hcb in Hj. by injection Hj as ->.
    - intros Hc. right. exists cb. split; [by eapply list_elem_of_lookup_2|].
      split; [done|]. destruct (Hk k cb Hcb) as (ab' & Hab' & Htext).
      rewrite Hab in Hab'. by injection Hab' as <-. }
  exists X. split; [done|]. split; [done|]. split.
  - intros x Hx. apply Hspec in Hx as [?|(cb & Hin & _ & Htext)]; [done|].
    apply list_elem_of_lookup_1 in Hin as (k & Hcb).
    destruct (Hk k cb Hcb) as (ab & Hab & Htext').
    rewrite Htext' in Htext. apply app_inv_tail in Htext as ->.
    by eapply list_elem_of_lookup_2.
  - apply list_eq. intros k. rewrite list_lookup_fmap.
    destruct (cbs !! k) as [cb|] eqn:Hcb.
    + destruct (Hk k cb Hcb) as (ab & Hab & Htext). rewrite Hab. cbn.
      f_equal. destruct cb as [text checked]. cbn in *. unfold box.
      f_equal; [done|]. specialize (H1 k ab _ Hab Hcb). cbn in H1.
      destruct checked.
      * symmetry. apply bool_decide_eq_true_2. by apply H1.
      * symmetry. apply bool_decide_eq_false_2. intros Hx.
        apply H1 in Hx. done.
    + destruct (labels !! k) as [ab|] eqn:Hab; [|done].
      apply lookup_ge_None in Hcb. apply lookup_lt_Some in Hab.
      assert (length (cb_text <$> cbs) = length ((λ ab, ab ++ py ".") <$> labels))
        by (by rewrite Ht).
      rewrite !length_fmap in *. lia.
Qed.

Lemma save_answer_synced s s' :
  session_ok s → button_synced s → save_answer s = Ok s' → widgets_synced s'.
Proof.
  intros Hok Hb H.
  pose proof (save_answer_ok _ _ Hok H) as Hok'. split; [done|].
  destruct Hok as ((Hlen & _) & Hn & Hcur & _).
  destruct (quiz s !! current_index s) as [q|] eqn:Hq; [|done].
  destruct (checked_labels_boxes (checkboxes s) (displayed q) Hcur
              (displayed_NoDup q) (displayed_abcd q)) as (X & HX & _ & _ & Hboxes).
  pose proof (save_answer_Ok _ _ H)
    as ((sel & Hsel & Hlt & Hu) & (_ & Hquiz & _) & Hidx & Hcb & _).
  rewrite HX in Hsel. injection Hsel as <-.
  split.
  { unfold boxes_synced. rewrite Hidx, Hquiz, Hq, Hu, Hcb.
    by rewrite list_lookup_insert_eq. }
  unfold save_answer in H.
  apply bind_Ok in H as (sel' & _ & H). apply bind_Ok in H as (ans' & Hset & H).
  apply setitem_Ok in Hset as [_ ->].
  apply update_nav_status_nav in H as [Hnav Hbtn].
  2:{ cbn. rewrite length_insert. lia. }
  split; [done|]. unfold button_synced in *. by rewrite Hbtn, Hidx, Hquiz.
Qed.

Lemma flipped_ok i s :
  session_ok s →
  session_ok
    {| bank := bank s; quiz := quiz s; user_answers := user_answers s;
       current_index := current_index s; start_time := start_time s;
       elapsed_seconds := elapsed_seconds s; timer_active := timer_active s;
       option_shuffle_map := option_shuffle_map s; timer_label := timer_label s;
       question_label := question_label s;
       checkboxes := alter flip i (checkboxes s);
       option_labels := option_labels s; next_btn := next_btn s;
       nav_list := nav_list s |}.
Proof.
  intros Hok. unfold session_ok, perms_cover in *. cbn.
  destruct (quiz s !! current_index s); [|by destruct Hok as (_ & _ & [] & _)].
  by rewrite flip_texts.
Qed.

Lemma click_option_synced i s s' :
  widgets_synced s → click_option i s = Ok s' → widgets_synced s'.
Proof.
  intros (Hok & Hb & Hn & Hbtn). unfold click_option.
  case_bool_decide as Hi; [|by intros [= <-]].
  apply save_answer_synced; [by apply flipped_ok | done].
Qed.

Lemma switch_question_synced idx s s' :
  widgets_synced s → switch_question idx s = Ok s' → widgets_synced s'.
Proof.
  unfold switch_question. intros Hs. destruct (0 <=? idx)%Z; [|by intros [= <-]].
  destruct Hs as ((Hc & Hn & _ & Ha) & _). by apply show_question_synced.
Qed.

Lemma set_timer_synced b s : widgets_synced s → widgets_synced (set_timer b s).
Proof. done. Qed.

Lemma step_synced ev s s' ds :
  widgets_synced s → step ev s = Ok (s', ds) → widgets_synced s'.
Proof.
  intros Hs. destruct ev as [idx|i|now|yes|yes]; cbn [step]; intros H.
  - apply bind_Ok in H as (s1 & H1 & [= <- _]). by eapply switch_question_synced.
  - apply bind_Ok in H as (s1 & H1 & [= <- _]). by eapply click_option_synced.
  - injection H as <- _. by destruct (timer_active s).
  - unfold next_or_submit in H. destruct (_ <? _)%Z.
    + apply bind_Ok in H as (s1 & H1 & [= <- _]). by eapply switch_question_synced.
    + apply try_submit_Ok in H as [->| ->]; [done | by apply set_timer_synced].
  - apply try_submit_Ok in H as [->| ->]; [done | by apply set_timer_synced].
Qed.

Lemma run_synced evs s s' ds :
  widgets_synced s → run evs s = Ok (s', ds) → widgets_synced s'.
Proof.
  revert s ds. induction evs as [|ev evs IH]; intros s ds Hs H; cbn in H.
  - by injection H as <- _.
  - apply bind_Ok in H as ([s1 d1] & H1 & H).
    apply bind_Ok in H as ([s2 d2] & H2 & [= <- _]).
    eapply IH; [|exact H2]. by eapply step_synced.
Qed.

Lemma reset_quiz_synced now g s0 s g' :
  reset_quiz now g s0 = Ok (s, g') → widgets_synced s.
Proof.
  unfold reset_quiz.
  destruct (shuffle (quiz s0) g) as [qz g1].
  pose proof (shuffle_options_covers qz g1) as Hc.
  destruct (shuffle_options qz g1) as [maps g2]. cbn [fst] in Hc.
  intros H. apply bind_Ok in H as (s1 & H1 & H).
  apply bind_Ok in H as (s2 & H2 & [= <- <-]).
  apply show_question_synced in H1; cbn.
  - destruct H1 as (Hok & Hb & Hn & Hbtn).
    pose proof (update_nav_status_Ok _ _ H2)
      as ((_ & Hquiz & Hmaps) & Hu & Hi & Hcb & _ & Hnav & _).
    apply update_nav_status_nav in H2 as [Hn2 Hbtn2].
    2:{ destruct Hok as ((Hlen & _) & Hn' & _). lia. }
    apply set_timer_synced.
    unfold widgets_synced, session_ok, perms_cover, boxes_synced, button_synced in *.
    rewrite Hquiz, Hmaps, Hu, Hi, Hcb, Hnav, Hbtn2. done.
  - split; cbn; [by rewrite length_replicate | done].
  - by rewrite length_replicate.
  - apply Forall2_replicate_r; [done|]. apply Forall_forall. intros q _.
    cbn. set_solver.
Qed.

Lemma reset_quiz_total now g s0 :
  quiz s0 ≠ [] → is_Ok (reset_quiz now g s0).
Proof.
  intros Hne. unfold reset_quiz.
  pose proof (shuffle_perm (quiz s0) g) as Hp.
  destruct (shuffle (quiz s0) g) as [qz g1]. cbn [fst] in Hp.
  pose proof (shuffle_options_covers qz g1) as Hc.
  destruct (shuffle_options qz g1) as [maps g2]. cbn [fst] in Hc.
  assert (Hlen : 0 < length qz).
  { rewrite Hp. destruct (quiz s0); [done | cbn; lia]. }
  match goal with |- is_Ok (show_question 0 ?s ≫= _) =>
    destruct (show_question_total 0 s) as [s1 H1] end; cbn.
  - split; cbn; [by rewrite length_replicate | done].
  - by rewrite length_replicate.
  - done.
  - rewrite H1, bind_Ok_l.
    destruct (show_question_Ok _ _ _ H1) as (_ & _ & _ & Hu & Hnav & _).
    cbn in Hu, Hnav.
    destruct (update_nav_status_total s1) as [s2 ->]; [|by eexists].
    rewrite Hu, Hnav, !length_replicate. done.
Qed.

Lemma reset_quiz_empty now g s0 :
  quiz s0 = [] → reset_quiz now g s0 = Raise IndexError.
Proof. unfold reset_quiz. intros ->. reflexivity. Qed.

Lemma unanswered_replicate n s :
  user_answers s = replicate n ∅ → unanswered s = n.
Proof.
  unfold unanswered. intros ->. rewrite sum_list_fmap_const, Nat.mul_1_r.
  induction n as [|n IH]; [done|]. cbn [replicate].
  rewrite filter_cons_True by done. cbn. by rewrite IH.
Qed.

(** ** Starting and restarting a session *)

(** X6: on a list of questions of the documented types ([l], the Python
    list [questions], decodes to it) the constructor raises [IndexError]
    (at [self.quiz[0]] in [show_question(0)]) exactly when the list is
    empty; otherwise the new window holds the questions in some order, no
    answer for any of them, the first question on display, the timer
    running from [now], and every question counts as unanswered. *)
Theorem new_window_fresh l questions now g :
  decode_bank l = Some questions →
  (questions = [] → new_window questions now g = Raise IndexError) ∧
  (questions ≠ [] →
     ∃ s g', new_window questions now g = Ok (s, g') ∧
       bank s = questions ∧ quiz s ≡ₚ questions ∧
       Forall2 covers (quiz s) (option_shuffle_map s) ∧
       user_answers s = replicate (length questions) ∅ ∧
       unanswered s = length questions ∧
       current_index s = 0 ∧ timer_active s = true ∧ start_time s = now ∧
       widgets_synced s).
Proof.
  intros _. split.
  - intros ->. reflexivity.
  - intros Hne. unfold new_window.
    match goal with |- ∃ _ _, reset_quiz now g ?s0 = _ ∧ _ =>
      destruct (reset_quiz_total now g s0 Hne) as [[s g'] H] end.
    exists s, g'. split; [done|].
    pose proof (reset_quiz_synced _ _ _ _ _ H) as Hs.
    apply reset_quiz_Ok in H
      as (((_ & Hc) & _) & Hb & Hp & _ & Hu & Hi & Ht & Hst).
    cbn in Hb, Hp. rewrite Hp in Hu.
    do 4 (split; [done|]). split; [by apply unanswered_replicate|].
    do 3 (split; [done|]). exact Hs.
Qed.

Lemma new_window_fresh_witness :
  load_questions bank_two = Ok (PList (encode_question <$> [q_one; q_two])) ∧
  decode_bank (encode_question <$> [q_one; q_two]) = Some [q_one; q_two] ∧
  [q_one; q_two] ≠ [] ∧
  ∃ s g', new_window [q_one; q_two] 0 rng0 = Ok (s, g') ∧
    bank s = [q_one; q_two] ∧ quiz s ≡ₚ [q_one; q_two] ∧
    Forall2 covers (quiz s) (option_shuffle_map s) ∧
    user_answers s = replicate (length [q_one; q_two]) ∅ ∧
    unanswered s = length [q_one; q_two] ∧
    current_index s = 0 ∧ timer_active s = true ∧ start_time s = 0%Z ∧
    widgets_synced s.
Proof.
  assert (Hl : load_questions bank_two
               = Ok (PList (encode_question <$> [q_one; q_two])))
    by (vm_compute; reflexivity).
  assert (Hd : decode_bank (encode_question <$> [q_one; q_two])
               = Some [q_one; q_two]) by (vm_compute; reflexivity).
  assert (H : [q_one; q_two] ≠ []) by discriminate.
  do 3 (split; [assumption|]).
  exact (proj2 (new_window_fresh _ [q_one; q_two] 0 rng0 Hd) H).
Defined.

(** X7: the retry button, pressed after any events of a session, starts
    a session over the questions the window was created with: they are all
    there again in some order, with fresh permutations, no answers, the
    first question on display and the timer restarted. *)
Theorem retry_restarts questions now g s g1 evs s' ds now' g2 :
  new_window questions now g = Ok (s, g1) →
  run evs s = Ok (s', ds) →
  ∃ s'' g3, retry now' g2 s' = Ok (s'', g3) ∧
    bank s'' = questions ∧ quiz s'' ≡ₚ questions ∧
    Forall2 covers (quiz s'') (option_shuffle_map s'') ∧
    user_answers s'' = replicate (length questions) ∅ ∧
    current_index s'' = 0 ∧ timer_active s'' = true ∧ start_time s'' = now' ∧
    widgets_synced s''.
Proof.
  intros Hnew Hrun.
  assert (Hne : questions ≠ []).
  { intros ->. unfold new_window in Hnew.
    by rewrite reset_quiz_empty in Hnew. }
  pose proof Hnew as Hnew'.
  apply reset_quiz_Ok in Hnew' as (Hok & Hb & _). cbn in Hb.
  destruct (run_ok _ _ _ _ Hok Hrun) as (_ & Hb' & _). rewrite Hb in Hb'.
  unfold retry.
  match goal with |- ∃ _ _, reset_quiz now' g2 ?s0 = _ ∧ _ =>
    destruct (reset_quiz_total now' g2 s0) as [[s'' g3] H] end.
  { cbn. by rewrite Hb'. }
  exists s'', g3. split; [done|].
  pose proof (reset_quiz_synced _ _ _ _ _ H) as Hs.
  apply reset_quiz_Ok in H
    as (((_ & Hc) & _) & Hb'' & Hp & _ & Hu & Hi & Ht & Hst).
  cbn in Hb'', Hp. rewrite Hb' in Hb'', Hp. rewrite Hp in Hu.
  do 7 (split; [done|]). exact Hs.
Qed.

Lemma retry_restarts_witness :
  new_window [q_one; q_two] 0 rng0
    = Ok (window_of (new_window [q_one; q_two] 0 rng0), rng4) ∧
  ∃ s'' g3,
    retry 5000 rng4
      (after [Clicked 0; SubmitClicked true]
         (window_of (new_window [q_one; q_two] 0 rng0))) = Ok (s'', g3) ∧
    bank s'' = [q_one; q_two] ∧ quiz s'' ≡ₚ [q_one; q_two] ∧
    Forall2 covers (quiz s'') (option_shuffle_map s'') ∧
    user_answers s'' = replicate (length [q_one; q_two]) ∅ ∧
    current_index s'' = 0 ∧ timer_active s'' = true ∧ start_time s'' = 5000%Z ∧
    widgets_synced s''.
Proof.
  assert (H1 : new_window [q_one; q_two] 0 rng0
    = Ok (window_of (new_window [q_one; q_two] 0 rng0), rng4))
    by (vm_compute; reflexivity).
  split; [assumption|].
  eapply (retry_restarts [q_one; q_two] 0 rng0 _ rng4
            [Clicked 0; SubmitClicked true]); [exact H1|].
  vm_compute. reflexivity.
Defined.

(** ** Ticking boxes *)

Lemma toggle_twice (ab : pystr) (saved : gset pystr) :
  toggle ab (toggle ab saved) = saved.
Proof.
  unfold toggle. destruct (decide (ab ∈ saved)) as [Hin|Hout].
  - rewrite (bool_decide_eq_true_2 _ Hin).
    rewrite bool_decide_eq_false_2 by set_solver.
    apply set_eq. intros x. destruct (decide (x = ab)); set_solver.
  - rewrite (bool_decide_eq_false_2 _ Hout).
    rewrite bool_decide_eq_true_2 by set_solver. set_solver.
Qed.

Lemma click_option_toggles i s q saved ab :
  widgets_synced s →
  quiz s !! current_index s = Some q →
  user_answers s !! current_index s = Some saved →
  displayed q !! i = Some ab →
  ∃ s', click_option i s = Ok s' ∧
        user_answers s' = <[current_index s := toggle ab saved]> (user_answers s) ∧
        checkboxes s' = box (toggle ab saved) <$> displayed q ∧
        current_index s' = current_index s ∧ same_model s s' ∧
        widgets_synced s'.
Proof.
  intros Hs Hq Hsaved Hab. pose proof Hs as (Hok & Hb & _).
  destruct (click_option_total i s Hok) as [s' Hs'].
  exists s'. split; [done|].
  pose proof (click_option_synced _ _ _ Hs Hs') as Hsynced.
  unfold boxes_synced in Hb. rewrite Hq, Hsaved in Hb.
  pose proof Hok as (_ & _ & _ & Ha).
  assert (Hsub : saved ⊆ list_to_set (displayed q))
    by (by eapply (Forall2_lookup_lr _ _ _ _ _ _ Ha)).
  unfold click_option in Hs'.
  rewrite bool_decide_eq_true_2 in Hs'.
  2:{ rewrite Hb, length_fmap. by eapply lookup_lt_Some. }
  destruct (save_answer_Ok _ _ Hs')
    as ((sel & Hsel & _ & Hu) & Hm & Hidx & Hcb & _). cbn in *.
  destruct (checked_labels_boxes (alter flip i (checkboxes s)) (displayed q))
    as (X & HX & H1 & H2 & H3).
  { rewrite flip_texts, Hb, <- list_fmap_compose. done. }
  { apply displayed_NoDup. }
  { apply displayed_abcd. }
  rewrite HX in Hsel. injection Hsel as <-.
  assert (HXt : X = toggle ab saved).
  { assert (Hlab : ∀ x, x ∈ displayed q → (x ∈ X ↔ x ∈ toggle ab saved)).
    { intros x Hx. apply list_elem_of_lookup_1 in Hx as (k & Hk).
      assert (Hbox : checkboxes s !! k = Some (box saved x))
        by (by rewrite Hb, list_lookup_fmap, Hk).
      destruct (decide (k = i)) as [->|Hne].
      - rewrite Hab in Hk. injection Hk as <-.
        rewrite (H1 i ab (flip (box saved ab))); [|done|].
        2:{ by rewrite list_lookup_alter_eq, Hbox. }
        cbn. unfold toggle. case_bool_decide; cbn; set_solver.
      - assert (x ≠ ab).
        { intros ->. by pose proof (NoDup_lookup _ _ _ _ (displayed_NoDup q) Hk Hab). }
        rewrite (H1 k x (box saved x)); [|done|].
        2:{ by rewrite list_lookup_alter_ne. }
        cbn. rewrite bool_decide_eq_true. unfold toggle.
        case_bool_decide; set_solver. }
    apply set_eq. intros x. split; intros Hx.
    - apply Hlab; [by apply H2 | done].
    - apply Hlab; [|done]. unfold toggle in Hx.
      assert (ab ∈ displayed q) by (by eapply list_elem_of_lookup_2).
      case_bool_decide; set_unfold; naive_solver. }
  subst X. rewrite Hu, Hcb, H3. done.
Qed.

(** X8: ticking or unticking the box at displayed position [i] flips the
    membership of that box's label in the answer stored for the current
    question; the answers of the other questions, the permutations and the
    question order stay as they are, and the boxes again show the stored
    answer. *)
Theorem click_toggles_label i s q saved ab :
  widgets_synced s →
  quiz s !! current_index s = Some q →
  user_answers s !! current_index s = Some saved →
  displayed q !! i = Some ab →
  ∃ s', click_option i s = Ok s' ∧
        user_answers s' !! current_index s = Some (toggle ab saved) ∧
        (ab ∈ toggle ab saved ↔ ab ∉ saved) ∧
        (∀ x, x ≠ ab → (x ∈ toggle ab saved ↔ x ∈ saved)) ∧
        (∀ j, j ≠ current_index s → user_answers s' !! j = user_answers s !! j) ∧
        checkboxes s' = box (toggle ab saved) <$> displayed q ∧
        option_shuffle_map s' = option_shuffle_map s ∧ quiz s' = quiz s ∧
        current_index s' = current_index s.
Proof.
  intros Hs Hq Hsaved Hab.
  destruct (click_option_toggles i s q saved ab Hs Hq Hsaved Hab)
    as (s' & Hs' & Hu & Hcb & Hidx & (_ & Hquiz & Hmaps) & _).
  exists s'. split; [done|]. rewrite Hu. split.
  { apply list_lookup_insert_eq. by eapply lookup_lt_Some. }
  split. { unfold toggle. case_bool_decide; set_solver. }
  split. { intros x Hx. unfold toggle. case_bool_decide; set_solver. }
  split. { intros j Hj. by rewrite list_lookup_insert_ne. }
  done.
Qed.

Lemma click_toggles_label_witness :
  widgets_synced session_two ∧
  ∃ s', click_option 1 session_two = Ok s' ∧
        user_answers s' !! 0 = Some (toggle (py "B") ∅) ∧
        (py "B" ∈ toggle (py "B") (∅ : gset pystr) ↔ py "B" ∉ (∅ : gset pystr)) ∧
        user_answers s' !! 1 = user_answers session_two !! 1.
Proof.
  assert (H : widgets_synced session_two) by by_computation.
  split; [assumption|].
  destruct (click_toggles_label 1 session_two q_two ∅ (py "B") H eq_refl eq_refl
              eq_refl) as (s' & Hs' & Hu & Hin & _ & Hother & _).
  exists s'. do 3 (split; [assumption|]). apply Hother. discriminate.
Defined.

(** X9: ticking the same box twice in a row brings back the stored
    answers and the boxes as they were. *)
Theorem click_twice_restores i s :
  widgets_synced s →
  ∃ s1 s2, click_option i s = Ok s1 ∧ click_option i s1 = Ok s2 ∧
           user_answers s2 = user_answers s ∧ checkboxes s2 = checkboxes s ∧
           nav_list s2 = nav_list s ∧ current_index s2 = current_index s.
Proof.
  intros Hs. pose proof Hs as (Hok & Hb & Hn & _).
  unfold boxes_synced in Hb.
  destruct (quiz s !! current_index s) as [q|] eqn:Hq; [|done].
  destruct (user_answers s !! current_index s) as [saved|] eqn:Hsaved; [|done].
  destruct (displayed q !! i) as [ab|] eqn:Hab.
  - destruct (click_option_toggles i s q saved ab Hs Hq Hsaved Hab)
      as (s1 & Hs1 & Hu1 & Hcb1 & Hidx1 & (_ & Hquiz1 & _) & Hsynced1).
    destruct (click_option_toggles i s1 q (toggle ab saved) ab Hsynced1)
      as (s2 & Hs2 & Hu2 & Hcb2 & Hidx2 & _ & Hsynced2).
    { by rewrite Hidx1, Hquiz1. }
    { rewrite Hidx1, Hu1. apply list_lookup_insert_eq. by eapply lookup_lt_Some. }
    { done. }
    exists s1, s2. do 2 (split; [done|]).
    assert (Hu : user_answers s2 = user_answers s).
    { rewrite Hu2, Hu1, Hidx1, list_insert_insert_eq, toggle_twice.
      by apply list_insert_id. }
    split; [done|]. split; [by rewrite Hcb2, toggle_twice|].
    split; [|by rewrite Hidx2].
    destruct Hsynced2 as (_ & _ & Hn2 & _). unfold nav_synced in *.
    by rewrite Hn2, Hn, Hu.
  - apply lookup_ge_None in Hab.
    assert (Hskip : click_option i s = Ok s).
    { unfold click_option. rewrite bool_decide_eq_false_2; [done|].
      rewrite Hb, length_fmap. lia. }
    exists s, s. by rewrite Hskip.
Qed.

Lemma click_twice_restores_witness :
  widgets_synced session_half ∧
  ∃ s1 s2, click_option 1 session_half = Ok s1 ∧ click_option 1 s1 = Ok s2 ∧
           user_answers s2 = user_answers session_half ∧
           checkboxes s2 = checkboxes session_half ∧
           nav_list s2 = nav_list session_half ∧
           current_index s2 = current_index session_half.
Proof.
  assert (H : widgets_synced session_half) by by_computation.
  split; [assumption|]. exact (click_twice_restores 1 session_half H).
Defined.

(** ** What the widgets show in every state of a session *)

Lemma unanswered_nav s :
  nav_synced s → unanswered s = length (filter (λ b, b = false) (nav_list s)).
Proof.
  unfold nav_synced, unanswered. intros ->.
  rewrite sum_list_fmap_const, Nat.mul_1_r.
  induction (user_answers s) as [|ans l IH]; [done|]. cbn [fmap list_fmap].
  destruct (decide (ans = ∅)) as [->|Hne].
  - rewrite filter_cons_True by done.
    rewrite filter_cons_True by (by rewrite bool_decide_eq_true_2).
    cbn. by rewrite IH.
  - rewrite filter_cons_False by done.
    rewrite filter_cons_False by (by rewrite bool_decide_eq_false_2).
    done.
Qed.

(** X10: in every state of a session (after [reset_quiz] and any events)
    a navigation item is highlighted exactly when its question has a
    non-empty stored answer, so the count asked about in the confirmation
    box is the number of items not highlighted; the checkboxes are those of
    the current question, ticked exactly for its stored labels; and the
    lower button reads '提交' exactly on the last question. *)
Theorem widgets_follow_answers now g s0 s g' evs s' ds :
  reset_quiz now g s0 = Ok (s, g') →
  run evs s = Ok (s', ds) →
  (∀ i ans, user_answers s' !! i = Some ans →
     nav_list s' !! i = Some (negb (bool_decide (ans = ∅)))) ∧
  length (nav_list s') = length (quiz s') ∧
  unanswered s' = length (filter (λ b, b = false) (nav_list s')) ∧
  (∃ q saved, quiz s' !! current_index s' = Some q ∧
              user_answers s' !! current_index s' = Some saved ∧
              checkboxes s' = box saved <$> displayed q) ∧
  (next_btn s' = SubmitText ↔ S (current_index s') = length (quiz s')).
Proof.
  intros Hreset Hrun. apply reset_quiz_synced in Hreset.
  pose proof (run_synced _ _ _ _ Hreset Hrun) as (Hok & Hb & Hn & Hbtn).
  split; [|split; [|split; [|split]]].
  - intros i ans Hi. unfold nav_synced in Hn.
    by rewrite Hn, list_lookup_fmap, Hi.
  - apply Hok.
  - by apply unanswered_nav.
  - unfold boxes_synced in Hb.
    destruct (quiz s' !! current_index s') as [q|]; [|done].
    destruct (user_answers s' !! current_index s') as [saved|]; [|done].
    by exists q, saved.
  - unfold button_synced in Hbtn. rewrite Hbtn.
    case_bool_decide; split; done.
Qed.

Lemma widgets_follow_answers_witness :
  reset_quiz 0 rng0 before_two = Ok (session_two, rng4) ∧
  run [Clicked 1; Clicked 2] session_two = Ok (session_half, []) ∧
  nav_list session_half = [true; false] ∧
  unanswered session_half = length (filter (λ b, b = false) (nav_list session_half)).
Proof.
  assert (H1 : reset_quiz 0 rng0 before_two = Ok (session_two, rng4))
    by (vm_compute; reflexivity).
  assert (H2 : run [Clicked 1; Clicked 2] session_two = Ok (session_half, []))
    by (vm_compute; reflexivity).
  do 2 (split; [assumption|]). split; [reflexivity|].
  destruct (widgets_follow_answers _ _ _ _ _ _ _ _ H1 H2) as (_ & _ & H & _).
  exact H.
Defined.

(** X11: the lower button does what it reads: on the last question
    ('提交') it runs [try_submit]; before (when it reads '下一页') it
    shows the next question, with no dialog and the stored answers as
    they are. *)
Theorem next_button_advances_or_submits yes s :
  widgets_synced s →
  (next_btn s = SubmitText → next_or_submit yes s = try_submit yes s) ∧
  (next_btn s = NextPage →
     ∃ s', next_or_submit yes s = Ok (s', []) ∧
           current_index s' = S (current_index s) ∧
           user_answers s' = user_answers s ∧
           option_shuffle_map s' = option_shuffle_map s ∧ quiz s' = quiz s ∧
           widgets_synced s').
Proof.
  intros Hs. pose proof Hs as (Hok & _ & _ & Hbtn).
  unfold button_synced in Hbtn. unfold next_or_submit.
  pose proof Hok as (Hc & Hn & Hcur & Ha).
  assert (Hlt : current_index s < length (quiz s)).
  { destruct (quiz s !! current_index s) eqn:E; [|done]. by eapply lookup_lt_Some. }
  split; intros Htext; rewrite Htext in Hbtn; case_bool_decide as Hlast;
    try discriminate Hbtn.
  - by rewrite (proj2 (Z.ltb_ge _ _)) by lia.
  - rewrite (proj2 (Z.ltb_lt _ _)) by lia.
    unfold switch_question. rewrite (proj2 (Z.leb_le 0 _)) by lia.
    replace (Z.to_nat (Z.of_nat (current_index s) + 1)) with (S (current_index s))
      by lia.
    destruct (show_question_total (S (current_index s)) s Hc Hn) as [s' Hs'];
      [lia|].
    rewrite Hs', bind_Ok_l. exists s'. split; [done|].
    pose proof (show_question_synced _ _ _ Hc Hn Ha Hs') as Hsynced.
    destruct (show_question_Ok _ _ _ Hs')
      as (_ & Hidx & (_ & Hquiz & Hmaps) & Hu & _).
    done.
Qed.

Lemma next_button_advances_or_submits_witness :
  widgets_synced session_half ∧ next_btn session_half = NextPage ∧
  ∃ s', next_or_submit true session_half = Ok (s', []) ∧
        current_index s' = S (current_index session_half) ∧
        user_answers s' = user_answers session_half ∧
        option_shuffle_map s' = option_shuffle_map session_half ∧
        quiz s' = quiz session_half ∧ widgets_synced s'.
Proof.
  assert (H : widgets_synced session_half) by by_computation.
  split; [assumption|]. split; [reflexivity|].
  exact (proj2 (next_button_advances_or_submits true session_half H) eq_refl).
Defined.

(** ** Questions that can and cannot be answered right *)

Lemma original_label_carries q indices ab x :
  original_label q indices ab = Some x ↔
  ∃ pos o, abcd !! pos = Some ab ∧ indices !! pos = Some o ∧ carries q o x.
Proof.
  unfold original_label, carries. split.
  - intros H. destruct (position_of ab) as [pos|] eqn:Hpos; [|done]. cbn in H.
    destruct (indices !! pos) as [o|] eqn:Ho; [|done]. cbn in H.
    destruct (options q !! o) as [opt|] eqn:Hopt; [|done]. cbn in H.
    destruct opt as [|c rest]; [done|]. cbn in H. injection H as <-.
    exists pos, o. split; [by apply position_of_lookup|]. split; [done|].
    by exists c, rest.
  - intros (pos & o & Hpos & Ho & c & rest & Hopt & ->).
    apply position_of_lookup in Hpos. by rewrite Hpos; cbn; rewrite Ho; cbn;
      rewrite Hopt.
Qed.

(** X12: when no option shown at one of the eight positions carries some
    answer label (as for an answer placed at position 8 or later of the
    permutation of a question with more than eight options), the question
    is graded wrong whatever the stored answer is. *)
Theorem hidden_answer_is_wrong s i q indices x r :
  option_shuffle_map s !! i = Some indices →
  x ∈ answer q →
  (∀ pos o, pos < 8 → indices !! pos = Some o → ¬ carries q o x) →
  grade_question s i q = Ok r →
  r ≠ None.
Proof.
  intros Hi Hx Hhidden Hg.
  apply grade_question_Ok in Hg as (ind & ans & Hind & _ & Hiff & _).
  rewrite Hi in Hind. injection Hind as <-.
  intros Hr. apply Hiff in Hr.
  assert (Hin : x ∈ mapped_labels q indices ans).
  { rewrite Hr. by apply elem_of_list_to_set. }
  apply elem_of_set_omap in Hin as (ab & _ & Hab).
  apply original_label_carries in Hab as (pos & o & Hpos & Ho & Hc).
  apply (Hhidden pos o); try done.
  apply lookup_lt_Some in Hpos. exact Hpos.
Qed.

Lemma hidden_answer_is_wrong_witness :
  ∃ r, grade_question session_hidden 0 q_hidden = Ok r ∧ r ≠ None.
Proof.
  destruct (grade_question session_hidden 0 q_hidden) as [r|e] eqn:E;
    [|vm_compute in E; discriminate E].
  exists r. split; [reflexivity|].
  apply (hidden_answer_is_wrong session_hidden 0 q_hidden
           [0; 1; 2; 3; 4; 5; 6; 7; 8] (py "I") r).
  - reflexivity.
  - apply list_elem_of_here.
  - intros pos o Hpos Ho (c & rest & Hopt & Hc).
    do 8 (destruct pos as [|pos];
          [injection Ho as <-; vm_compute in Hopt; injection Hopt as <- _;
           vm_compute in Hc; discriminate Hc|]).
    lia.
  - exact E.
Defined.

(** X13: for a question with at most eight options, all non-empty, whose
    answer labels are each carried by some option, ticking exactly the
    boxes whose options carry an answer label is graded right, whatever
    permutation the session drew. *)
Theorem right_boxes_are_right s i q indices :
  option_shuffle_map s !! i = Some indices →
  user_answers s !! i = Some (right_boxes q indices) →
  covers q indices →
  length (options q) ≤ 8 →
  Forall (λ opt, opt ≠ []) (options q) →
  (∀ x, x ∈ answer q → ∃ o, carries q o x) →
  grade_question s i q = Ok None.
Proof.
  intros Hi Ha Hc Hlen Hopts Hcarried.
  destruct (covers_bijection _ _ Hc) as (Hlen' & _ & Hin).
  assert (Hsub : ∀ ab, ab ∈ right_boxes q indices → ab ∈ displayed q).
  { intros ab Hab. unfold right_boxes in Hab.
    apply elem_of_list_to_set, list_elem_of_omap in Hab as (ab' & Hab' & Hsome).
    destruct (original_label q indices ab'); [|done]. cbn in Hsome.
    case_bool_decide; [|done]. by injection Hsome as <-. }
  assert (Hg : is_Ok (grade_question s i q)).
  { unfold grade_question.
    rewrite (proj2 (getitem_Ok _ _ _) Hi), bind_Ok_l.
    rewrite (proj2 (getitem_Ok _ _ _) Ha), bind_Ok_l.
    destruct (map_answers_total q indices (elements (right_boxes q indices)) ∅
                Hc Hopts) as [user ->].
    { apply Forall_forall. intros ab Hab. apply elem_of_elements in Hab.
      by eapply displayed_abcd, Hsub. }
    rewrite bind_Ok_l. case_bool_decide; [|by eexists].
    destruct (sorted_strs_Ok (list_to_set (answer q))) as (sr & -> & _).
    destruct (sorted_strs_Ok user) as (su & -> & _). by eexists. }
  destruct Hg as [r Hr]. rewrite Hr. f_equal.
  apply grade_question_Ok in Hr as (ind & ans & Hind & Hans & Hiff & _).
  rewrite Hi in Hind. injection Hind as <-.
  rewrite Ha in Hans. injection Hans as <-.
  apply Hiff. apply set_eq. intros x. unfold mapped_labels.
  rewrite elem_of_set_omap, elem_of_list_to_set. split.
  - intros (ab & Hab & Hlabel). unfold right_boxes in Hab.
    apply elem_of_list_to_set, list_elem_of_omap in Hab as (ab' & _ & Hsome).
    destruct (original_label q indices ab') as [x'|] eqn:E; [|done]. cbn in Hsome.
    case_bool_decide as Hx'; [|done]. injection Hsome as ->.
    rewrite E in Hlabel. by injection Hlabel as <-.
  - intros Hx. destruct (Hcarried x Hx) as (o & Ho).
    assert (Hlt : o < length (options q)).
    { destruct Ho as (c & rest & Hopt & _). by eapply lookup_lt_Some. }
    apply Hin, list_elem_of_lookup_1 in Hlt as (pos & Hpos).
    assert (Hpos8 : pos < length abcd).
    { apply lookup_lt_Some in Hpos. cbn. lia. }
    destruct (lookup_lt_is_Some_2 abcd pos Hpos8) as [ab Hab].
    assert (Hlabel : original_label q indices ab = Some x).
    { apply original_label_carries. by exists pos, o. }
    exists ab. split; [|done]. unfold right_boxes.
    apply elem_of_list_to_set, list_elem_of_omap. exists ab. split.
    + unfold displayed. apply elem_of_take. exists pos. split; [done|].
      apply lookup_lt_Some in Hpos. lia.
    + rewrite Hlabel. cbn. by rewrite bool_decide_eq_true_2.
Qed.

Lemma right_boxes_are_right_witness :
  user_answers session_half !! 0 = Some (right_boxes q_two [0; 2; 1]) ∧
  grade_question session_half 0 q_two = Ok None.
Proof.
  assert (H : user_answers session_half !! 0 = Some (right_boxes q_two [0; 2; 1]))
    by (vm_compute; reflexivity).
  split; [assumption|].
  apply (right_boxes_are_right session_half 0 q_two [0; 2; 1]).
  - reflexivity.
  - assumption.
  - by_computation.
  - vm_compute. lia.
  - apply (bool_decide_unpack _). vm_compute. exact I.
  - intros x Hx. unfold q_two, answer in Hx.
    apply elem_of_cons in Hx as [->|Hx]; [exists 1; by exists 66%N, (py ".q")|].
    apply elem_of_cons in Hx as [->|Hx]; [exists 2; by exists 67%N, (py ".r")|].
    by apply elem_of_nil in Hx.
Defined.

(** ** When the report cannot be sorted *)

Lemma insert_sorted_raise {A} (lt : A → A → result bool) x l e :
  insert_sorted lt x l = Raise e → ∃ y, y ∈ l ∧ lt y x = Raise e.
Proof.
  induction l as [|y l IH]; cbn [insert_sorted]; [done|].
  destruct (lt y x) as [b|e'] eqn:E.
  - rewrite bind_Ok_l. destruct b; [|done].
    destruct (insert_sorted lt x l) as [r|e'']; [done|]. cbn. intros [= <-].
    destruct (IH eq_refl) as (z & Hz & Hlt). exists z.
    split; [by apply list_elem_of_further | done].
  - rewrite bind_Raise_l. intros [= <-]. exists y.
    split; [apply list_elem_of_here | done].
Qed.

Lemma entry_lt_raise y x e :
  entry_lt y x = Raise e → e = TypeError ∧ is_int (e_id y) ≠ is_int (e_id x).
Proof.
  unfold entry_lt. destruct (negb (id_eqb (e_id y) (e_id x))).
  - destruct (e_id y), (e_id x); cbn; try done; intros [= <-]; done.
  - repeat (destruct (negb _); [done|]). done.
Qed.

Lemma mixed_ids_of (l : list entry) a b :
  a ∈ l → b ∈ l → is_int (e_id a) ≠ is_int (e_id b) → mixed_ids l.
Proof.
  intros Ha Hb Hne.
  destruct (is_int (e_id a)) eqn:Ea, (is_int (e_id b)) eqn:Eb; try done.
  - by exists a, b.
  - by exists b, a.
Qed.

Lemma py_sorted_entries_raise l e :
  py_sorted entry_lt l = Raise e → e = TypeError ∧ mixed_ids l.
Proof.
  induction l as [|x l IH]; cbn [py_sorted]; [done|].
  destruct (py_sorted entry_lt l) as [r|e'] eqn:E.
  - rewrite bind_Ok_l. intros H.
    apply insert_sorted_raise in H as (y & Hy & Hlt).
    apply entry_lt_raise in Hlt as [-> Hne]. split; [done|].
    apply py_sorted_perm in E. rewrite E in Hy.
    apply (mixed_ids_of _ y x); [by apply list_elem_of_further | | done].
    apply list_elem_of_here.
  - rewrite bind_Raise_l. intros [= <-].
    destruct (IH eq_refl) as [-> (a & b & Ha & Hb & Hab)]. split; [done|].
    exists a, b. by rewrite !elem_of_cons; eauto.
Qed.

Lemma StronglySorted_related {A} (R : A → A → Prop) l a b :
  StronglySorted R l → a ∈ l → b ∈ l → a = b ∨ R a b ∨ R b a.
Proof.
  induction 1 as [|x l Hs IH Hall]; intros Ha Hb.
  - by apply elem_of_nil in Ha.
  - rewrite Forall_forall in Hall.
    apply elem_of_cons in Ha as [->|Ha], Hb as [->|Hb]; eauto.
Qed.

Lemma py_sorted_entries_mixed l :
  mixed_ids l → py_sorted entry_lt l = Raise TypeError.
Proof.
  intros (a & b & Ha & Hb & Hia & Hib).
  destruct (py_sorted entry_lt l) as [r|e] eqn:E.
  - exfalso.
    assert (Hs : StronglySorted by_id r).
    { apply Sorted_StronglySorted; [intros ???; apply id_le_trans|].
      eapply py_sorted_Sorted; [| |exact E];
        [apply entry_lt_true | apply entry_lt_false]. }
    apply py_sorted_perm in E. rewrite <- E in Ha, Hb.
    destruct (StronglySorted_related _ _ _ _ Hs Ha Hb) as [->|[H|H]].
    + congruence.
    + unfold by_id in H. destruct (e_id a), (e_id b); done.
    + unfold by_id in H. destruct (e_id a), (e_id b); done.
  - by apply py_sorted_entries_raise in E as [-> _].
Qed.

Lemma graded_wrong_kinds s rs :
  graded s rs → (mixed_ids (omap id rs) ↔ wrong_kinds s).
Proof.
  intros [Hlen Hg].
  assert (Hentry : ∀ e, e ∈ omap id rs ↔
            ∃ i q, quiz s !! i = Some q ∧ grade_question s i q = Ok (Some e)).
  { intros e. rewrite list_elem_of_omap. split.
    - intros (r & Hr & Hre). cbn in Hre. subst r.
      apply list_elem_of_lookup_1 in Hr as (i & Hi).
      destruct (lookup_lt_is_Some_2 (quiz s) i) as [q Hq].
      { rewrite <- Hlen. by eapply lookup_lt_Some. }
      destruct (Hg i q Hq) as (r & Hr & Hgr). rewrite Hi in Hr.
      injection Hr as <-. eauto.
    - intros (i & q & Hq & Hgr). destruct (Hg i q Hq) as (r & Hr & Hgr').
      rewrite Hgr in Hgr'. injection Hgr' as <-.
      exists (Some e). split; [by eapply list_elem_of_lookup_2 | done]. }
  assert (Hid : ∀ i q e, grade_question s i q = Ok (Some e) → e_id e = qid q).
  { intros i q e H. apply grade_question_Ok in H as (? & ? & _ & _ & _ & H).
    by destruct (H e eq_refl). }
  split.
  - intros (a & b & Ha & Hb & Hia & Hib).
    apply Hentry in Ha as (i & qi & Hqi & Hgi).
    apply Hentry in Hb as (j & qj & Hqj & Hgj).
    exists i, j, qi, qj, a, b. rewrite <- (Hid _ _ _ Hgi), <- (Hid _ _ _ Hgj). done.
  - intros (i & j & qi & qj & ei & ej & Hqi & Hqj & Hgi & Hgj & Hi & Hj).
    exists ei, ej. rewrite (Hid _ _ _ Hgi), (Hid _ _ _ Hgj).
    split; [apply Hentry; eauto|]. split; [apply Hentry; eauto | done].
Qed.

(** X14: in a session over questions of the documented types ([l], the
    Python list [self.quiz], decodes to the session's questions), with
    option strings that are non-empty and stored labels among A to H,
    [submit] fails in one case only: when two questions are graded wrong of
    which one has an integer id and the other a string id; then
    [sorted(wrong)] raises [TypeError].  Questions of mixed id kinds that
    are answered right do no harm. *)
Theorem submit_fails_only_on_mixed_ids l s :
  decode_bank l = Some (quiz s) →
  perms_cover s →
  answers_known s →
  options_labelled (quiz s) →
  (submit s = Raise TypeError ↔ wrong_kinds s) ∧
  (is_Ok (submit s) ↔ ¬ wrong_kinds s).
Proof.
  intros _ Hc Ha Hopts.
  destruct (grade_from_total (set_timer false s) 0 (quiz (set_timer false s)) [])
    as [wrong Hw].
  { intros k q Hq. apply grade_question_total; try done.
    - unfold options_labelled in Hopts. rewrite Forall_forall in Hopts.
      apply Hopts. by eapply list_elem_of_lookup_2.
    - intros ans Hans. unfold answers_known in Ha. rewrite Forall_forall in Ha.
      apply Ha. by eapply list_elem_of_lookup_2. }
  pose proof Hw as Hw'. apply grade_from_Ok in Hw' as (rs & Hlen & Hrs & ->).
  assert (Hg : graded s rs) by done.
  pose proof (graded_wrong_kinds s rs Hg) as Hkinds. cbn [app] in *.
  unfold submit. rewrite Hw, bind_Ok_l.
  destruct (py_sorted entry_lt (omap id rs)) as [entries|e] eqn:E.
  - rewrite bind_Ok_l.
    assert (Hno : ¬ wrong_kinds s).
    { intros Hk. apply Hkinds, py_sorted_entries_mixed in Hk. congruence. }
    split; split; try done. intros _. by eexists.
  - rewrite bind_Raise_l.
    apply py_sorted_entries_raise in E as [-> Hm]. apply Hkinds in Hm.
    split; split; try done. by intros [? [=]].
Qed.

Lemma submit_fails_only_on_mixed_ids_witness :
  decode_bank (encode_question <$> quiz session_mixed)
    = Some (quiz session_mixed) ∧
  perms_cover session_mixed ∧ answers_known session_mixed ∧
  options_labelled (quiz session_mixed) ∧
  wrong_kinds session_mixed ∧
  submit session_mixed = Raise TypeError ∧
  ¬ is_Ok (submit session_mixed).
Proof.
  assert (Hd : decode_bank (encode_question <$> quiz session_mixed)
               = Some (quiz session_mixed)) by (vm_compute; reflexivity).
  assert (H0 : perms_cover session_mixed) by by_computation.
  assert (H1 : answers_known session_mixed) by by_computation.
  assert (H2 : options_labelled (quiz session_mixed)) by by_computation.
  do 4 (split; [assumption|]).
  destruct (submit_fails_only_on_mixed_ids _ session_mixed Hd H0 H1 H2)
    as [Hraise Hok].
  assert (Hs : submit session_mixed = Raise TypeError) by (vm_compute; reflexivity).
  pose proof (proj1 Hraise Hs) as Hk.
  split; [exact Hk|]. split; [exact Hs|].
  intros Hret. exact (proj1 Hok Hret Hk).
Defined.

(** ** A question without answer labels *)

Lemma add_mapped_label q indices user ab u :
  covers q indices → ab ∈ displayed q →
  add_mapped q indices user ab = Ok u →
  is_Some (original_label q indices ab).
Proof.
  intros Hc Hab H. destruct (covers_bijection _ _ Hc) as (Hlen & _ & Hin).
  apply list_elem_of_lookup_1 in Hab as (pos & Hpos).
  destruct (displayed_lookup _ _ _ Hpos) as (Habcd & Hlt & _).
  destruct (lookup_lt_is_Some_2 indices pos) as [o Ho]; [lia|].
  destruct (lookup_lt_is_Some_2 (options q) o) as [opt Hopt].
  { apply Hin. by eapply list_elem_of_lookup_2. }
  assert (Hp : position_of ab = Some pos) by (by apply position_of_lookup).
  unfold add_mapped, original_index in H.
  rewrite (proj2 (index_of_position ab pos) Hp), bind_Ok_l in H.
  rewrite bool_decide_eq_true_2 in H by lia.
  rewrite (proj2 (getitem_Ok _ _ _) Ho), !bind_Ok_l in H.
  rewrite (proj2 (getitem_Ok _ _ _) Hopt), bind_Ok_l in H.
  destruct opt as [|c rest]; [done|].
  exists [c]. unfold original_label. rewrite Hp. cbn. rewrite Ho. cbn.
  by rewrite Hopt.
Qed.

Lemma map_answers_labels q indices labels user u :
  covers q indices → Forall (λ ab, ab ∈ displayed q) labels →
  map_answers q indices labels user = Ok u →
  Forall (λ ab, is_Some (original_label q indices ab)) labels.
Proof.
  intros Hc Hl. revert user.
  induction Hl as [|ab labels Hab _ IH]; intros user H; [constructor|].
  cbn [map_answers] in H. apply bind_Ok in H as (user' & Hadd & H).
  constructor; [by eapply add_mapped_label | by eapply IH].
Qed.

Lemma unanswered_pos s i :
  user_answers s !! i = Some ∅ → 0 < unanswered s.
Proof.
  intros Hi. unfold unanswered. rewrite sum_list_fmap_const, Nat.mul_1_r.
  assert (Hin : (∅ : gset pystr)
                ∈ filter (λ ans : gset pystr, ans = ∅) (user_answers s)).
  { apply list_elem_of_filter. split; [done|]. by eapply list_elem_of_lookup_2. }
  destruct (filter _ _); [by apply elem_of_nil in Hin | cbn; lia].
Qed.

(** X15: a question whose answer list is empty (the loader accepts it) is
    graded right exactly when nothing is stored for it (with a box ticked,
    grading gives a wrong entry or raises): the only right answer is to
    leave it open, although an open question counts as unanswered, so that
    the submit button then asks for confirmation. *)
Theorem empty_answer_right_iff_open s i q answers :
  session_ok s →
  quiz s !! i = Some q →
  user_answers s !! i = Some answers →
  answer q = [] →
  (grade_question s i q = Ok None ↔ answers = ∅) ∧
  (answers = ∅ →
     0 < unanswered s ∧
     try_submit false s = Ok (s, [ConfirmSubmit (unanswered s)])).
Proof.
  intros ((Hlen & Hmaps) & _ & _ & Ha) Hq Hans Hempty.
  destruct (Forall2_lookup_l _ _ _ _ _ Hmaps Hq) as (indices & Hi & Hc).
  pose proof (Forall2_lookup_lr _ _ _ _ _ _ Ha Hq Hans) as Hsub. cbn in Hsub.
  split; [split|].
  - intros Hg. unfold grade_question in Hg.
    rewrite (proj2 (getitem_Ok _ _ _) Hi), bind_Ok_l in Hg.
    rewrite (proj2 (getitem_Ok _ _ _) Hans), bind_Ok_l in Hg.
    apply bind_Ok in Hg as (user & Hu & Hg).
    assert (Hall : Forall (λ ab, is_Some (original_label q indices ab))
                     (elements answers)).
    { eapply map_answers_labels; [exact Hc| |exact Hu].
      apply Forall_forall. intros ab Hab. apply elem_of_elements in Hab.
      apply Hsub in Hab. by apply elem_of_list_to_set in Hab. }
    apply map_answers_Ok in Hu. rewrite union_empty_r_L in Hu.
    case_bool_decide as Hne.
    { destruct (sorted_strs_Ok (list_to_set (answer q))) as (sr & Hsr & _).
      destruct (sorted_strs_Ok user) as (su & Hsu & _).
      rewrite Hsr, Hsu, !bind_Ok_l in Hg. done. }
    assert (Huser : user = ∅).
    { destruct (decide (user = list_to_set (answer q))) as [E|E]; [|done].
      by rewrite E, Hempty. }
    apply set_eq. intros ab. split; [|set_solver]. intros Hab. exfalso.
    rewrite Forall_forall in Hall.
    destruct (Hall ab) as [x Hx]; [by apply elem_of_elements|].
    assert (Hin : x ∈ user).
    { rewrite Hu. apply elem_of_list_to_set, list_elem_of_omap.
      exists ab. split; [by apply elem_of_elements | done]. }
    rewrite Huser in Hin. set_solver.
  - intros ->. unfold grade_question.
    rewrite (proj2 (getitem_Ok _ _ _) Hi), bind_Ok_l.
    rewrite (proj2 (getitem_Ok _ _ _) Hans), bind_Ok_l.
    rewrite elements_empty. cbn [map_answers]. rewrite bind_Ok_l.
    rewrite bool_decide_eq_false_2; [done|]. rewrite Hempty. by intros H.
  - intros ->. pose proof (unanswered_pos _ _ Hans) as Hpos.
    split; [done|]. unfold try_submit. by rewrite bool_decide_eq_true_2.
Qed.

Lemma empty_answer_right_iff_open_witness :
  session_ok session_open ∧
  session_ok (after [Clicked 0] session_open) ∧
  user_answers (after [Clicked 0] session_open) !! 0 = Some {[py "A"]} ∧
  grade_question session_open 0 q_open = Ok None ∧
  unanswered session_open = 1 ∧
  try_submit false session_open
    = Ok (session_open, [ConfirmSubmit (unanswered session_open)]) ∧
  grade_question (after [Clicked 0] session_open) 0 q_open ≠ Ok None.
Proof.
  assert (H0 : session_ok session_open) by by_computation.
  assert (H1 : session_ok (after [Clicked 0] session_open)) by by_computation.
  assert (H2 : user_answers (after [Clicked 0] session_open) !! 0
               = Some {[py "A"]}) by (vm_compute; reflexivity).
  assert (H3 : quiz (after [Clicked 0] session_open) !! 0 = Some q_open)
    by (vm_compute; reflexivity).
  do 3 (split; [assumption|]).
  destruct (empty_answer_right_iff_open session_open 0 q_open ∅ H0
              eq_refl eq_refl eq_refl) as [Hopen Hconfirm].
  destruct (empty_answer_right_iff_open (after [Clicked 0] session_open) 0
              q_open {[py "A"]} H1 H3 H2 eq_refl) as [Hticked _].
  split; [exact (proj2 Hopen eq_refl)|]. split; [vm_compute; reflexivity|].
  split; [exact (proj2 (Hconfirm eq_refl))|].
  intros Hg. apply Hticked in Hg.
  assert (Hin : py "A" ∈ ({[py "A"]} : gset pystr)) by (by apply elem_of_singleton).
  rewrite Hg in Hin. by apply not_elem_of_empty in Hin.
Defined.


(** * The labels a question offers *)

(** C10: a question with [n] options gets the first [min n 8] of the labels
    A to H, each row showing the option at its position of the permutation.
    Each of these labels can be selected: a click on its box stores the
    label when it was not stored and drops it when it was.  There is no box
    beyond them and a click there changes nothing, so that only these
    labels are ever stored; an option whose position in the permutation is
    8 or more is in no row, and grading passes over a label whose position
    is not below the length of the permutation. *)
Theorem eight_labels_only s idx q indices :
  session_ok s →
  quiz s !! idx = Some q →
  option_shuffle_map s !! idx = Some indices →
  ∃ s' saved,
    show_question idx s = Ok s' ∧
    user_answers s !! idx = Some saved ∧
    cb_text <$> checkboxes s' =
      (λ ab, ab ++ py ".") <$> take (length (options q) `min` 8) abcd ∧
    length (option_labels s') = length (options q) `min` 8 ∧
    (∀ i, i < length (options q) `min` 8 →
       ∃ o opt, indices !! i = Some o ∧ options q !! o = Some opt ∧
                option_labels s' !! i = Some (drop 2 opt)) ∧
    (∀ p o, 8 ≤ p → indices !! p = Some o →
       ∀ i, i < length (options q) `min` 8 → indices !! i ≠ Some o) ∧
    (∀ k ab, k < length (options q) `min` 8 → abcd !! k = Some ab →
       ∃ s'', click_option k s' = Ok s'' ∧
              user_answers s'' !! idx = Some (toggle ab saved) ∧
              (ab ∈ toggle ab saved ↔ ab ∉ saved) ∧
              ∀ x, x ≠ ab → (x ∈ toggle ab saved ↔ x ∈ saved)) ∧
    (∀ k, length (options q) `min` 8 ≤ k →
       checkboxes s' !! k = None ∧ click_option k s' = Ok s') ∧
    (∀ k s'' ans, click_option k s' = Ok s'' → user_answers s'' !! idx = Some ans →
       ans ⊆ list_to_set (take (length (options q) `min` 8) abcd)) ∧
    (∀ ab pos user, abcd !! pos = Some ab → length indices ≤ pos →
       add_mapped q indices user ab = Ok user).
Proof.
  intros Hok Hq Hi. pose proof Hok as (Hc & Hn & _ & Ha).
  destruct (show_question_total idx s Hc Hn) as [s' Hs'].
  { by eapply lookup_lt_Some. }
  pose proof (show_question_ok _ _ _ Hc Hn Ha Hs') as Hok'.
  pose proof (show_question_synced _ _ _ Hc Hn Ha Hs') as Hsynced.
  destruct (show_question_Ok _ _ _ Hs')
    as ((q' & ind & saved & rows & Hq' & Hi' & Hsaved & Hrows & Hcb & Hl & _)
        & Hidx & (_ & Hquiz & _) & Hu & _).
  rewrite Hq in Hq'. injection Hq' as <-. rewrite Hi in Hi'. injection Hi' as <-.
  apply option_rows_Ok in Hrows as (Hrows1 & Hlen & Hrows2).
  rewrite displayed_length in Hlen, Hrows2.
  assert (Hboxes : length (checkboxes s') = length (options q) `min` 8).
  { by rewrite Hcb, length_fmap. }
  exists s', saved. do 2 (split; [done|]).
  split; [|split; [|split; [|split; [|split; [|split; [|split]]]]]].
  - rewrite Hcb, Hrows1, <- list_fmap_compose, take_min_abcd. done.
  - by rewrite Hl, length_fmap.
  - intros i Hlt. destruct (Hrows2 i Hlt) as (o & opt & Ho & Hopt & Hrow).
    exists o, opt. by rewrite Hl.
  - intros p o Hp Ho i Hlt Ho'.
    destruct (covers_bijection q indices) as (_ & Hnd & _).
    { by eapply (Forall2_lookup_lr _ _ _ _ _ _ (proj2 Hc)). }
    pose proof (NoDup_lookup _ _ _ _ Hnd Ho Ho'). lia.
  - intros k ab Hk Hab.
    assert (Hdisp : displayed q !! k = Some ab).
    { unfold displayed. rewrite lookup_take_lt by lia. done. }
    destruct (click_option_toggles k s' q saved ab Hsynced) as
      (s'' & Hs'' & Hu'' & _).
    { by rewrite Hidx, Hquiz. }
    { by rewrite Hidx, Hu. }
    { done. }
    exists s''. split; [done|]. rewrite Hu'', Hidx, Hu. split.
    { apply list_lookup_insert_eq. by eapply lookup_lt_Some. }
    split.
    { unfold toggle. case_bool_decide; set_solver. }
    intros x Hx. unfold toggle. case_bool_decide; set_solver.
  - intros k Hk. split; [apply lookup_ge_None; lia|].
    unfold click_option. rewrite bool_decide_eq_false_2 by lia. done.
  - intros k s'' ans Hclick Hans.
    pose proof (click_option_ok _ _ _ Hok' Hclick) as (_ & _ & _ & Ha'').
    apply click_option_Ok in Hclick as ((_ & Hquiz'' & _) & _).
    rewrite take_min_abcd. rewrite Hquiz'', Hquiz in Ha''.
    by eapply (Forall2_lookup_lr _ _ _ _ _ _ Ha'').
  - intros ab pos user Hpos Hge. unfold add_mapped, original_index.
    rewrite (proj2 (index_of_position ab pos)) by (by apply position_of_lookup).
    rewrite bind_Ok_l, bool_decide_eq_false_2 by lia. done.
Qed.

Lemma eight_labels_only_witness :
  session_ok session_nine ∧ session_ok session_half ∧
  (∃ s' s'',
     show_question 0 session_nine = Ok s' ∧
     cb_text <$> checkboxes s' = (λ ab, ab ++ py ".") <$> take (9 `min` 8) abcd ∧
     length (option_labels s') = 9 `min` 8 ∧
     (∀ i, i < 9 `min` 8 → [8; 0; 1; 2; 3; 4; 5; 6; 7] !! i ≠ Some 7) ∧
     click_option 7 s' = Ok s'' ∧
     user_answers s'' !! 0 = Some (toggle (py "H") ∅) ∧
     py "H" ∈ toggle (py "H") (∅ : gset pystr) ∧
     checkboxes s' !! 8 = None ∧ click_option 8 s' = Ok s') ∧
  (∃ s' s'',
     show_question 0 session_half = Ok s' ∧
     click_option 1 s' = Ok s'' ∧
     user_answers s'' !! 0 = Some (toggle (py "B") {[py "B"; py "C"]}) ∧
     (py "B" ∉ toggle (py "B") ({[py "B"; py "C"]} : gset pystr)) ∧
     click_option 3 s' = Ok s') ∧
  (∀ user, add_mapped q_two [0; 2; 1] user (py "D") = Ok user).
Proof.
  assert (H1 : session_ok session_nine) by by_computation.
  assert (H2 : session_ok session_half) by by_computation.
  assert (H3 : user_answers session_half !! 0 = Some {[py "B"; py "C"]})
    by (vm_compute; reflexivity).
  do 2 (split; [assumption|]).
  destruct (eight_labels_only session_nine 0 q_nine [8; 0; 1; 2; 3; 4; 5; 6; 7]
              H1 eq_refl eq_refl)
    as (s9 & saved9 & Hs9 & Hsaved9 & Hcb & Hlen & _ & Hhidden & Hsel9 & Hnone9 & _).
  injection Hsaved9 as <-.
  destruct (Hsel9 7 (py "H")) as (t9 & Ht9 & Hu9 & Hin9 & _);
    [cbn; lia | reflexivity |].
  destruct (eight_labels_only session_half 0 q_two [0; 2; 1] H2 eq_refl eq_refl)
    as (s3 & saved3 & Hs3 & Hsaved3 & _ & _ & _ & _ & Hsel3 & Hnone3 & _ & Hskip).
  rewrite H3 in Hsaved3. injection Hsaved3 as <-.
  destruct (Hsel3 1 (py "B")) as (t3 & Ht3 & Hu3 & Hin3 & _);
    [cbn; lia | reflexivity |].
  split; [|split].
  - exists s9, t9. do 3 (split; [assumption|]).
    split; [exact (Hhidden 8 7 (le_n 8) eq_refl)|].
    do 2 (split; [assumption|]).
    split; [apply Hin9, not_elem_of_empty|].
    apply (Hnone9 8). cbn. lia.
  - exists s3, t3. do 3 (split; [assumption|]). split.
    + intros Hin. apply Hin3 in Hin. apply Hin.
      apply elem_of_union_l, elem_of_singleton. reflexivity.
    + apply (Hnone3 3). cbn. lia.
  - intros user. exact (Hskip (py "D") 3 user eq_refl (le_n 3)).
Defined.
